(** * Flaky-test ledger: the scoring engine of [scripts/flaky_from_testomat.py]

    A shallow embedding of the script and the properties of its
    specification.  Python values are embedded as follows.

    - A ledger row is a dict with the nine keys of [HEADERS]; it is the
      record [row].  The text cells [run_at], [run_id], [title], [status]
      and the three derived cells are byte strings (UTF-8).  The cells
      [retries] and [duration_ms] hold what [to_row] writes, the decimal
      text of an integer or the empty text; the engine reads them back
      with [int(..)], so the record keeps the integer ([retries], the
      empty text reading as 0) and the optional integer ([duration_ms],
      the empty text being the falsy cell).
    - [datetime] values are offset-naive or offset-aware instants; an
      order comparison between the two kinds raises [TypeError].
    - A call that can raise returns a [result]; the exceptions are those
      the script can meet.  [to_row] copies three cells of an item as they
      are; when such a cell is not text the row type has no value for it,
      and the model ends with [Unmodelled] where the script goes on.
    - [datetime.fromisoformat], [int] on text, [json.loads], UTF-8
      decoding, the csv module and the file system calls are library
      code: they are parameters of the sections that use them, and the
      scenarios are evaluated at sample readings of them.
    - A [float] is a binary64 value ([SpecFloat] of the standard
      library).  The [statistics] functions, the division of [int] and
      [float] values and the [OverflowError] they raise are those of
      CPython 3.11. *)

From Stdlib Require Import ZArith QArith Lia Ascii String List Bool OrdersEx Sorted Permutation.
From Stdlib Require Import Floats.SpecFloat.
From stdpp Require Import gmap strings list fin_maps pretty.

Local Open Scope string_scope.
Local Open Scope list_scope.
Local Open Scope Z_scope.

(** ** Text helpers *)

(** [str.lower()] on the ASCII letters.  The script only compares the
    lowered status with ["passed"] and ["failed"], and no character
    outside A-Z lowers to one of the letters of these two words, so the
    comparisons agree with Python's. *)
Definition lower_ascii (c : ascii) : ascii :=
  let n := nat_of_ascii c in
  if ((65 <=? n)%nat && (n <=? 90)%nat)%bool then ascii_of_nat (n + 32) else c.

Fixpoint lower (s : string) : string :=
  match s with
  | EmptyString => EmptyString
  | String c rest => String (lower_ascii c) (lower rest)
  end.

(** [len(s)] of a Python [str] held as UTF-8 bytes: the number of code
    points, that is of bytes that are not continuation bytes
    (binary 10xxxxxx, 128..191). *)
Definition is_continuation (c : ascii) : bool :=
  let n := nat_of_ascii c in ((128 <=? n)%nat && (n <=? 191)%nat)%bool.

Fixpoint py_len (s : string) : nat :=
  match s with
  | EmptyString => O
  | String c rest => ((if is_continuation c then 0 else 1) + py_len rest)%nat
  end.

(** [sep.join(parts)] *)
Fixpoint join (sep : string) (parts : list string) : string :=
  match parts with
  | [] => ""
  | [p] => p
  | p :: rest => p +:+ sep +:+ join sep rest
  end.

(** [l[-n:]] for [n > 0]: the last [n] elements, the whole list when it is
    shorter. *)
Definition last_n {A} (n : nat) (l : list A) : list A :=
  drop (length l - n) l.

(** [l.count(x)] *)
Definition count_eq (x : string) (l : list string) : nat :=
  length (filter (fun y => y = x) l).

(** [x in l] *)
Definition mem_str (x : string) (l : list string) : bool :=
  existsb (String.eqb x) l.

(** ** Rows *)

Record row := mk_row {
  run_at : string;
  run_id : string;
  title : string;
  status : string;
  retries : Z;
  duration_ms : option Z;
  trend_last5 : string;
  is_flaky : string;
  reasons : string
}.

Definition PASS_GLYPH : string := "✅".
Definition FAIL_GLYPH : string := "❌".
Definition SKIP_GLYPH : string := "⏭".

Definition status_symbol (status : string) : string :=
  let s := lower status in
  if String.eqb s "passed" then PASS_GLYPH
  else if String.eqb s "failed" then FAIL_GLYPH
  else SKIP_GLYPH.

Definition REASON_R1 : string := ">1 fail in last5".
Definition REASON_R3 : string := ">1 retry to pass".
Definition REASON_R4 : string := "duration instability".


(** ** Exceptions and results *)

Inductive exn :=
  | TypeError
  | OverflowError
  | ZeroDivisionError
  | StatisticsError
  | AttributeError
  | OSError
  | UnicodeEncodeError
  | SystemExit (msg : string)
  | Unmodelled (why : string).

Inductive result (A : Type) :=
  | Ok (a : A)
  | Raise (e : exn).
Arguments Ok {A} a.
Arguments Raise {A} e.

#[global] Instance result_ret : MRet result := fun A a => Ok a.
#[global] Instance result_bind : MBind result := fun A B f m =>
  match m with
  | Ok a => f a
  | Raise e => Raise e
  end.

#[global] Instance result_fmap : FMap result := fun A B f m =>
  match m with
  | Ok a => Ok (f a)
  | Raise e => Raise e
  end.

(** ** Numbers

    A Python [int] is an integer.  A [float] is a binary64 value: a
    [spec_float] of the standard library at precision 53 with exponents
    up to 1024, whose operations round to nearest, ties to even. *)

Definition binary64 : Type := spec_float.
Definition PREC : Z := 53.
Definition EMAX : Z := 1024.

(** What the [statistics] functions return on integers. *)
Inductive num :=
  | PyInt (z : Z)
  | PyFloat (f : binary64).

(** An integer as a binary value before rounding. *)
Definition exact_int (z : Z) : binary64 :=
  match z with
  | 0 => S754_zero false
  | Z.pos p => S754_finite false p 0
  | Z.neg p => S754_finite true p 0
  end.

(** A rounded value that is out of range is an [OverflowError]. *)
Definition finite (f : binary64) : result binary64 :=
  match f with
  | S754_infinity _ => Raise OverflowError
  | _ => Ok f
  end.

(** [a / b] on two [int]: the quotient, rounded once; "integer division
    result too large for a float". *)
Definition int_truediv (a b : Z) : result binary64 :=
  if b =? 0 then Raise ZeroDivisionError
  else finite (SFdiv PREC EMAX (exact_int a) (exact_int b)).

(** [float(z)]: "int too large to convert to float". *)
Definition float_of_int (z : Z) : result binary64 :=
  finite (binary_normalize PREC EMAX z 0 false).

(** [x / y] on two [float]: an infinite quotient is returned as it is. *)
Definition float_truediv (x y : binary64) : result binary64 :=
  match y with
  | S754_zero _ => Raise ZeroDivisionError
  | _ => Ok (SFdiv PREC EMAX x y)
  end.

(** [a / b]: an [int] that meets a [float] is converted first; an [int]
    that is not 0 converts to a [float] that is not zero. *)
Definition truediv (a b : num) : result binary64 :=
  match a, b with
  | PyInt x, PyInt y => int_truediv x y
  | PyInt x, PyFloat y => fx ← float_of_int x; float_truediv fx y
  | PyFloat x, PyInt y =>
      if y =? 0 then Raise ZeroDivisionError
      else fy ← float_of_int y; Ok (SFdiv PREC EMAX x fy)
  | PyFloat x, PyFloat y => float_truediv x y
  end.

(** [bool(v)] *)
Definition truthy_num (v : num) : bool :=
  match v with
  | PyInt z => negb (z =? 0)
  | PyFloat (S754_zero _) => false
  | PyFloat _ => true
  end.

(** [x >= y] on two [float] *)
Definition float_ge (x y : binary64) : bool := SFleb y x.

(** The literals [0.0], [5.0] and [0.6] *)
Definition FLOAT_0_0 : binary64 := S754_zero false.
Definition FLOAT_5_0 : binary64 := S754_finite false 5629499534213120 (-50).
Definition FLOAT_0_6 : binary64 := S754_finite false 5404319552844595 (-53).

(** ** The [statistics] functions used by rule R4 (CPython 3.11) *)

Fixpoint insert_by {A} (le : A -> A -> bool) (x : A) (l : list A) : list A :=
  match l with
  | [] => [x]
  | y :: l' => if le x y then x :: l else y :: insert_by le x l'
  end.

(** [sorted(data)] on integers *)
Definition sorted_Z (data : list Z) : list Z :=
  fold_right (insert_by Z.leb) [] data.

Definition sum_Z (data : list Z) : Z := fold_right Z.add 0 data.

(** [max(data)] of a non-empty list *)
Definition max_Z (data : list Z) : Z :=
  match data with
  | [] => 0
  | x :: rest => fold_left Z.max rest x
  end.

(** [len(data)] as a [Fraction] *)
Definition len_Q {A} (l : list A) : Q := inject_Z (Z.of_nat (length l)).

(** [z.bit_length()] *)
Definition bit_length (z : Z) : Z :=
  match z with
  | 0 => 0
  | _ => Z.log2 (Z.abs z) + 1
  end.

(** [_integer_sqrt_of_frac_rto]: the square root of [n/m] rounded to an
    integer, to the odd one when it is not exact. *)
Definition integer_sqrt_of_frac_rto (n m : Z) : Z :=
  let a := Z.sqrt (n / m) in
  Z.lor a (if a * a * m =? n then 0 else 1).

Definition SQRT_BIT_WIDTH : Z := 2 * PREC + 3.

(** [_float_sqrt_of_frac]: the square root of [n/m] as a [float]. *)
Definition float_sqrt_of_frac (n m : Z) : result binary64 :=
  let q := (bit_length n - bit_length m - SQRT_BIT_WIDTH) / 2 in
  if 0 <=? q then
    let numerator :=
      Z.shiftl (integer_sqrt_of_frac_rto n (Z.shiftl m (2 * q))) q in
    int_truediv numerator 1
  else
    let numerator := integer_sqrt_of_frac_rto (Z.shiftl n (-2 * q)) m in
    let denominator := Z.shiftl 1 (- q) in
    int_truediv numerator denominator.

(** [statistics.median]: the middle element of the sorted data; the mean
    of the two middle ones, a [float], for an even length. *)
Definition median (data : list Z) : result num :=
  let data := sorted_Z data in
  let n := length data in
  if (n =? 0)%nat then Raise StatisticsError
  else if (n mod 2 =? 1)%nat then Ok (PyInt (nth (n / 2) data 0))
  else
    let i := (n / 2)%nat in
    PyFloat <$> int_truediv (nth (i - 1) data 0 + nth i data 0) 2.

(** [_convert(value, int)] on a [Fraction], which is kept in lowest
    terms: an [int] when the denominator is 1, else [float(value)], that
    is numerator / denominator. *)
Definition convert (value : Q) : result num :=
  let value := Qred value in
  if (Qden value =? 1)%positive then Ok (PyInt (Qnum value))
  else PyFloat <$> int_truediv (Qnum value) (Z.pos (Qden value)).

(** [statistics.mean] *)
Definition mean (data : list Z) : result num :=
  let total := inject_Z (sum_Z data) in
  if (length data <? 1)%nat then Raise StatisticsError
  else convert (total / len_Q data)%Q.

(** [statistics.pstdev]: [_ss] computes the sum of the squared
    deviations exactly, from the sum and the sum of the squares. *)
Definition pstdev (data : list Z) : result binary64 :=
  let count := len_Q data in
  let sx := inject_Z (sum_Z data) in
  let sxx := inject_Z (sum_Z (map (fun n => n * n) data)) in
  let ss := ((count * sxx - sx * sx) / count)%Q in
  if (length data <? 1)%nat then Raise StatisticsError
  else
    let mss := Qred (ss / count)%Q in
    float_sqrt_of_frac (Qnum mss) (Z.pos (Qden mss)).

(** The test of rule R4 on the duration list (lines 134-140).  The
    threshold is the literal [5.0] of line 140; the constant
    [DURATION_SPIKE_FACTOR] of the script is not read. *)
Definition R4_test (dur_list : list Z) : result bool :=
  if (3 <=? length dur_list)%nat then
    med ← median dur_list;
    mean_ ← mean dur_list;
    std ← pstdev dur_list;
    spike ← (if truthy_num med then truediv (PyInt (max_Z dur_list)) med
             else Ok FLOAT_0_0);
    cov ← (if truthy_num mean_ then truediv (PyFloat std) mean_
           else Ok FLOAT_0_0);
    Ok (float_ge spike FLOAT_5_0 || float_ge cov FLOAT_0_6)
  else Ok false.

(** Rule R4 fires: the test returns [True]. *)
Definition rule_R4 (dur_list : list Z) : bool :=
  match R4_test dur_list with
  | Ok fired => fired
  | Raise _ => false
  end.

(** ** Scoring one row against the history of its title (lines 112-145) *)

Definition trend_syms (history : list row) (r : row) : list string :=
  let prev_syms := last_n 4 (map (fun h => status_symbol (status h)) history) in
  let cur_sym := status_symbol (status r) in
  last_n 5 (prev_syms ++ [cur_sym]).

Definition known_durations (rows : list row) : list Z :=
  omap duration_ms rows.

Definition durations (history : list row) (r : row) : list Z :=
  let dur_list := known_durations (last_n 4 history) in
  match duration_ms r with
  | Some cur_dur => dur_list ++ [cur_dur]
  | None => dur_list
  end.

Definition rule_R1 (syms : list string) : bool :=
  (2 <=? count_eq FAIL_GLYPH syms)%nat.

Definition rule_R3 (r : row) : bool :=
  String.eqb (lower (status r)) "passed" && Z.ltb 1 (retries r).

(** The pair [(reasons, score)] after the three rules. *)
Definition rules (history : list row) (r : row) : list string * Z :=
  let syms := trend_syms history r in
  let dur_list := durations history r in
  let '(reasons, score) := ([], 0) in
  let '(reasons, score) :=
    if rule_R1 syms then (reasons ++ [REASON_R1], score + 40)
    else (reasons, score) in
  let '(reasons, score) :=
    if rule_R3 r then (reasons ++ [REASON_R3], score + 20)
    else (reasons, score) in
  let '(reasons, score) :=
    if rule_R4 dur_list then (reasons ++ [REASON_R4], score + 20)
    else (reasons, score) in
  (reasons, score).

Definition score_of (history : list row) (r : row) : Z := snd (rules history r).
Definition reasons_of (history : list row) (r : row) : list string :=
  fst (rules history r).

Definition score_row (history : list row) (r : row) : row :=
  let '(reasons, score) := rules history r in
  {| run_at := run_at r; run_id := run_id r; title := title r;
     status := status r; retries := retries r; duration_ms := duration_ms r;
     trend_last5 := join "" (trend_syms history r);
     is_flaky := if Z.leb 40 score || mem_str REASON_R1 reasons
                 then "yes" else "no";
     reasons := join "; " reasons |}.

(** The scoring loop (lines 107-146): [grouped] maps a title to the rows
    of that title scored so far. *)
Fixpoint score_loop (grouped : gmap string (list row)) (rows : list row)
  : list row :=
  match rows with
  | [] => []
  | r :: rest =>
      let history := default [] (grouped !! title r) in
      let r' := score_row history r in
      r' :: score_loop (<[title r := history ++ [r']]> grouped) rest
  end.

Definition score_pass (rows : list row) : list row := score_loop ∅ rows.

(** The loop as the script runs it.  The body can raise in the test of
    rule R4 only; [score_row history r] is the row it builds when the
    test returns, and [score_loop] is the loop when every test does. *)
Fixpoint score_loop_py (grouped : gmap string (list row)) (rows : list row)
  : result (list row) :=
  match rows with
  | [] => Ok []
  | r :: rest =>
      let history := default [] (grouped !! title r) in
      _ ← R4_test (durations history r);
      let r' := score_row history r in
      rest' ← score_loop_py (<[title r := history ++ [r']]> grouped) rest;
      Ok (r' :: rest')
  end.

(** ** Timestamps *)

(** A [datetime] is offset-naive (no [tzinfo]) or offset-aware.  The
    integer is the number of microseconds since 0001-01-01T00:00:00: of
    the wall clock for a naive value, of the UTC instant for an aware
    one. *)
Inductive datetime :=
  | Naive (us : Z)
  | Aware (us : Z).

(** [datetime.min] is naive. *)
Definition datetime_min : datetime := Naive 0.

Definition is_aware (d : datetime) : bool :=
  match d with Naive _ => false | Aware _ => true end.

(** [a == b]: never raises, a naive and an aware value are unequal. *)
Definition dt_eqb (a b : datetime) : bool :=
  match a, b with
  | Naive x, Naive y => Z.eqb x y
  | Aware x, Aware y => Z.eqb x y
  | _, _ => false
  end.

(** [a < b]: "can't compare offset-naive and offset-aware datetimes". *)
Definition dt_lt (a b : datetime) : result bool :=
  match a, b with
  | Naive x, Naive y => Ok (Z.ltb x y)
  | Aware x, Aware y => Ok (Z.ltb x y)
  | _, _ => Raise TypeError
  end.

(** [(t1, d1) < (t2, d2)] on tuples: the first components that differ
    (by [==]) are compared with [<]. *)
Definition key_lt (a b : string * datetime) : result bool :=
  if String.eqb (fst a) (fst b) then
    if dt_eqb (snd a) (snd b) then Ok false else dt_lt (snd a) (snd b)
  else Ok (String.ltb (fst a) (fst b)).

(** [s.replace("Z", "+00:00")] *)
Fixpoint replace_Z (s : string) : string :=
  match s with
  | EmptyString => EmptyString
  | String c rest =>
      if Ascii.eqb c "Z"%char then "+00:00" +:+ replace_Z rest
      else String c (replace_Z rest)
  end.

(** ** [list.sort(key=...)]

    [list.sort] is a stable comparison sort: it orders the rows with [<]
    on their keys, rows with equal keys keeping their order, and it
    raises when a comparison raises.  The model inserts the rows one by
    one.  It returns what any stable sort returns; and it raises where
    any comparison sort has to, that is where two rows whose keys [<]
    does not compare have to be ordered ([list_sort_one_kind]). *)
Section ListSort.
Context {A K : Type}.
Variable lt : K -> K -> result bool.
Variable key : A -> K.

(** [x] goes in front of the first row that is not smaller than it. *)
Fixpoint sort_insert (x : A) (sorted : list A) : result (list A) :=
  match sorted with
  | [] => Ok [x]
  | y :: rest =>
      b ← lt (key y) (key x);
      if b : bool then (rest' ← sort_insert x rest; Ok (y :: rest'))
      else Ok (x :: sorted)
  end.

(** Rows are taken from the end of the list, so that a row is inserted
    in front of the equal keys that follow it in the input. *)
Fixpoint list_sort (l : list A) : result (list A) :=
  match l with
  | [] => Ok []
  | x :: rest => sorted ← list_sort rest; sort_insert x sorted
  end.
End ListSort.

(** The result of [list.sort] when no comparison raises: the same
    insertion with a total comparison. *)
Section PureSort.
Context {A K : Type}.
Variable ltb : K -> K -> bool.
Variable key : A -> K.

Fixpoint insert_pure (x : A) (sorted : list A) : list A :=
  match sorted with
  | [] => [x]
  | y :: rest =>
      if ltb (key y) (key x) then y :: insert_pure x rest else x :: sorted
  end.

Definition sort_pure (l : list A) : list A := fold_right insert_pure [] l.

(** [x] is not after [y] in the order of the keys *)
Definition not_after (x y : A) : Prop := ltb (key y) (key x) = false.

(** Ascending: no row is after a row that follows it. *)
Definition sorted_by (l : list A) : Prop := StronglySorted not_after l.
End PureSort.

(** A total order on timestamps that agrees with [dt_lt] where [dt_lt]
    does not raise (naive values are put first). *)
Definition dt_ltb (a b : datetime) : bool :=
  match a, b with
  | Naive x, Naive y => Z.ltb x y
  | Aware x, Aware y => Z.ltb x y
  | Naive _, Aware _ => true
  | Aware _, Naive _ => false
  end.

Definition key_ltb (a b : string * datetime) : bool :=
  if String.eqb (fst a) (fst b) then dt_ltb (snd a) (snd b)
  else String.ltb (fst a) (fst b).

(** ** The engine (lines 98-154) *)
Section Engine.
(** [datetime.fromisoformat]; [None] when it raises [ValueError]. *)
Variable fromisoformat : string -> option datetime.

(** [parse_dt] and [parse_dt2] (the same function, defined twice). *)
Definition parse_dt (s : string) : datetime :=
  match fromisoformat (replace_Z s) with
  | Some d => d
  | None => datetime_min
  end.

Definition title_time (r : row) : string * datetime :=
  (title r, parse_dt (run_at r)).

Definition time_of (r : row) : datetime := parse_dt (run_at r).

Definition compute_trend_and_flaky (all_rows : list row) : result (list row) :=
  sorted ← list_sort key_lt title_time all_rows;
  scored ← score_loop_py ∅ sorted;
  list_sort dt_lt time_of scored.
End Engine.

(** ** A reading of [datetime.fromisoformat] for the concrete scenarios

    [iso_seconds] reads the texts [YYYY-MM-DDTHH:MM:SS], optionally
    followed by an offset [+HH:MM] or [-HH:MM], as
    [datetime.fromisoformat] does, and is [None] on every other text.  It
    is the instance at which the scenarios below are evaluated; their run
    times are all of this shape, or are unparsable for every version of
    the library function. *)
Definition digit (c : ascii) : option Z :=
  let n := nat_of_ascii c in
  if ((48 <=? n)%nat && (n <=? 57)%nat)%bool then Some (Z.of_nat (n - 48)) else None.

Fixpoint take_num (n : nat) (acc : Z) (s : string) : option (Z * string) :=
  match n with
  | O => Some (acc, s)
  | S n' =>
      match s with
      | EmptyString => None
      | String c rest => d ← digit c; take_num n' (10 * acc + d) rest
      end
  end.

Definition expect (c : ascii) (s : string) : option string :=
  match s with
  | String c' rest => if Ascii.eqb c c' then Some rest else None
  | EmptyString => None
  end.

Definition is_leap (y : Z) : bool :=
  (y mod 4 =? 0) && (negb (y mod 100 =? 0) || (y mod 400 =? 0)).

Definition days_in_month (y m : Z) : Z :=
  if m =? 2 then (if is_leap y then 29 else 28)
  else if (m =? 4) || (m =? 6) || (m =? 9) || (m =? 11) then 30 else 31.

Fixpoint days_before_month (y : Z) (m : nat) : Z :=
  match m with
  | O => 0
  | S m' => days_before_month y m' + days_in_month y (Z.of_nat m)
  end.

(** [date.toordinal()]: 0001-01-01 is day 1 *)
Definition ordinal (y m d : Z) : Z :=
  let y1 := y - 1 in
  y1 * 365 + y1 / 4 - y1 / 100 + y1 / 400
  + days_before_month y (Z.to_nat (m - 1)) + d.

Definition in_range (lo x hi : Z) : bool := (lo <=? x) && (x <=? hi).

Definition iso_seconds (s : string) : option datetime :=
  '(y, s) ← take_num 4 0 s;
  s ← expect "-" s;
  '(mo, s) ← take_num 2 0 s;
  s ← expect "-" s;
  '(d, s) ← take_num 2 0 s;
  s ← expect "T" s;
  '(h, s) ← take_num 2 0 s;
  s ← expect ":" s;
  '(mi, s) ← take_num 2 0 s;
  s ← expect ":" s;
  '(sec, s) ← take_num 2 0 s;
  if in_range 1 y 9999 && in_range 1 mo 12 && in_range 1 d (days_in_month y mo)
     && in_range 0 h 23 && in_range 0 mi 59 && in_range 0 sec 59
  then
    let wall := ((ordinal y mo d - 1) * 86400 + h * 3600 + mi * 60 + sec) * 1000000 in
    match s with
    | EmptyString => Some (Naive wall)
    | String sign s =>
        '(oh, s) ← take_num 2 0 s;
        s ← expect ":" s;
        '(om, s) ← take_num 2 0 s;
        let offset := (oh * 3600 + om * 60) * 1000000 in
        if in_range 0 oh 23 && in_range 0 om 59 && String.eqb s "" then
          if Ascii.eqb sign "+" then Some (Aware (wall - offset))
          else if Ascii.eqb sign "-" then Some (Aware (wall + offset))
          else None
        else None
    end
  else None.

(** ** The scoring loop without the dict

    [history_of t scored] is what [grouped[t]] holds once the rows
    [scored] have been visited; [score_from] is the loop written with it. *)
Definition history_of (t : string) (scored : list row) : list row :=
  List.filter (fun h => String.eqb (title h) t) scored.

Fixpoint score_from (scored rows : list row) : list row :=
  match rows with
  | [] => []
  | r :: rest =>
      let r' := score_row (history_of (title r) scored) r in
      r' :: score_from (scored ++ [r']) rest
  end.

(** Every test of rule R4 returns when the rows are scored in the order
    [order]: the loop raises at the first row whose test raises. *)
Definition R4_returns (order : list row) : Prop :=
  forall l1 r l2, order = l1 ++ r :: l2 ->
    exists fired, R4_test (durations (history_of (title r) l1) r) = Ok fired.

(** The input cells of a row: the row with its derived cells blanked, as
    [to_row] builds it. *)
Definition core (r : row) : row :=
  {| run_at := run_at r; run_id := run_id r; title := title r;
     status := status r; retries := retries r; duration_ms := duration_ms r;
     trend_last5 := ""; is_flaky := ""; reasons := "" |}.

Section EngineOrder.
Variable fromisoformat : string -> option datetime.

(** All run times of the rows are of one kind, naive or aware. *)
Definition one_kind (rows : list row) : Prop :=
  forall x y, In x rows -> In y rows ->
    is_aware (time_of fromisoformat x) = is_aware (time_of fromisoformat y).

(** The run times of the rows of each title are of one kind. *)
Definition title_kind (rows : list row) : Prop :=
  forall x y, In x rows -> In y rows -> title x = title y ->
    is_aware (time_of fromisoformat x) = is_aware (time_of fromisoformat y).

(** The two sorting steps when no comparison raises. *)
Definition sort_title_time (rows : list row) : list row :=
  sort_pure key_ltb (title_time fromisoformat) rows.

Definition sort_time (rows : list row) : list row :=
  sort_pure dt_ltb (time_of fromisoformat) rows.

(** No duration window of the rows takes rule R4 out of the range of
    the floats. *)
Definition in_float_range (rows : list row) : Prop :=
  R4_returns (sort_title_time rows).

Definition sorted_time : list row -> Prop :=
  sorted_by dt_ltb (time_of fromisoformat).

Definition sorted_title_time : list row -> Prop :=
  sorted_by key_ltb (title_time fromisoformat).
End EngineOrder.

(** A selection of rows that reads the input cells only. *)
Definition reads_input_only (p : row -> bool) : Prop :=
  forall r, p r = p (core r).

(** In the scoring order [order], the rows that [p] drops come after
    every row of their title that [p] keeps. *)
Definition drops_later_rows_only (p : row -> bool) (order : list row) : Prop :=
  forall l1 x l2 y,
    order = l1 ++ x :: l2 -> In y l2 -> title y = title x ->
    p x = false -> p y = false.

(** ** Scenarios *)

(** [needle in hay] on texts *)
Fixpoint contains (needle hay : string) : bool :=
  String.prefix needle hay
  || match hay with
     | EmptyString => false
     | String _ rest => contains needle rest
     end.

(** The row [to_row] builds for an item without a run id. *)
Definition new_row (at_ t st : string) (re : Z) (dur : option Z) : row :=
  {| run_at := at_; run_id := at_; title := t; status := st; retries := re;
     duration_ms := dur; trend_last5 := ""; is_flaky := ""; reasons := "" |}.

(** The wording of the R1 reason in the specification. *)
Definition SPEC_REASON_R1 : string := "≥2 fails in last 5".

(** Title "T": failed, failed, passed, passed, passed. *)
Definition scenario_R1 : list row :=
  [ new_row "2024-03-01T10:00:00Z" "T" "failed" 0 None;
    new_row "2024-03-02T10:00:00Z" "T" "failed" 0 None;
    new_row "2024-03-03T10:00:00Z" "T" "passed" 0 None;
    new_row "2024-03-04T10:00:00Z" "T" "passed" 0 None;
    new_row "2024-03-05T10:00:00Z" "T" "passed" 0 None ].

(** A single passed row with two retries. *)
Definition scenario_R3 : list row :=
  [ new_row "2024-03-01T10:00:00Z" "T" "passed" 2 None ].


(** The same, the last row passing after two retries: R3 and R4, no R1. *)
Definition scenario_R3_R4 : list row :=
  [ new_row "2024-03-01T10:00:00Z" "T" "passed" 0 (Some 100);
    new_row "2024-03-02T10:00:00Z" "T" "passed" 0 (Some 100);
    new_row "2024-03-03T10:00:00Z" "T" "passed" 2 (Some 600) ].

(** An aware run time and an unparsable one. *)
Definition scenario_mixed : list row :=
  [ new_row "2024-03-01T10:00:00Z" "T" "passed" 0 None;
    new_row "" "T" "passed" 0 None ].

(** Two titles, given out of order. *)
Definition scenario_row_A : row :=
  new_row "2024-03-02T10:00:00Z" "A" "passed" 0 (Some 80).

Definition scenario_two_titles : list row :=
  [ new_row "2024-03-03T10:00:00Z" "T" "failed" 0 (Some 120);
    scenario_row_A;
    new_row "2024-03-01T10:00:00Z" "T" "failed" 0 (Some 100);
    new_row "2024-03-04T10:00:00Z" "T" "passed" 2 None ].

(** Six runs of one title, durations known for the first three and for
    the fourth from last only; then a run of 600 ms. *)
Definition scenario_window_history : list row :=
  [ new_row "2024-03-01T10:00:00Z" "T" "passed" 0 (Some 100);
    new_row "2024-03-02T10:00:00Z" "T" "passed" 0 (Some 100);
    new_row "2024-03-03T10:00:00Z" "T" "passed" 0 (Some 100);
    new_row "2024-03-04T10:00:00Z" "T" "passed" 0 None;
    new_row "2024-03-05T10:00:00Z" "T" "passed" 0 None;
    new_row "2024-03-06T10:00:00Z" "T" "passed" 0 None ].

Definition scenario_window_row : row :=
  new_row "2024-03-07T10:00:00Z" "T" "passed" 0 (Some 600).

(** The other reading of "the last durations": filter the known
    durations of the whole history first, then keep the last four. *)
Definition durations_filter_then_window (history : list row) (r : row) : list Z :=
  let dur_list := last_n 4 (known_durations history) in
  match duration_ms r with
  | Some cur_dur => dur_list ++ [cur_dur]
  | None => dur_list
  end.



(** The rows whose run time is [d]. *)
Definition at_time (fromisoformat : string -> option datetime) (d : datetime)
    (r : row) : bool :=
  dt_eqb (time_of fromisoformat r) d.

(** ** Rule R4 in the words of the specification

    The median, the mean and the population standard deviation of the
    durations, [spike = max/median] (0 if the median is 0) and
    [coefficient_of_variation = stdev/mean] (0 if the mean is 0).  The
    median and the maximum are read off the durations in ascending
    order, the mean is the sum over the number, and the variance is the
    mean of the squared deviations from the mean; values that are not
    integers are floats, rounded once from the exact value. *)







(** ** JSON documents and the rows built from them (lines 60-96) *)

(** What [json.loads] returns.  A float is its exact value, [None] for
    [inf] and [nan]; a dict is the list of its entries. *)
#[local] Unset Elimination Schemes.
Inductive json :=
  | JNull
  | JBool (b : bool)
  | JInt (z : Z)
  | JFloat (f : option Q)
  | JStr (s : string)
  | JList (items : list json)
  | JDict (entries : list (string * json)).
#[local] Set Elimination Schemes.

(** [bool(v)] *)
Definition truthy (v : json) : bool :=
  match v with
  | JNull => false
  | JBool b => b
  | JInt z => negb (Z.eqb z 0)
  | JFloat (Some q) => negb (Qeq_bool q 0)
  | JFloat None => true
  | JStr s => negb (String.eqb s "")
  | JList items => match items with [] => false | _ => true end
  | JDict entries => match entries with [] => false | _ => true end
  end.

(** [a or b] *)
Definition py_or (a b : json) : json := if truthy a then a else b.

Fixpoint lookup_entry (k : string) (entries : list (string * json)) : option json :=
  match entries with
  | [] => None
  | (k', v) :: rest => if String.eqb k k' then Some v else lookup_entry k rest
  end.

(** [d.get(k)] on a dict *)
Definition dict_get (k : string) (entries : list (string * json)) : json :=
  match lookup_entry k entries with
  | Some v => v
  | None => JNull
  end.

(** The entries of [v] for [v.get(..)]: [AttributeError] when [v] is not
    a dict. *)
Definition as_dict (v : json) : result (list (string * json)) :=
  match v with
  | JDict entries => Ok entries
  | _ => Raise AttributeError
  end.

(** [v.get(k)] *)
Definition py_get (v : json) (k : string) : result json :=
  entries ← as_dict v; Ok (dict_get k entries).

(** [v.get(k, default)] *)
Definition py_get_default (v : json) (k : string) (default : json) : result json :=
  entries ← as_dict v;
  Ok (match lookup_entry k entries with Some x => x | None => default end).

(** *** [str.strip()] on UTF-8 text *)

Definition bytes_to_string (bytes : list nat) : string :=
  string_of_list_ascii (map ascii_of_nat bytes).

(** The encodings of the characters for which [str.isspace()] holds. *)
Definition WHITESPACE : list string :=
  map bytes_to_string
    ([ [9%nat]; [10%nat]; [11%nat]; [12%nat]; [13%nat];
       [28%nat]; [29%nat]; [30%nat]; [31%nat]; [32%nat];
       [194; 133]%nat; [194; 160]%nat; [225; 154; 128]%nat ]
     ++ map (fun b => [226; 128; b]%nat) (seq 128 11)
     ++ [ [226; 128; 168]%nat; [226; 128; 169]%nat; [226; 128; 175]%nat;
          [226; 129; 159]%nat; [227; 128; 128]%nat ]).

Fixpoint drop_prefix (p s : string) : option string :=
  match p, s with
  | EmptyString, _ => Some s
  | String a p', String b s' => if Ascii.eqb a b then drop_prefix p' s' else None
  | String _ _, EmptyString => None
  end.

Fixpoint drop_first_of (pats : list string) (s : string) : option string :=
  match pats with
  | [] => None
  | p :: rest =>
      match drop_prefix p s with
      | Some s' => Some s'
      | None => drop_first_of rest s
      end
  end.

Fixpoint lstrip_with (pats : list string) (fuel : nat) (s : string) : string :=
  match fuel with
  | O => s
  | S fuel' =>
      match drop_first_of pats s with
      | Some s' => lstrip_with pats fuel' s'
      | None => s
      end
  end.

Definition rev_string (s : string) : string :=
  string_of_list_ascii (rev (list_ascii_of_string s)).

Definition lstrip (s : string) : string :=
  lstrip_with WHITESPACE (String.length s) s.

Definition rstrip (s : string) : string :=
  rev_string
    (lstrip_with (map rev_string WHITESPACE) (String.length s) (rev_string s)).

Definition strip (s : string) : string := rstrip (lstrip s).

(** A cell that [to_row] copies as it is: the row type holds text only. *)
Definition text_cell (v : json) : result string :=
  match v with
  | JStr s => Ok s
  | _ => Raise (Unmodelled "a cell that is not text")
  end.

Section Normalizer.
(** [int(s)] on text; [None] when it raises [ValueError]. *)
Variable int_of_text : string -> option Z.

(** [int(v)]; [None] when it raises *)
Definition py_int (v : json) : option Z :=
  match v with
  | JInt z => Some z
  | JBool b => Some (if b then 1 else 0)
  | JFloat (Some q) => Some (Z.quot (Qnum q) (Zpos (Qden q)))
  | JFloat None => None
  | JStr s => int_of_text s
  | JNull | JList _ | JDict _ => None
  end.

Definition to_row (item : json) : result row :=
  attr ← py_get_default item "attributes" (JDict []);
  attr ← as_dict attr;
  let get := fun k => dict_get k attr in
  let run_at := py_or (py_or (py_or (get "created-at") (get "created_at"))
                         (get "run_at")) (JStr "") in
  let run_id := py_or (py_or (get "run-id") (get "run_id")) (JStr "") in
  title ← match py_or (get "title") (JStr "") with
          | JStr s => Ok (strip s)
          | _ => Raise AttributeError
          end;
  let status := py_or (get "status") (JStr "") in
  let retries := py_or (get "retries") (JInt 0) in
  let duration := py_or (py_or (py_or (get "run-time") (get "duration_ms"))
                           (get "duration")) (JStr "") in
  let retries := match py_int retries with Some n => n | None => 0 end in
  let duration := match duration with
                  | JStr "" => None
                  | _ => py_int duration
                  end in
  run_at_text ← text_cell run_at;
  run_id_text ← text_cell (py_or run_id run_at);
  status_text ← text_cell status;
  Ok {| run_at := run_at_text; run_id := run_id_text; title := title;
        status := status_text; retries := retries; duration_ms := duration;
        trend_last5 := ""; is_flaky := ""; reasons := "" |}.
End Normalizer.

(** ** The script (lines 23-50 and 156-169) *)

(** The files, by path, and what was printed. *)
Record world := mk_world {
  files : gmap string string;
  stdout : list string
}.

Definition print (w : world) (line : string) : world :=
  {| files := files w; stdout := stdout w ++ [line] |}.

Definition wrap_attributes (t : json) : json := JDict [("attributes", t)].

Definition NO_ITEMS_ARRAY : string :=
  "[ERROR] Could not find items array. Expected 'data' or 'tests'.".

Definition NO_TEST_ITEMS : string := "[ERROR] No test items found to append.".

Definition parse_items (doc : json) : result (list json) :=
  match doc with
  | JDict entries =>
      match dict_get "data" entries with
      | JList items => Ok items
      | _ =>
          match dict_get "tests" entries with
          | JList tests => Ok (map wrap_attributes tests)
          | _ => Raise (SystemExit NO_ITEMS_ARRAY)
          end
      end
  | JList items => Ok (map wrap_attributes items)
  | _ => Raise (SystemExit NO_ITEMS_ARRAY)
  end.

Section Script.
(** [bytes.decode("utf-8")]; [None] for [UnicodeDecodeError]. *)
Variable decode_utf8 : string -> option string.
(** [json.loads]; the text of the [JSONDecodeError] on the right. *)
Variable json_loads : string -> json + string.
Variable int_of_text : string -> option Z.
(** [csv.DictReader] over the text of the ledger, as rows. *)
Variable csv_read : string -> result (list row).
(** The text [csv.DictWriter] writes for the header and the rows. *)
Variable csv_write : list row -> string.
(** The exception [writerow] raises on a row, when it does: a text that
    has no UTF-8 encoding is one reason. *)
Variable writerow_error : row -> option exn.
(** [os.makedirs] of the directory and [open(path, "w")] succeed. *)
Variable can_write : string -> bool.
(** The docstring of the module. *)
Variable DOC : string.
(** The scoring engine. *)
Variable engine : list row -> result (list row).

Definition load_json (w : world) (path : string) : result json :=
  match files w !! path with
  | None => Raise OSError
  | Some data =>
      match decode_utf8 data with
      | None => Raise (SystemExit ("[ERROR] File is not UTF-8 JSON: " +:+ path))
      | Some text =>
          match json_loads text with
          | inl doc => Ok doc
          | inr e => Raise (SystemExit ("[ERROR] Not valid JSON: " +:+ e))
          end
      end
  end.

Definition read_existing_csv (w : world) (path : string) : result (list row) :=
  match files w !! path with
  | Some text => csv_read text
  | None => Ok []
  end.

(** The rows that [writerow] writes, up to the first one on which it
    raises. *)
Fixpoint rows_written (rows : list row) : list row * result unit :=
  match rows with
  | [] => ([], Ok tt)
  | r :: rest =>
      match writerow_error r with
      | Some e => ([], Raise e)
      | None => let '(written, res) := rows_written rest in (r :: written, res)
      end
  end.

(** [open(path, "w")] empties the file, then the header and the rows are
    written one by one: what is written before a row fails stays in the
    file. *)
Definition write_full_csv (w : world) (path : string) (rows : list row)
  : world * result unit :=
  if can_write path then
    let '(written, res) := rows_written rows in
    ({| files := <[path := csv_write written]> (files w); stdout := stdout w |},
     res)
  else (w, Raise OSError).

(** [[to_row(it) for it in items if it.get("attributes")]] *)
Fixpoint new_rows_of (items : list json) : result (list row) :=
  match items with
  | [] => Ok []
  | it :: rest =>
      attributes ← py_get it "attributes";
      if truthy attributes
      then (r ← to_row int_of_text it; rows ← new_rows_of rest; Ok (r :: rows))
      else new_rows_of rest
  end.

(** Lines 161-167: the rows handed to [write_full_csv]. *)
Definition merged_rows (w : world) (in_json out_csv : string) : result (list row) :=
  doc ← load_json w in_json;
  items ← parse_items doc;
  new_rows ← new_rows_of items;
  match new_rows with
  | [] => Raise (SystemExit NO_TEST_ITEMS)
  | _ =>
      existing ← read_existing_csv w out_csv;
      engine (existing ++ new_rows)
  end.

Definition main_with (argv : list string) (w : world) : world * result unit :=
  match argv with
  | [_; in_json; out_csv] =>
      match merged_rows w in_json out_csv with
      | Raise e => (w, Raise e)
      | Ok merged =>
          match write_full_csv w out_csv merged with
          | (w', Raise e) => (w', Raise e)
          | (w', Ok _) =>
              (print w' ("[OK] Updated CSV: " +:+ out_csv +:+ "  (rows="
                         +:+ pretty (length merged) +:+ ")"),
               Ok tt)
          end
      end
  | _ => (print w DOC, Raise (SystemExit "1"))
  end.

(** The input of the script cannot be turned into new rows. *)
Inductive fatal_input (w : world) (in_json : string) : Prop :=
  | Unreadable :
      files w !! in_json = None -> fatal_input w in_json
  | Not_utf8 data :
      files w !! in_json = Some data -> decode_utf8 data = None ->
      fatal_input w in_json
  | Not_json data text e :
      files w !! in_json = Some data -> decode_utf8 data = Some text ->
      json_loads text = inr e -> fatal_input w in_json
  | No_collection doc e :
      load_json w in_json = Ok doc -> parse_items doc = Raise e ->
      fatal_input w in_json
  | No_new_rows doc items :
      load_json w in_json = Ok doc -> parse_items doc = Ok items ->
      new_rows_of items = Ok [] -> fatal_input w in_json.
End Script.

(** [main], with the engine of the script. *)
Definition main (decode_utf8 : string -> option string)
    (json_loads : string -> json + string) (int_of_text : string -> option Z)
    (csv_read : string -> result (list row)) (csv_write : list row -> string)
    (writerow_error : row -> option exn)
    (can_write : string -> bool) (DOC : string)
    (fromisoformat : string -> option datetime)
    (argv : list string) (w : world) : world * result unit :=
  main_with decode_utf8 json_loads int_of_text csv_read csv_write
    writerow_error can_write DOC (compute_trend_and_flaky fromisoformat) argv w.

(** [it.get("attributes")] is truthy *)
Definition has_attributes (it : json) : bool :=
  match it with
  | JDict entries => truthy (dict_get "attributes" entries)
  | _ => false
  end.

(** ** Sample readings of the library functions for the scenarios *)

(** [int(s)] on a plain decimal: an optional sign and ASCII digits. *)
Fixpoint digits_value (acc : Z) (s : string) : option Z :=
  match s with
  | EmptyString => Some acc
  | String c rest => d ← digit c; digits_value (10 * acc + d) rest
  end.

Definition int_of_decimal (s : string) : option Z :=
  match s with
  | EmptyString => None
  | String "-" (String c rest) => Z.opp <$> digits_value 0 (String c rest)
  | String "+" (String c rest) => digits_value 0 (String c rest)
  | _ => digits_value 0 s
  end.

(** An export with one item that has a status and no title. *)
Definition scenario_untitled_doc : json :=
  JDict [("data",
          JList [JDict [("attributes",
                         JDict [("status", JStr "passed");
                                ("created-at", JStr "2024-03-01T10:00:00Z")])]])].

(** An export without items. *)
Definition scenario_empty_doc : json := JDict [("data", JList [])].

(** A world where the file ["run.json"] holds [scenario_empty_doc], and a
    ledger exists. *)
Definition scenario_world : world :=
  {| files := <["run.json" := "run"]> (<["out/ledger.csv" := "ledger"]> ∅);
     stdout := [] |}.

Definition sample_loads (doc : json) (text : string) : json + string := inl doc.

Definition sample_csv_read (text : string) : result (list row) := Ok [].

Definition sample_csv_write (rows : list row) : string :=
  join "; " (map title rows).

(** [writerow] when every text has an encoding. *)
Definition writes_all (r : row) : option exn := None.

(** U+D800, a surrogate, which [json.loads] reads from an escape and
    UTF-8 cannot encode (the three bytes are those of "surrogatepass"). *)
Definition SURROGATE : string := bytes_to_string [237; 160; 128]%nat.

(** [writerow] raising on a title that holds the surrogate. *)
Definition rejects_surrogate (r : row) : option exn :=
  if contains SURROGATE (title r) then Some UnicodeEncodeError else None.

(** An export with two titled items, the second title holding a
    surrogate. *)
Definition scenario_surrogate_doc : json :=
  JDict [("data",
          JList [JDict [("attributes",
                         JDict [("title", JStr "login");
                                ("status", JStr "passed");
                                ("created-at", JStr "2024-03-01T10:00:00Z")])];
                 JDict [("attributes",
                         JDict [("title", JStr ("logout" +:+ SURROGATE));
                                ("status", JStr "failed");
                                ("created-at", JStr "2024-03-02T10:00:00Z")])]])].

(** The dict [to_row] reads the cells from: [item.get("attributes", {})]
    when it is one. *)
Definition attributes_of (item : json) : list (string * json) :=
  match item with
  | JDict entries =>
      match lookup_entry "attributes" entries with
      | Some (JDict attr) => attr
      | _ => []
      end
  | _ => []
  end.

(** ** Selections of rows *)

(** The rows of title [t]. *)
Definition has_title (t : string) (r : row) : bool := String.eqb (title r) t.

(** The points of a reason. *)
Definition points (reason : string) : Z :=
  if String.eqb reason REASON_R1 then 40
  else if String.eqb reason REASON_R3 then 20
  else if String.eqb reason REASON_R4 then 20
  else 0.

(** The status reads as a failure. *)
Definition is_failed (r : row) : bool := String.eqb (lower (status r)) "failed".

(** ** Cells and whitespace *)

(** A value that [to_row] can copy into a text cell: text, or a falsy
    value, which [or] replaces by the empty text. *)
Definition text_or_falsy (v : json) : Prop :=
  truthy v = false \/ exists s, v = JStr s.

(** The keys of the cells that [to_row] copies or strips. *)
Definition TEXT_KEYS : list string :=
  ["created-at"; "created_at"; "run_at"; "run-id"; "run_id"; "title"; "status"].

(** [s.startswith(p)] and [s.endswith(p)] *)
Definition starts_with (p s : string) : bool :=
  match drop_prefix p s with Some _ => true | None => false end.

Definition ends_with (p s : string) : bool :=
  starts_with (rev_string p) (rev_string s).

(** ** [scripts/merge_pages.py]

    The pages are the documents [json.load] reads from the files of the
    glob, in sorted order; the script writes the document it builds with
    [json.dump]. *)

(** The code points of a text, each as a text: a byte starts a code point
    unless the bytes after it start with a continuation byte, which it
    then leads or continues. *)
Fixpoint code_points (s : string) : list string :=
  match s with
  | EmptyString => []
  | String c rest =>
      match code_points rest with
      | (String c' p) :: ps =>
          if is_continuation c' then String c (String c' p) :: ps
          else String c "" :: String c' p :: ps
      | l => String c "" :: l
      end
  end.

(** The items [list.extend(v)] adds: those of a list, the keys of a dict,
    the characters of a text; other values are not iterable. *)
Definition py_iter (v : json) : result (list json) :=
  match v with
  | JList items => Ok items
  | JDict entries => Ok (map (fun kv => JStr (fst kv)) entries)
  | JStr s => Ok (map JStr (code_points s))
  | JNull | JBool _ | JInt _ | JFloat _ => Raise TypeError
  end.

(** [j.get('data', j.get('tests', []))] *)
Definition page_items (j : json) : result json :=
  entries ← as_dict j;
  let tests := match lookup_entry "tests" entries with
               | Some v => v
               | None => JList []
               end in
  Ok (match lookup_entry "data" entries with
      | Some v => v
      | None => tests
      end).

(** The loop of lines 11-14: [data] is [out['data']]. *)
Fixpoint merge_loop (data : list json) (pages : list json) : result (list json) :=
  match pages with
  | [] => Ok data
  | j :: rest =>
      v ← page_items j;
      items ← py_iter v;
      merge_loop (data ++ items) rest
  end.

(** The document the script dumps. *)
Definition merge_pages (pages : list json) : result json :=
  data ← merge_loop [] pages;
  Ok (JDict [("data", JList data)]).

(** A page holds its items under [data], as a list. *)
Definition data_page (j : json) (items : list json) : Prop :=
  exists entries, j = JDict entries /\ lookup_entry "data" entries = Some (JList items).

(** A test object as the export has it under [tests]: a dict without an
    [attributes] key. *)
Definition bare_test (t : json) : Prop :=
  exists entries, t = JDict entries /\ lookup_entry "attributes" entries = None.

(** ** A sample codec for the ledger

    The rows are numbered (they are countable) and the number is written
    in binary; reading is the inverse.  It stands for the csv module in
    the scenarios that read a ledger back. *)
#[global] Instance row_eq_dec : EqDecision row.
Proof. solve_decision. Defined.

Definition row_cells (r : row)
  : string * string * string * string * Z * option Z * string * string * string :=
  (run_at r, run_id r, title r, status r, retries r, duration_ms r,
   trend_last5 r, is_flaky r, reasons r).

Definition cells_row
    (c : string * string * string * string * Z * option Z * string * string * string)
  : row :=
  let '(a, b, c, d, e, f, g, h, i) := c in mk_row a b c d e f g h i.

#[global] Instance row_countable : Countable row.
Proof.
  apply (inj_countable' row_cells cells_row). intros []. reflexivity.
Defined.

Fixpoint bits_of_pos (p : positive) : string :=
  match p with
  | xH => ""
  | xO q => String "0" (bits_of_pos q)
  | xI q => String "1" (bits_of_pos q)
  end.

Fixpoint pos_of_bits (s : string) : positive :=
  match s with
  | EmptyString => xH
  | String c rest =>
      if Ascii.eqb c "1" then xI (pos_of_bits rest) else xO (pos_of_bits rest)
  end.

Definition codec_write (rows : list row) : string := bits_of_pos (encode rows).

Definition codec_read (text : string) : result (list row) :=
  match decode (pos_of_bits text) with
  | Some rows => Ok rows
  | None => Raise (Unmodelled "not a ledger")
  end.

(** A world with the export and no ledger yet. *)
Definition scenario_fresh_world : world :=
  {| files := <["run.json" := "run"]> ∅; stdout := [] |}.

(** The export of [scenario_untitled_doc] as a row, and scored alone. *)
Definition scenario_untitled_row : row :=
  new_row "2024-03-01T10:00:00Z" "" "passed" 0 None.

Definition scenario_untitled_scored : row :=
  score_row [] scenario_untitled_row.

(** The line the script prints at the end. *)
Definition updated_line (out_csv : string) (merged : list row) : string :=
  "[OK] Updated CSV: " +:+ out_csv +:+ "  (rows="
  +:+ pretty (length merged) +:+ ")".

(** The world after a first run on the fresh world, and after a second
    one. *)
Definition scenario_after_first_run : world :=
  {| files := <["out/ledger.csv" := codec_write [scenario_untitled_scored]]>
                (files scenario_fresh_world);
     stdout := [updated_line "out/ledger.csv" [scenario_untitled_scored]] |}.

Definition scenario_twice_scored : list row :=
  [ scenario_untitled_scored;
    score_row [scenario_untitled_scored] scenario_untitled_row ].

Definition scenario_after_second_run : world :=
  {| files := <["out/ledger.csv" := codec_write scenario_twice_scored]>
                (files scenario_after_first_run);
     stdout := stdout scenario_after_first_run
               ++ [updated_line "out/ledger.csv" scenario_twice_scored] |}.

(** A page holds its items under [tests] and has no [data] key. *)
Definition tests_page (j : json) (tests : list json) : Prop :=
  exists entries,
    j = JDict entries
    /\ lookup_entry "data" entries = None
    /\ lookup_entry "tests" entries = Some (JList tests).



(** Title "T": three runs with durations beyond the range of the
    floats. *)
Definition scenario_overflow : list row :=
  [ new_row "2024-03-01T10:00:00Z" "T" "passed" 0 (Some (10 ^ 400));
    new_row "2024-03-02T10:00:00Z" "T" "passed" 0 (Some (10 ^ 400));
    new_row "2024-03-03T10:00:00Z" "T" "passed" 0 (Some (10 ^ 400)) ].

(** * Properties *)

(** ** Lists and text *)

Lemma length_last_n {A} (n : nat) (l : list A) :
  length (last_n n l) = Nat.min n (length l).
Proof. unfold last_n. rewrite length_drop. lia. Qed.

Lemma last_n_all {A} (n : nat) (l : list A) :
  (length l <= n)%nat -> last_n n l = l.
Proof.
  intros Hle. unfold last_n.
  replace (length l - n)%nat with O by lia. reflexivity.
Qed.

Lemma last_n_app {A} (n : nat) (l1 l2 : list A) :
  (n <= length l2)%nat -> last_n n (l1 ++ l2) = last_n n l2.
Proof.
  intros Hle. unfold last_n. rewrite length_app.
  replace (length l1 + length l2 - n)%nat
    with (length l1 + (length l2 - n))%nat by lia.
  rewrite drop_app_add. reflexivity.
Qed.

Lemma last_n_idem {A} (n : nat) (l : list A) :
  last_n n (last_n n l) = last_n n l.
Proof. apply last_n_all. rewrite length_last_n. lia. Qed.

Lemma last_n_map {A B} (f : A -> B) (n : nat) (l : list A) :
  last_n n (map f l) = map f (last_n n l).
Proof. unfold last_n. rewrite length_map. symmetry. apply fmap_drop. Qed.

Lemma py_len_app (s1 s2 : string) :
  py_len (s1 +:+ s2) = (py_len s1 + py_len s2)%nat.
Proof. induction s1 as [|c s1 IH]; simpl; [reflexivity | rewrite IH; lia]. Qed.

Lemma join_empty_cons (p : string) (parts : list string) :
  join "" (p :: parts) = p +:+ join "" parts.
Proof.
  destruct parts as [|q parts]; simpl.
  - induction p as [|c p IH]; [reflexivity|].
    change (String c p +:+ "") with (String c (p +:+ "")). congruence.
  - reflexivity.
Qed.

Lemma status_symbol_cases (s : string) :
  status_symbol s = PASS_GLYPH \/ status_symbol s = FAIL_GLYPH
  \/ status_symbol s = SKIP_GLYPH.
Proof.
  unfold status_symbol.
  destruct (String.eqb (lower s) "passed"); [auto|].
  destruct (String.eqb (lower s) "failed"); auto.
Qed.

Lemma py_len_status_symbol (s : string) : py_len (status_symbol s) = 1%nat.
Proof.
  destruct (status_symbol_cases s) as [H | [H | H]]; rewrite H; reflexivity.
Qed.

(** A trend is made of glyphs. *)
Definition glyphs (syms : list string) : Prop :=
  Forall (fun g => py_len g = 1%nat) syms.

Lemma py_len_join_glyphs (syms : list string) :
  glyphs syms -> py_len (join "" syms) = length syms.
Proof.
  induction 1 as [|g syms Hg _ IH]; [reflexivity|].
  rewrite join_empty_cons, py_len_app, Hg, IH. reflexivity.
Qed.

Lemma trend_syms_glyphs (history : list row) (r : row) :
  glyphs (trend_syms history r).
Proof.
  unfold trend_syms, glyphs, last_n.
  apply Forall_drop, Forall_app. split.
  - apply Forall_drop, Forall_forall. intros g Hg.
    apply list_elem_of_In, in_map_iff in Hg. destruct Hg as [h [<- _]].
    apply py_len_status_symbol.
  - repeat constructor. apply py_len_status_symbol.
Qed.

Lemma length_trend_syms (history : list row) (r : row) :
  length (trend_syms history r) = Nat.min 5 (length history + 1).
Proof.
  unfold trend_syms.
  rewrite length_last_n, length_app, length_last_n, length_map.
  change (length [status_symbol (status r)]) with 1%nat. lia.
Qed.

(** ** The three rules *)

Definition b2z (b : bool) : Z := if b then 1 else 0.

Lemma rules_spec (history : list row) (r : row) :
  rules history r =
    ((if rule_R1 (trend_syms history r) then [REASON_R1] else [])
     ++ (if rule_R3 r then [REASON_R3] else [])
     ++ (if rule_R4 (durations history r) then [REASON_R4] else []),
     40 * b2z (rule_R1 (trend_syms history r)) + 20 * b2z (rule_R3 r)
     + 20 * b2z (rule_R4 (durations history r))).
Proof.
  unfold rules.
  destruct (rule_R1 _), (rule_R3 _), (rule_R4 _); reflexivity.
Qed.

Lemma mem_R1_reasons (history : list row) (r : row) :
  mem_str REASON_R1 (reasons_of history r) = rule_R1 (trend_syms history r).
Proof.
  unfold reasons_of. rewrite rules_spec. simpl.
  destruct (rule_R1 _), (rule_R3 _), (rule_R4 _); reflexivity.
Qed.

Lemma score_row_fields (history : list row) (r : row) :
  trend_last5 (score_row history r) = join "" (trend_syms history r)
  /\ is_flaky (score_row history r) =
       (if Z.leb 40 (score_of history r)
           || mem_str REASON_R1 (reasons_of history r)
        then "yes" else "no")
  /\ reasons (score_row history r) = join "; " (reasons_of history r).
Proof.
  unfold score_row, score_of, reasons_of.
  destruct (rules history r) as [rs sc]. simpl. auto.
Qed.

Lemma score_row_frame (history : list row) (r : row) :
  run_at (score_row history r) = run_at r
  /\ run_id (score_row history r) = run_id r
  /\ title (score_row history r) = title r
  /\ status (score_row history r) = status r
  /\ retries (score_row history r) = retries r
  /\ duration_ms (score_row history r) = duration_ms r.
Proof.
  unfold score_row. destruct (rules history r). simpl. auto 10.
Qed.

Lemma is_flaky_verdict (history : list row) (r : row) :
  is_flaky (score_row history r) =
    if Z.leb 40 (score_of history r) || rule_R1 (trend_syms history r)
    then "yes" else "no".
Proof.
  destruct (score_row_fields history r) as (_ & H & _).
  rewrite H, mem_R1_reasons. reflexivity.
Qed.

(** ** Stable sorting *)

Section SortTheory.
Context {A K : Type}.
Variable ltb : K -> K -> bool.
Variable key : A -> K.

Hypothesis ltb_irrefl : forall a, ltb a a = false.
Hypothesis ltb_trans :
  forall a b c, ltb a b = true -> ltb b c = true -> ltb a c = true.
Hypothesis ltb_ntrans :
  forall a b c, ltb a b = false -> ltb b c = false -> ltb a c = false.

Local Abbreviation not_after := (not_after ltb key).
Local Abbreviation sorted_by := (sorted_by ltb key).

Lemma ltb_asym a b : ltb a b = true -> ltb b a = false.
Proof.
  intros Hab. destruct (ltb b a) eqn:Hba; [|reflexivity].
  pose proof (ltb_trans _ _ _ Hab Hba) as Haa.
  rewrite ltb_irrefl in Haa. discriminate.
Qed.

Lemma insert_pure_perm x l : Permutation (insert_pure ltb key x l) (x :: l).
Proof.
  induction l as [|y l IH]; simpl; [reflexivity|].
  destruct (ltb (key y) (key x)); [|reflexivity].
  rewrite IH. apply perm_swap.
Qed.

Lemma sort_pure_perm l : Permutation (sort_pure ltb key l) l.
Proof.
  induction l as [|x l IH]; simpl; [reflexivity|].
  rewrite insert_pure_perm. constructor. exact IH.
Qed.

Lemma insert_pure_sorted x l :
  sorted_by l -> sorted_by (insert_pure ltb key x l).
Proof.
  unfold sorted_by. induction 1 as [|y l Hl IH Hy]; simpl.
  - repeat constructor.
  - destruct (ltb (key y) (key x)) eqn:Hyx.
    + constructor; [exact IH|].
      rewrite (insert_pure_perm x l). constructor; [|exact Hy].
      apply ltb_asym. exact Hyx.
    + constructor; [constructor; assumption|].
      constructor; [exact Hyx|].
      eapply Forall_impl; [exact Hy|]. intros z Hz.
      unfold not_after in *. eapply ltb_ntrans; eassumption.
Qed.

Lemma sort_pure_sorted l : sorted_by (sort_pure ltb key l).
Proof.
  induction l as [|x l IH]; simpl; [constructor|].
  apply insert_pure_sorted. exact IH.
Qed.

Lemma insert_pure_front x l :
  Forall (not_after x) l -> insert_pure ltb key x l = x :: l.
Proof.
  destruct 1 as [|y l Hy _]; simpl; [reflexivity|].
  unfold not_after in Hy. rewrite Hy. reflexivity.
Qed.

(** A sorted list is left as it is. *)
Lemma sort_pure_id l : sorted_by l -> sort_pure ltb key l = l.
Proof.
  induction 1 as [|x l Hl IH Hx]; simpl; [reflexivity|].
  rewrite IH. apply insert_pure_front. exact Hx.
Qed.

(** Removing rows commutes with sorting: the rows that stay keep their
    order. *)
Lemma filter_insert_pure (p : A -> bool) x l :
  sorted_by l ->
  List.filter p (insert_pure ltb key x l) =
    if p x then insert_pure ltb key x (List.filter p l) else List.filter p l.
Proof.
  induction 1 as [|y l Hl IH Hy]; simpl.
  - destruct (p x); reflexivity.
  - destruct (ltb (key y) (key x)) eqn:Hyx; simpl.
    + rewrite IH. destruct (p y), (p x); simpl; rewrite ?Hyx; reflexivity.
    + destruct (p x) eqn:Hpx; [|reflexivity].
      symmetry. apply insert_pure_front.
      assert (Hall : Forall (not_after x) (y :: l)).
      { constructor; [exact Hyx|].
        eapply Forall_impl; [exact Hy|]. intros z Hz.
        unfold not_after in *. eapply ltb_ntrans; eassumption. }
      apply Forall_forall. intros z Hz.
      rewrite Forall_forall in Hall. apply Hall.
      apply list_elem_of_In. apply list_elem_of_In in Hz.
      change (In z (List.filter p (y :: l))) in Hz.
      apply filter_In in Hz. tauto.
Qed.

Lemma filter_sort_pure (p : A -> bool) l :
  List.filter p (sort_pure ltb key l) = sort_pure ltb key (List.filter p l).
Proof.
  induction l as [|x l IH]; simpl; [reflexivity|].
  rewrite filter_insert_pure by apply sort_pure_sorted.
  rewrite IH. destruct (p x); reflexivity.
Qed.

(** Two insertions of rows with different ranks commute. *)
Lemma insert_pure_comm x y l :
  ltb (key x) (key y) = true ->
  insert_pure ltb key y (insert_pure ltb key x l) =
  insert_pure ltb key x (insert_pure ltb key y l).
Proof.
  intros Hxy. pose proof (ltb_asym _ _ Hxy) as Hyx.
  induction l as [|z l IH]; simpl.
  - rewrite Hxy, Hyx. reflexivity.
  - destruct (ltb (key z) (key x)) eqn:Hzx.
    + rewrite (ltb_trans _ _ _ Hzx Hxy). simpl.
      rewrite Hzx, (ltb_trans _ _ _ Hzx Hxy), IH. reflexivity.
    + destruct (ltb (key z) (key y)) eqn:Hzy; simpl.
      * rewrite Hxy, Hzx, Hzy. reflexivity.
      * rewrite Hxy, Hzy, Hyx. reflexivity.
Qed.

(** A row can be moved to the front of the input when no row it passes
    has its rank. *)
Lemma sort_pure_move l1 x l2 :
  Forall (fun y => ltb (key y) (key x) = true \/ ltb (key x) (key y) = true) l1 ->
  sort_pure ltb key (l1 ++ x :: l2) =
  insert_pure ltb key x (sort_pure ltb key (l1 ++ l2)).
Proof.
  induction 1 as [|y l1 Hy _ IH]; simpl; [reflexivity|].
  rewrite IH. destruct Hy as [Hy | Hy].
  - symmetry. apply insert_pure_comm. exact Hy.
  - apply insert_pure_comm. exact Hy.
Qed.

Lemma insert_pure_split x l :
  exists l1 l2, l = l1 ++ l2 /\ insert_pure ltb key x l = l1 ++ x :: l2
                /\ Forall (fun y => ltb (key y) (key x) = true) l1.
Proof.
  induction l as [|y l IH]; simpl.
  - exists [], []. auto.
  - destruct (ltb (key y) (key x)) eqn:Hyx.
    + destruct IH as (l1 & l2 & -> & -> & Hl1).
      exists (y :: l1), l2. auto.
    + exists [], (y :: l). auto.
Qed.
End SortTheory.

(** ** The sort that can raise, and the one that cannot *)

Section SortResult.
Context {A K : Type}.
Variable lt : K -> K -> result bool.
Variable ltb : K -> K -> bool.
Variable key : A -> K.

Lemma sort_insert_pure x l :
  (forall y, In y l -> lt (key y) (key x) = Ok (ltb (key y) (key x))) ->
  sort_insert lt key x l = Ok (insert_pure ltb key x l).
Proof.
  induction l as [|y l IH]; intros Hcmp; simpl; [reflexivity|].
  rewrite (Hcmp y) by (left; reflexivity). simpl.
  destruct (ltb (key y) (key x)); [|reflexivity].
  rewrite IH by (intros z Hz; apply Hcmp; right; exact Hz). reflexivity.
Qed.

Lemma list_sort_pure l :
  (forall x y, In x l -> In y l -> lt (key x) (key y) = Ok (ltb (key x) (key y))) ->
  list_sort lt key l = Ok (sort_pure ltb key l).
Proof.
  induction l as [|x l IH]; intros Hcmp; simpl; [reflexivity|].
  rewrite IH by (intros y z Hy Hz; apply Hcmp; right; assumption). simpl.
  apply sort_insert_pure. intros y Hy. apply Hcmp; [right|left; reflexivity].
  apply (Permutation_in _ (sort_pure_perm ltb key l)). exact Hy.
Qed.

Hypothesis lt_ltb : forall a b c, lt a b = Ok c -> ltb a b = c.

Lemma sort_insert_Ok x l s :
  sort_insert lt key x l = Ok s -> s = insert_pure ltb key x l.
Proof.
  revert s. induction l as [|y l IH]; intros s; simpl.
  - intros [= <-]. reflexivity.
  - destruct (lt (key y) (key x)) as [b|e] eqn:Hlt; simpl; [|discriminate].
    rewrite (lt_ltb _ _ _ Hlt). destruct b.
    + destruct (sort_insert lt key x l) as [s'|e]; simpl; [|discriminate].
      intros [= <-]. rewrite (IH s' eq_refl). reflexivity.
    + intros [= <-]. reflexivity.
Qed.

Lemma list_sort_Ok l s :
  list_sort lt key l = Ok s -> s = sort_pure ltb key l.
Proof.
  revert s. induction l as [|x l IH]; intros s; simpl.
  - intros [= <-]. reflexivity.
  - destruct (list_sort lt key l) as [s'|e]; simpl; [|discriminate].
    intros Hs. rewrite <- (IH s' eq_refl). apply sort_insert_Ok. exact Hs.
Qed.

(** The head of the sorted rows is compared with the row that comes in. *)
Lemma sort_insert_head x y l s :
  sort_insert lt key x (y :: l) = Ok s -> exists b, lt (key y) (key x) = Ok b.
Proof.
  simpl. destruct (lt (key y) (key x)) as [b|e]; simpl; [eauto|discriminate].
Qed.
End SortResult.

(** ** The order of the keys *)

Lemma str_ltb_lt (a b : string) : String.ltb a b = true <-> String_as_OT.lt a b.
Proof.
  unfold String.ltb, String_as_OT.lt.
  change (String_as_OT.compare a b) with (String.compare a b).
  destruct (String.compare a b); split; congruence.
Qed.

Lemma str_ltb_irrefl (a : string) : String.ltb a a = false.
Proof.
  destruct (String.ltb a a) eqn:H; [|reflexivity].
  apply str_ltb_lt in H.
  exfalso. exact (StrictOrder_Irreflexive (R := String_as_OT.lt) a H).
Qed.

Lemma str_ltb_trans (a b c : string) :
  String.ltb a b = true -> String.ltb b c = true -> String.ltb a c = true.
Proof.
  rewrite !str_ltb_lt. apply (StrictOrder_Transitive (R := String_as_OT.lt)).
Qed.

Lemma str_ltb_total (a b : string) :
  String.ltb a b = false -> String.ltb b a = false -> a = b.
Proof.
  intros Hab Hba.
  destruct (String_as_OT.compare_spec a b) as [Heq | Hlt | Hgt].
  - exact Heq.
  - apply str_ltb_lt in Hlt. congruence.
  - apply str_ltb_lt in Hgt. congruence.
Qed.

Lemma dt_ltb_irrefl (a : datetime) : dt_ltb a a = false.
Proof. destruct a; simpl; lia. Qed.

Lemma dt_ltb_trans (a b c : datetime) :
  dt_ltb a b = true -> dt_ltb b c = true -> dt_ltb a c = true.
Proof. destruct a, b, c; simpl; lia. Qed.

Lemma dt_ltb_ntrans (a b c : datetime) :
  dt_ltb a b = false -> dt_ltb b c = false -> dt_ltb a c = false.
Proof. destruct a, b, c; simpl; lia. Qed.

Lemma key_ltb_irrefl (a : string * datetime) : key_ltb a a = false.
Proof. unfold key_ltb. rewrite String.eqb_refl. apply dt_ltb_irrefl. Qed.

Lemma key_ltb_trans (a b c : string * datetime) :
  key_ltb a b = true -> key_ltb b c = true -> key_ltb a c = true.
Proof.
  destruct a as [ta da], b as [tb db], c as [tc dc]. unfold key_ltb. simpl.
  destruct (String.eqb_spec ta tb) as [Hab|Hab];
    destruct (String.eqb_spec tb tc) as [Hbc|Hbc];
    destruct (String.eqb_spec ta tc) as [Hac|Hac];
    subst; try congruence; auto.
  - apply dt_ltb_trans.
  - intros H1 H2. pose proof (str_ltb_trans _ _ _ H1 H2) as H3.
    rewrite str_ltb_irrefl in H3. discriminate.
  - apply str_ltb_trans.
Qed.

Lemma key_ltb_ntrans (a b c : string * datetime) :
  key_ltb a b = false -> key_ltb b c = false -> key_ltb a c = false.
Proof.
  destruct a as [ta da], b as [tb db], c as [tc dc]. unfold key_ltb. simpl.
  destruct (String.eqb_spec ta tb) as [Hab|Hab];
    destruct (String.eqb_spec tb tc) as [Hbc|Hbc];
    destruct (String.eqb_spec ta tc) as [Hac|Hac];
    subst; try congruence; auto.
  - apply dt_ltb_ntrans.
  - intros H1 H2. exfalso. apply Hbc. symmetry.
    apply str_ltb_total; assumption.
  - intros H1 H2.
    destruct (String.ltb ta tc) eqn:H3; [|reflexivity].
    destruct (String.ltb tb ta) eqn:H4.
    + rewrite (str_ltb_trans _ _ _ H4 H3) in H2. discriminate.
    + exfalso. apply Hab. apply str_ltb_total; assumption.
Qed.

Lemma dt_lt_ltb (a b : datetime) (c : bool) : dt_lt a b = Ok c -> dt_ltb a b = c.
Proof. destruct a, b; simpl; congruence. Qed.

Lemma dt_eqb_ltb (a b : datetime) : dt_eqb a b = true -> dt_ltb a b = false.
Proof. destruct a, b; simpl; try discriminate; lia. Qed.

Lemma key_lt_ltb (a b : string * datetime) (c : bool) :
  key_lt a b = Ok c -> key_ltb a b = c.
Proof.
  unfold key_lt, key_ltb. destruct (String.eqb (fst a) (fst b)); [|congruence].
  destruct (dt_eqb (snd a) (snd b)) eqn:Heq.
  - intros [= <-]. apply dt_eqb_ltb. exact Heq.
  - apply dt_lt_ltb.
Qed.

Lemma dt_lt_same_kind (a b : datetime) :
  is_aware a = is_aware b -> dt_lt a b = Ok (dt_ltb a b).
Proof. destruct a, b; simpl; congruence. Qed.

Lemma dt_lt_Ok_kind (a b : datetime) (c : bool) :
  dt_lt a b = Ok c -> is_aware a = is_aware b.
Proof. destruct a, b; simpl; congruence. Qed.

Lemma key_lt_same_kind (a b : string * datetime) :
  is_aware (snd a) = is_aware (snd b) -> key_lt a b = Ok (key_ltb a b).
Proof.
  intros Hk. unfold key_lt, key_ltb.
  destruct (String.eqb (fst a) (fst b)); [|reflexivity].
  destruct (dt_eqb (snd a) (snd b)) eqn:Heq.
  - rewrite (dt_eqb_ltb _ _ Heq). reflexivity.
  - apply dt_lt_same_kind. exact Hk.
Qed.

(** ** The scoring loop *)

Lemma history_of_app (t : string) (l1 l2 : list row) :
  history_of t (l1 ++ l2) = history_of t l1 ++ history_of t l2.
Proof. apply List.filter_app. Qed.

(** The dict holds, title by title, the rows scored so far. *)
Lemma score_loop_from (grouped : gmap string (list row)) (scored rows : list row) :
  (forall t, default [] (grouped !! t) = history_of t scored) ->
  score_loop grouped rows = score_from scored rows.
Proof.
  revert grouped scored.
  induction rows as [|r rows IH]; intros grouped scored Hg; simpl; [reflexivity|].
  rewrite Hg. f_equal. apply IH. intros t.
  rewrite history_of_app. unfold history_of at 2. simpl.
  destruct (score_row_frame (history_of (title r) scored) r) as (_ & _ & Ht & _).
  rewrite Ht.
  destruct (String.eqb_spec (title r) t) as [<-|Hne].
  - rewrite lookup_insert_eq. reflexivity.
  - rewrite lookup_insert_ne by exact Hne. rewrite Hg.
    symmetry. apply app_nil_r.
Qed.

Lemma score_pass_from (rows : list row) : score_pass rows = score_from [] rows.
Proof. apply score_loop_from. intros t. rewrite lookup_empty. reflexivity. Qed.

Lemma score_from_app (scored l1 l2 : list row) :
  score_from scored (l1 ++ l2) =
  score_from scored l1 ++ score_from (scored ++ score_from scored l1) l2.
Proof.
  revert scored. induction l1 as [|r l1 IH]; intros scored; simpl.
  - rewrite app_nil_r. reflexivity.
  - f_equal. rewrite IH. rewrite <- app_assoc. reflexivity.
Qed.

Lemma length_score_from (scored rows : list row) :
  length (score_from scored rows) = length rows.
Proof.
  revert scored. induction rows as [|r rows IH]; intros scored; simpl;
    [reflexivity | rewrite IH; reflexivity].
Qed.

(** The row at a position of the scoring order is scored against the
    rows of its title that come before it. *)
Lemma score_pass_at (l1 : list row) (r : row) (l2 : list row) :
  score_pass (l1 ++ r :: l2) =
  score_pass l1
  ++ score_row (history_of (title r) (score_pass l1)) r
  :: score_from (score_pass l1
                 ++ [score_row (history_of (title r) (score_pass l1)) r]) l2.
Proof. rewrite !score_pass_from, score_from_app. reflexivity. Qed.

(** *** Only the input cells are read *)

Lemma core_score_row (history : list row) (r : row) :
  core (score_row history r) = core r.
Proof. unfold score_row. destruct (rules history r). reflexivity. Qed.

Lemma core_core (r : row) : core (core r) = core r.
Proof. reflexivity. Qed.

Lemma core_fields (r : row) :
  run_at (core r) = run_at r /\ title (core r) = title r
  /\ status (core r) = status r /\ retries (core r) = retries r
  /\ duration_ms (core r) = duration_ms r.
Proof. unfold core. simpl. auto. Qed.

Lemma same_core_fields (r1 r2 : row) :
  core r1 = core r2 ->
  run_at r1 = run_at r2 /\ run_id r1 = run_id r2 /\ title r1 = title r2
  /\ status r1 = status r2 /\ retries r1 = retries r2
  /\ duration_ms r1 = duration_ms r2.
Proof. unfold core. intros [= -> -> -> -> -> ->]. auto 10. Qed.

Lemma map_core_cons (x y : row) (l1 l2 : list row) :
  map core (x :: l1) = map core (y :: l2) ->
  core x = core y /\ map core l1 = map core l2.
Proof.
  intros H. split.
  - exact (f_equal (fun l => match l with [] => core x | z :: _ => z end) H).
  - exact (f_equal (@tail row) H).
Qed.

Lemma map_core_status (h1 h2 : list row) :
  map core h1 = map core h2 ->
  map (fun h => status_symbol (status h)) h1
  = map (fun h => status_symbol (status h)) h2.
Proof.
  revert h2. induction h1 as [|x h1 IH]; intros [|y h2]; simpl;
    try discriminate; [reflexivity|].
  intros H. apply map_core_cons in H. destruct H as [Hxy Hrest].
  apply same_core_fields in Hxy. destruct Hxy as (_ & _ & _ & -> & _).
  f_equal. apply IH. exact Hrest.
Qed.

Lemma map_core_last_n (n : nat) (h1 h2 : list row) :
  map core h1 = map core h2 -> map core (last_n n h1) = map core (last_n n h2).
Proof. intros H. rewrite <- !last_n_map. rewrite H. reflexivity. Qed.

Lemma known_durations_cons (x : row) (l : list row) :
  known_durations (x :: l) =
  match duration_ms x with
  | Some d => d :: known_durations l
  | None => known_durations l
  end.
Proof. reflexivity. Qed.

Lemma map_core_durations (h1 h2 : list row) :
  map core h1 = map core h2 -> known_durations h1 = known_durations h2.
Proof.
  revert h2. induction h1 as [|x h1 IH]; intros [|y h2];
    try discriminate; [reflexivity|].
  intros H. apply map_core_cons in H. destruct H as [Hxy Hrest].
  apply same_core_fields in Hxy. destruct Hxy as (_ & _ & _ & _ & _ & Hd).
  rewrite !known_durations_cons, Hd, (IH h2 Hrest). reflexivity.
Qed.

Lemma score_row_core (h1 h2 : list row) (r1 r2 : row) :
  map core h1 = map core h2 -> core r1 = core r2 ->
  score_row h1 r1 = score_row h2 r2.
Proof.
  intros Hh Hr.
  pose proof (same_core_fields _ _ Hr) as (Hat & Hid & Ht & Hs & Hre & Hd).
  assert (Hsyms : trend_syms h1 r1 = trend_syms h2 r2).
  { unfold trend_syms. rewrite (map_core_status _ _ Hh), Hs. reflexivity. }
  assert (Hdur : durations h1 r1 = durations h2 r2).
  { unfold durations.
    rewrite (map_core_durations _ _ (map_core_last_n 4 _ _ Hh)), Hd.
    reflexivity. }
  assert (HR3 : rule_R3 r1 = rule_R3 r2).
  { unfold rule_R3. rewrite Hs, Hre. reflexivity. }
  unfold score_row, rules.
  rewrite Hsyms, Hdur, HR3, Hat, Hid, Ht, Hs, Hre, Hd. reflexivity.
Qed.

Lemma map_core_history (t : string) (l1 l2 : list row) :
  map core l1 = map core l2 ->
  map core (history_of t l1) = map core (history_of t l2).
Proof.
  unfold history_of.
  revert l2. induction l1 as [|x l1 IH]; intros [|y l2]; simpl;
    try discriminate; [reflexivity|].
  intros H. apply map_core_cons in H. destruct H as [Hxy Hrest].
  pose proof (same_core_fields _ _ Hxy) as (_ & _ & -> & _).
  destruct (String.eqb (title y) t); simpl; rewrite ?Hxy, (IH l2 Hrest);
    reflexivity.
Qed.

Lemma score_from_core (s1 s2 l1 l2 : list row) :
  map core s1 = map core s2 -> map core l1 = map core l2 ->
  score_from s1 l1 = score_from s2 l2.
Proof.
  revert s1 s2 l2. induction l1 as [|x l1 IH]; intros s1 s2 [|y l2]; simpl;
    try discriminate; [reflexivity|].
  intros Hs H. apply map_core_cons in H. destruct H as [Hxy Hrest].
  pose proof (same_core_fields _ _ Hxy) as (_ & _ & Ht & _).
  assert (Hrow : score_row (history_of (title x) s1) x
                 = score_row (history_of (title y) s2) y).
  { apply score_row_core; [|exact Hxy].
    rewrite Ht. apply map_core_history. exact Hs. }
  rewrite Hrow. f_equal. apply IH; [|exact Hrest].
  rewrite !map_app, Hs. reflexivity.
Qed.

Lemma map_core_score_from (scored rows : list row) :
  map core (score_from scored rows) = map core rows.
Proof.
  revert scored. induction rows as [|r rows IH]; intros scored; simpl;
    [reflexivity|].
  rewrite core_score_row, IH. reflexivity.
Qed.

Lemma map_core_score_pass (rows : list row) :
  map core (score_pass rows) = map core rows.
Proof. rewrite score_pass_from. apply map_core_score_from. Qed.

(** Scoring rows that are already scored changes nothing. *)
Lemma score_pass_idem (rows : list row) :
  score_pass (score_pass rows) = score_pass rows.
Proof.
  rewrite !score_pass_from. apply score_from_core; [reflexivity|].
  apply map_core_score_from.
Qed.

(** ** The loop as the script runs it *)

Lemma finite_raises (f : binary64) (e : exn) :
  finite f = Raise e -> e = OverflowError.
Proof. destruct f; simpl; congruence. Qed.

Lemma int_truediv_raises (a b : Z) (e : exn) :
  b <> 0 -> int_truediv a b = Raise e -> e = OverflowError.
Proof.
  intros Hb. unfold int_truediv.
  destruct (Z.eqb_spec b 0) as [Hb0|_]; [contradiction|]. apply finite_raises.
Qed.

Lemma fmap_raises {A B} (f : A -> B) (m : result A) (e : exn) :
  f <$> m = Raise e -> m = Raise e.
Proof. destruct m; simpl; [discriminate | congruence]. Qed.

Lemma float_of_int_raises (z : Z) (e : exn) :
  float_of_int z = Raise e -> e = OverflowError.
Proof. apply finite_raises. Qed.

Lemma float_sqrt_of_frac_raises (n m : Z) (e : exn) :
  float_sqrt_of_frac n m = Raise e -> e = OverflowError.
Proof.
  unfold float_sqrt_of_frac. cbv zeta.
  destruct (Z.leb_spec 0 ((bit_length n - bit_length m - SQRT_BIT_WIDTH) / 2))
    as [Hq|Hq].
  - apply int_truediv_raises. discriminate.
  - apply int_truediv_raises. rewrite Z.shiftl_1_l.
    apply Z.pow_nonzero; lia.
Qed.

Lemma truediv_raises (a b : num) (e : exn) :
  truthy_num b = true -> truediv a b = Raise e -> e = OverflowError.
Proof.
  destruct a as [x|x], b as [y|y]; simpl.
  - intros Hy. apply int_truediv_raises.
    destruct (Z.eqb_spec y 0); [discriminate | assumption].
  - intros Hy. destruct (float_of_int x) as [fx|e'] eqn:Hfx; simpl.
    + destruct y; simpl; discriminate.
    + intros [= <-]. apply (float_of_int_raises _ _ Hfx).
  - intros Hy. destruct (Z.eqb_spec y 0); [discriminate|].
    destruct (float_of_int y) as [fy|e'] eqn:Hfy; simpl; [discriminate|].
    intros [= <-]. apply (float_of_int_raises _ _ Hfy).
  - intros Hy. destruct y; simpl; discriminate.
Qed.

Lemma length_insert_by (x : Z) (l : list Z) :
  length (insert_by Z.leb x l) = S (length l).
Proof.
  induction l as [|y l IH]; simpl; [reflexivity|].
  destruct (x <=? y); simpl; [reflexivity | rewrite IH; reflexivity].
Qed.

Lemma length_sorted_Z (l : list Z) : length (sorted_Z l) = length l.
Proof.
  induction l as [|x l IH]; [reflexivity|].
  unfold sorted_Z in *. simpl. rewrite length_insert_by, IH. reflexivity.
Qed.

Lemma median_raises (data : list Z) (e : exn) :
  data <> [] -> median data = Raise e -> e = OverflowError.
Proof.
  intros Hdata. unfold median. cbv zeta. rewrite length_sorted_Z.
  destruct data as [|x data]; [contradiction|]. cbn [length Nat.eqb].
  destruct (_ =? 1)%nat; [discriminate|].
  intros H. apply fmap_raises in H. revert H. apply int_truediv_raises. lia.
Qed.

Lemma convert_raises (value : Q) (e : exn) :
  convert value = Raise e -> e = OverflowError.
Proof.
  unfold convert. cbv zeta. destruct (_ =? 1)%positive; [discriminate|].
  intros H. apply fmap_raises in H. revert H. apply int_truediv_raises. lia.
Qed.

Lemma mean_raises (data : list Z) (e : exn) :
  data <> [] -> mean data = Raise e -> e = OverflowError.
Proof.
  intros Hdata. unfold mean. cbv zeta.
  destruct data as [|x data]; [contradiction|]. cbn [length Nat.ltb Nat.leb].
  apply convert_raises.
Qed.

Lemma pstdev_raises (data : list Z) (e : exn) :
  data <> [] -> pstdev data = Raise e -> e = OverflowError.
Proof.
  intros Hdata. unfold pstdev. cbv zeta.
  destruct data as [|x data]; [contradiction|]. cbn [length Nat.ltb Nat.leb].
  apply float_sqrt_of_frac_raises.
Qed.

Tactic Notation "result_simpl" :=
  cbn [mbind result_bind mret result_ret fmap result_fmap].
Tactic Notation "result_simpl" "in" hyp(H) :=
  cbn [mbind result_bind mret result_ret fmap result_fmap] in H.

(** The test of rule R4 raises nothing but [OverflowError]. *)
Lemma R4_test_raises (dur_list : list Z) (e : exn) :
  R4_test dur_list = Raise e -> e = OverflowError.
Proof.
  unfold R4_test.
  destruct (3 <=? length dur_list)%nat eqn:Hlen; [|discriminate].
  assert (Hdata : dur_list <> []).
  { intros ->. discriminate Hlen. }
  destruct (median dur_list) as [med|e1] eqn:Hmed; result_simpl;
    [|intros [= <-]; apply (median_raises _ _ Hdata Hmed)].
  destruct (mean dur_list) as [mu|e2] eqn:Hmu; result_simpl;
    [|intros [= <-]; apply (mean_raises _ _ Hdata Hmu)].
  destruct (pstdev dur_list) as [std|e3] eqn:Hstd; result_simpl;
    [|intros [= <-]; apply (pstdev_raises _ _ Hdata Hstd)].
  assert (Hspike : forall e4,
            (if truthy_num med then truediv (PyInt (max_Z dur_list)) med
             else Ok FLOAT_0_0) = Raise e4 -> e4 = OverflowError).
  { intros e4. destruct (truthy_num med) eqn:Htmed; [|discriminate].
    apply truediv_raises. exact Htmed. }
  assert (Hcov : forall e5,
            (if truthy_num mu then truediv (PyFloat std) mu
             else Ok FLOAT_0_0) = Raise e5 -> e5 = OverflowError).
  { intros e5. destruct (truthy_num mu) eqn:Htmu; [|discriminate].
    apply truediv_raises. exact Htmu. }
  destruct (if truthy_num med then _ else _) as [spike|e4]; result_simpl;
    [|intros [= <-]; apply Hspike; reflexivity].
  destruct (if truthy_num mu then _ else _) as [cov|e5]; result_simpl;
    [discriminate|intros [= <-]; apply Hcov; reflexivity].
Qed.

Lemma R4_test_short (dur_list : list Z) :
  (length dur_list < 3)%nat -> R4_test dur_list = Ok false.
Proof.
  intros Hlen. unfold R4_test.
  destruct (Nat.leb_spec 3 (length dur_list)); [lia | reflexivity].
Qed.

Lemma R4_test_rule (dur_list : list Z) (fired : bool) :
  R4_test dur_list = Ok fired -> rule_R4 dur_list = fired.
Proof. unfold rule_R4. intros ->. reflexivity. Qed.

Lemma durations_core (h1 h2 : list row) (r1 r2 : row) :
  map core h1 = map core h2 -> core r1 = core r2 ->
  durations h1 r1 = durations h2 r2.
Proof.
  intros Hh Hr.
  pose proof (same_core_fields _ _ Hr) as (_ & _ & _ & _ & _ & Hd).
  unfold durations.
  rewrite (map_core_durations _ _ (map_core_last_n 4 _ _ Hh)), Hd.
  reflexivity.
Qed.

(** The loop returns what [score_from] returns, when the test of each
    row returns. *)
Lemma score_loop_py_from (grouped : gmap string (list row))
    (scored rows : list row) :
  (forall t, default [] (grouped !! t) = history_of t scored) ->
  (forall l1 r l2, rows = l1 ++ r :: l2 ->
     exists fired,
       R4_test (durations (history_of (title r) (scored ++ l1)) r) = Ok fired) ->
  score_loop_py grouped rows = Ok (score_from scored rows).
Proof.
  revert grouped scored.
  induction rows as [|r rows IH]; intros grouped scored Hg Hret; simpl;
    [reflexivity|].
  rewrite Hg.
  destruct (Hret [] r rows eq_refl) as [fired Hfired].
  rewrite app_nil_r in Hfired. rewrite Hfired. simpl.
  set (r' := score_row (history_of (title r) scored) r).
  rewrite (IH _ (scored ++ [r'])); [reflexivity| |].
  - intros t. rewrite history_of_app. unfold history_of at 2. simpl.
    destruct (score_row_frame (history_of (title r) scored) r) as (_ & _ & Ht & _).
    fold r' in Ht. rewrite Ht.
    destruct (String.eqb_spec (title r) t) as [<-|Hne].
    + rewrite lookup_insert_eq. reflexivity.
    + rewrite lookup_insert_ne by exact Hne. rewrite Hg.
      symmetry. apply app_nil_r.
  - intros l1 x l2 Hsplit.
    destruct (Hret (r :: l1) x l2 (f_equal (cons r) Hsplit))
      as [fired' Hfired'].
    exists fired'. rewrite <- Hfired'. f_equal.
      apply durations_core; [|reflexivity].
    apply map_core_history. rewrite <- app_assoc, !map_app. simpl.
    unfold r'. rewrite core_score_row. reflexivity.
Qed.

Lemma score_loop_py_inv (grouped : gmap string (list row))
    (scored rows out : list row) :
  (forall t, default [] (grouped !! t) = history_of t scored) ->
  score_loop_py grouped rows = Ok out ->
  forall l1 r l2, rows = l1 ++ r :: l2 ->
    exists fired,
      R4_test (durations (history_of (title r) (scored ++ l1)) r) = Ok fired.
Proof.
  revert grouped scored out.
  induction rows as [|r rows IH];
    intros grouped scored out Hg Hout l1 x l2 Hsplit;
    [destruct l1; discriminate|].
  simpl in Hout. rewrite Hg in Hout.
  destruct (R4_test (durations (history_of (title r) scored) r))
    as [fired|e] eqn:Hfired; result_simpl in Hout; [|discriminate].
  set (r' := score_row (history_of (title r) scored) r) in *.
  destruct (score_loop_py _ rows) as [rest'|e] eqn:Hrest; [|discriminate].
  assert (Hg' : forall t,
            default [] (<[title r := history_of (title r) scored ++ [r']]>
                          grouped !! t)
            = history_of t (scored ++ [r'])).
  { intros t. rewrite history_of_app. unfold history_of at 3. simpl.
    destruct (score_row_frame (history_of (title r) scored) r)
      as (_ & _ & Ht & _).
    fold r' in Ht. rewrite Ht.
    destruct (String.eqb_spec (title r) t) as [<-|Hne].
    - rewrite lookup_insert_eq. reflexivity.
    - rewrite lookup_insert_ne by exact Hne. rewrite Hg.
      symmetry. apply app_nil_r. }
  destruct l1 as [|y l1]; injection Hsplit as Hr Hrows.
  - subst x. exists fired. rewrite app_nil_r. exact Hfired.
  - subst y.
    destruct (IH _ (scored ++ [r']) rest' Hg' Hrest l1 x l2 Hrows)
      as [fired' Hfired'].
    exists fired'. rewrite <- Hfired'. f_equal.
    apply durations_core; [|reflexivity].
    apply map_core_history. rewrite <- app_assoc, !map_app. simpl.
    unfold r'. rewrite core_score_row. reflexivity.
Qed.

Lemma score_loop_py_raises (grouped : gmap string (list row))
    (rows : list row) (e : exn) :
  score_loop_py grouped rows = Raise e -> e = OverflowError.
Proof.
  revert grouped. induction rows as [|r rows IH]; intros grouped; simpl;
    [discriminate|].
  destruct (R4_test _) as [fired|e1] eqn:Hfired; simpl;
    [|intros [= <-]; apply (R4_test_raises _ _ Hfired)].
  destruct (score_loop_py _ rows) as [rest'|e2] eqn:Hrest; simpl;
    [discriminate|].
  intros [= <-]. apply (IH _ Hrest).
Qed.

Lemma score_pass_py (rows : list row) :
  R4_returns rows -> score_loop_py ∅ rows = Ok (score_pass rows).
Proof.
  intros Hret. rewrite score_pass_from. apply score_loop_py_from.
  - intros t. rewrite lookup_empty. reflexivity.
  - intros l1 r l2 Hsplit. apply (Hret l1 r l2 Hsplit).
Qed.

Lemma score_pass_py_inv (rows out : list row) :
  score_loop_py ∅ rows = Ok out -> R4_returns rows /\ out = score_pass rows.
Proof.
  intros Hout.
  assert (Hret : R4_returns rows).
  { intros l1 r l2 Hsplit.
    assert (Hempty : forall t,
              default [] ((∅ : gmap string (list row)) !! t) = history_of t [])
      by (intros t; rewrite lookup_empty; reflexivity).
    exact (score_loop_py_inv ∅ [] rows out Hempty Hout l1 r l2 Hsplit). }
  split; [exact Hret|].
  rewrite (score_pass_py rows Hret) in Hout. congruence.
Qed.

(** *** The windows of the tests read the input cells only *)

Lemma map_core_split (s1 l1 : list row) (r : row) (l2 : list row) :
  map core s1 = map core (l1 ++ r :: l2) ->
  exists l1' r' l2',
    s1 = l1' ++ r' :: l2' /\ map core l1' = map core l1 /\ core r' = core r.
Proof.
  revert s1. induction l1 as [|x l1 IH]; intros [|y s1] H; try discriminate.
  - apply map_core_cons in H. destruct H as [Hyr _].
    exists [], y, s1. auto.
  - apply map_core_cons in H. destruct H as [Hyx Hrest].
    destruct (IH s1 Hrest) as (l1' & r' & l2' & -> & Hl1 & Hr).
    exists (y :: l1'), r', l2'. split; [reflexivity|]. split; [|exact Hr].
    simpl. rewrite Hyx, Hl1. reflexivity.
Qed.

Lemma R4_returns_core (l1 l2 : list row) :
  map core l1 = map core l2 -> R4_returns l1 -> R4_returns l2.
Proof.
  intros Hmap Hret a r b ->.
  destruct (map_core_split l1 a r b Hmap) as (a' & r' & b' & -> & Ha & Hr).
  destruct (Hret a' r' b' eq_refl) as [fired Hfired].
  exists fired. rewrite <- Hfired. f_equal. symmetry.
  pose proof (same_core_fields _ _ Hr) as (_ & _ & Ht & _).
  apply durations_core; [|exact Hr].
  rewrite Ht. apply map_core_history. exact Ha.
Qed.

Lemma filter_split {A} (p : A -> bool) (l l1' : list A) (r : A) (l2' : list A) :
  List.filter p l = l1' ++ r :: l2' ->
  exists l1 l2,
    l = l1 ++ r :: l2 /\ List.filter p l1 = l1' /\ p r = true.
Proof.
  revert l1'. induction l as [|x l IH]; intros l1' H; simpl in H.
  - destruct l1'; discriminate.
  - destruct (p x) eqn:Hpx.
    + destruct l1' as [|y l1']; simpl in H; injection H as -> H.
      * exists [], l. auto.
      * destruct (IH l1' H) as (l1 & l2 & -> & Hl1 & Hr).
        exists (y :: l1), l2. split; [reflexivity|]. split; [|exact Hr].
        simpl. rewrite Hpx, Hl1. reflexivity.
    + destruct (IH l1' H) as (l1 & l2 & -> & Hl1 & Hr).
      exists (x :: l1), l2. split; [reflexivity|]. split; [|exact Hr].
      simpl. rewrite Hpx. exact Hl1.
Qed.

Lemma score_loop_py_core (s1 s2 : list row) :
  map core s1 = map core s2 -> score_loop_py ∅ s1 = score_loop_py ∅ s2.
Proof.
  intros Hmap.
  assert (Hpass : score_pass s1 = score_pass s2).
  { rewrite !score_pass_from. apply score_from_core; [reflexivity | exact Hmap]. }
  destruct (score_loop_py ∅ s1) as [out1|e1] eqn:H1.
  - apply score_pass_py_inv in H1. destruct H1 as [Hret ->].
    rewrite (score_pass_py s2 (R4_returns_core _ _ Hmap Hret)), Hpass.
    reflexivity.
  - rewrite (score_loop_py_raises _ _ _ H1).
    destruct (score_loop_py ∅ s2) as [out2|e2] eqn:H2.
    + apply score_pass_py_inv in H2. destruct H2 as [Hret _].
      rewrite (score_pass_py s1 (R4_returns_core _ _ (eq_sym Hmap) Hret)) in H1.
      discriminate.
    + rewrite (score_loop_py_raises _ _ _ H2). reflexivity.
Qed.

(** *** Dropping the later rows of a title *)

Lemma filter_all_true {A} (p : A -> bool) (l : list A) :
  (forall x, In x l -> p x = true) -> List.filter p l = l.
Proof.
  induction l as [|x l IH]; intros H; simpl; [reflexivity|].
  rewrite (H x) by (left; reflexivity).
  rewrite IH by (intros y Hy; apply H; right; exact Hy). reflexivity.
Qed.

Lemma history_of_filter (p : row -> bool) (t : string) (l : list row) :
  history_of t (List.filter p l) = List.filter p (history_of t l).
Proof.
  unfold history_of. induction l as [|x l IH]; simpl; [reflexivity|].
  destruct (p x) eqn:Hp, (String.eqb (title x) t) eqn:Ht; simpl;
    rewrite ?Hp, ?Ht, IH; reflexivity.
Qed.

Lemma score_from_filter (p : row -> bool) (scored rows : list row) :
  reads_input_only p ->
  drops_later_rows_only p rows ->
  (forall x y, In x scored -> In y rows -> title y = title x ->
               p x = false -> p y = false) ->
  score_from (List.filter p scored) (List.filter p rows)
  = List.filter p (score_from scored rows).
Proof.
  intros Hp. revert scored.
  induction rows as [|r rows IH]; intros scored Hrows Hscored; [reflexivity|].
  set (r' := score_row (history_of (title r) scored) r).
  assert (Hr' : p r' = p r).
  { rewrite (Hp r'), (Hp r). unfold r'. rewrite core_score_row. reflexivity. }
  assert (Ht' : title r' = title r).
  { unfold r'. apply score_row_frame. }
  assert (Hrest : drops_later_rows_only p rows).
  { intros l1 x l2 y -> Hy. apply (Hrows (r :: l1) x l2 y); [reflexivity|exact Hy]. }
  assert (Hnext : forall x y, In x (scored ++ [r']) -> In y rows ->
                              title y = title x -> p x = false -> p y = false).
  { intros x y Hx Hy Hxy Hpx. apply in_app_or in Hx. destruct Hx as [Hx | [<- | []]].
    - apply (Hscored x y Hx); [right; exact Hy | exact Hxy | exact Hpx].
    - apply (Hrows [] r rows y eq_refl Hy); congruence. }
  change (score_from scored (r :: rows))
    with (r' :: score_from (scored ++ [r']) rows).
  change (List.filter p (r :: rows))
    with (if p r then r :: List.filter p rows else List.filter p rows).
  change (List.filter p (r' :: score_from (scored ++ [r']) rows))
    with (if p r' then r' :: List.filter p (score_from (scored ++ [r']) rows)
          else List.filter p (score_from (scored ++ [r']) rows)).
  rewrite Hr', <- (IH (scored ++ [r']) Hrest Hnext), List.filter_app.
  destruct (p r) eqn:Hpr.
  - assert (Hhist : history_of (title r) (List.filter p scored)
                    = history_of (title r) scored).
    { rewrite history_of_filter. apply filter_all_true.
      intros x Hx. unfold history_of in Hx. apply filter_In in Hx.
      destruct Hx as [Hx Htx]. apply String.eqb_eq in Htx.
      destruct (p x) eqn:Hpx; [reflexivity|].
      rewrite (Hscored x r Hx (or_introl eq_refl) (eq_sym Htx) Hpx) in Hpr.
      discriminate. }
    simpl. rewrite Hhist. fold r'. rewrite Hr'. reflexivity.
  - simpl. rewrite Hr', app_nil_r. reflexivity.
Qed.

Lemma score_pass_filter (p : row -> bool) (rows : list row) :
  reads_input_only p ->
  drops_later_rows_only p rows ->
  score_pass (List.filter p rows) = List.filter p (score_pass rows).
Proof.
  intros Hp Hrows. rewrite !score_pass_from.
  apply (score_from_filter p [] rows Hp Hrows). intros x y [].
Qed.

Lemma R4_returns_filter (p : row -> bool) (order : list row) :
  drops_later_rows_only p order ->
  R4_returns order -> R4_returns (List.filter p order).
Proof.
  intros Hdrop Hret l1' r l2' Hsplit.
  destruct (filter_split p order l1' r l2' Hsplit) as (l1 & l2 & -> & <- & Hpr).
  destruct (Hret l1 r l2 eq_refl) as [fired Hfired].
  exists fired. rewrite <- Hfired. do 2 f_equal.
  rewrite history_of_filter. apply filter_all_true.
  intros x Hx. unfold history_of in Hx. apply filter_In in Hx.
  destruct Hx as [Hx Htx]. apply String.eqb_eq in Htx.
  destruct (p x) eqn:Hpx; [reflexivity|].
  apply in_split in Hx. destruct Hx as (a & b & ->).
  rewrite (Hdrop a x (b ++ r :: l2) r) in Hpr;
    [discriminate| |apply in_or_app; right; left; reflexivity
     |symmetry; exact Htx|exact Hpx].
  rewrite <- app_assoc. reflexivity.
Qed.

(** ** The engine *)

Section SortKinds.
Context {A K : Type}.
Variable lt : K -> K -> result bool.
Variable ltb : K -> K -> bool.
Variable key : A -> K.
Variable kind : K -> bool.
Hypothesis lt_ltb : forall a b c, lt a b = Ok c -> ltb a b = c.
Hypothesis lt_kind : forall a b c, lt a b = Ok c -> kind a = kind b.

(** A sort that compares every new row with the first row it holds
    ends only if all the keys are of one kind. *)
Lemma list_sort_one_kind l s :
  list_sort lt key l = Ok s ->
  forall x y, In x l -> In y l -> kind (key x) = kind (key y).
Proof.
  revert s. induction l as [|z l IH]; intros s; simpl; [intros _ x y []|].
  destruct (list_sort lt key l) as [s'|e] eqn:Hs'; simpl; [|discriminate].
  intros Hins.
  assert (Hz : forall x, In x l -> kind (key x) = kind (key z)).
  { pose proof (list_sort_Ok lt ltb key lt_ltb l s' Hs') as ->.
    destruct (sort_pure ltb key l) as [|h t] eqn:Hsorted.
    - intros x Hx.
      apply (Permutation_in _ (Permutation_sym (sort_pure_perm ltb key l))) in Hx.
      rewrite Hsorted in Hx. destruct Hx.
    - destruct (sort_insert_head lt key z h t s Hins) as [b Hb].
      assert (Hh : In h l).
      { apply (Permutation_in _ (sort_pure_perm ltb key l)).
        rewrite Hsorted. left. reflexivity. }
      intros x Hx. rewrite (IH _ eq_refl x h Hx Hh).
      apply (lt_kind _ _ _ Hb). }
  intros x y [<- | Hx] [<- | Hy].
  - reflexivity.
  - symmetry. apply Hz. exact Hy.
  - apply Hz. exact Hx.
  - apply (IH _ eq_refl); assumption.
Qed.
End SortKinds.

Section EngineFacts.
Variable fromisoformat : string -> option datetime.

Local Abbreviation time_of := (time_of fromisoformat).
Local Abbreviation title_time := (title_time fromisoformat).
Local Abbreviation sort_time := (sort_time fromisoformat).
Local Abbreviation sort_title_time := (sort_title_time fromisoformat).
Local Abbreviation one_kind := (one_kind fromisoformat).
Local Abbreviation compute := (compute_trend_and_flaky fromisoformat).
Local Abbreviation float_range := (in_float_range fromisoformat).

Local Abbreviation sorted_time := (sorted_time fromisoformat).
Local Abbreviation sorted_title_time := (sorted_title_time fromisoformat).

Lemma time_of_core (r : row) : time_of (core r) = time_of r.
Proof. reflexivity. Qed.

Lemma title_time_core (r : row) : title_time (core r) = title_time r.
Proof. reflexivity. Qed.

Lemma in_map_core (x : row) (l1 l2 : list row) :
  map core l1 = map core l2 -> In x l1 -> exists y, In y l2 /\ core y = core x.
Proof.
  intros Hmap Hx. apply (in_map core) in Hx. rewrite Hmap in Hx.
  apply in_map_iff in Hx. destruct Hx as (y & Hy & Hin). eauto.
Qed.

Lemma one_kind_incl (l1 l2 : list row) :
  (forall x, In x l2 -> exists y, In y l1 /\ core y = core x) ->
  one_kind l1 -> one_kind l2.
Proof.
  intros Hincl Hone x y Hx Hy.
  destruct (Hincl x Hx) as (x' & Hx' & Hcx).
  destruct (Hincl y Hy) as (y' & Hy' & Hcy).
  rewrite <- (time_of_core x), <- (time_of_core y), <- Hcx, <- Hcy,
    !time_of_core.
  apply Hone; assumption.
Qed.

Lemma one_kind_perm (l1 l2 : list row) :
  Permutation l1 l2 -> one_kind l1 -> one_kind l2.
Proof.
  intros Hperm. apply one_kind_incl. intros x Hx. exists x. split; [|reflexivity].
  apply (Permutation_in _ (Permutation_sym Hperm)). exact Hx.
Qed.

Lemma one_kind_core (l1 l2 : list row) :
  map core l1 = map core l2 -> one_kind l1 -> one_kind l2.
Proof.
  intros Hmap. apply one_kind_incl. intros x Hx.
  apply (in_map_core x l2 l1); [symmetry|]; assumption.
Qed.

Lemma one_kind_filter (p : row -> bool) (l : list row) :
  one_kind l -> one_kind (List.filter p l).
Proof.
  apply one_kind_incl. intros x Hx. exists x. split; [|reflexivity].
  apply filter_In in Hx. tauto.
Qed.

Lemma sort_title_time_perm l : Permutation (sort_title_time l) l.
Proof. apply sort_pure_perm. Qed.

Lemma sort_time_perm l : Permutation (sort_time l) l.
Proof. apply sort_pure_perm. Qed.

Lemma sort_title_time_sorted l : sorted_title_time (sort_title_time l).
Proof.
  apply sort_pure_sorted;
    [exact key_ltb_irrefl | exact key_ltb_trans | exact key_ltb_ntrans].
Qed.

Lemma sort_time_sorted l : sorted_time (sort_time l).
Proof.
  apply sort_pure_sorted;
    [exact dt_ltb_irrefl | exact dt_ltb_trans | exact dt_ltb_ntrans].
Qed.

(** The engine ends exactly on the inputs whose run times are of one
    kind and whose duration windows keep rule R4 in the range of the
    floats, and then returns the rows scored in (title, time) order and
    sorted by time. *)
Lemma compute_one_kind (all_rows : list row) :
  one_kind all_rows ->
  float_range all_rows ->
  compute all_rows
  = Ok (sort_time (score_pass (sort_title_time all_rows))).
Proof.
  intros Hone Hrange. unfold compute_trend_and_flaky.
  rewrite (list_sort_pure key_lt key_ltb title_time).
  2:{ intros x y Hx Hy. apply key_lt_same_kind. apply Hone; assumption. }
  result_simpl.
  change (sort_pure key_ltb title_time all_rows)
    with (sort_title_time all_rows).
  rewrite (score_pass_py _ Hrange). result_simpl.
  apply list_sort_pure. intros x y Hx Hy. apply dt_lt_same_kind.
  assert (Hscored : one_kind (score_pass (sort_title_time all_rows))).
  { apply (one_kind_core (sort_title_time all_rows));
      [symmetry; apply map_core_score_pass|].
    apply (one_kind_perm all_rows);
      [symmetry; apply sort_title_time_perm | exact Hone]. }
  apply Hscored; assumption.
Qed.

Lemma compute_Ok_parts (all_rows out : list row) :
  compute all_rows = Ok out ->
  list_sort key_lt title_time all_rows = Ok (sort_title_time all_rows)
  /\ score_loop_py ∅ (sort_title_time all_rows)
     = Ok (score_pass (sort_title_time all_rows))
  /\ float_range all_rows
  /\ list_sort dt_lt time_of (score_pass (sort_title_time all_rows)) = Ok out.
Proof.
  unfold compute_trend_and_flaky.
  destruct (list_sort key_lt title_time all_rows) as [s|e] eqn:Hs;
    result_simpl; [|discriminate].
  apply (list_sort_Ok key_lt key_ltb title_time key_lt_ltb) in Hs. subst s.
  destruct (score_loop_py _ _) as [scored|e] eqn:Hscored;
    result_simpl; [|discriminate].
  apply score_pass_py_inv in Hscored. destruct Hscored as [Hret ->].
  intros Hout. split; [reflexivity|]. split; [reflexivity|].
  split; [exact Hret | exact Hout].
Qed.

Lemma compute_Ok_inv (all_rows out : list row) :
  compute all_rows = Ok out ->
  one_kind all_rows
  /\ out = sort_time (score_pass (sort_title_time all_rows)).
Proof.
  intros Hc. destruct (compute_Ok_parts _ _ Hc) as (_ & _ & _ & Hout).
  split.
  - pose proof (list_sort_one_kind dt_lt dt_ltb time_of is_aware
                  dt_lt_ltb dt_lt_Ok_kind _ _ Hout) as Hscored.
    apply (one_kind_perm (sort_title_time all_rows));
      [apply sort_title_time_perm|].
    apply (one_kind_core (score_pass (sort_title_time all_rows)));
      [apply map_core_score_pass | exact Hscored].
  - apply (list_sort_Ok dt_lt dt_ltb time_of dt_lt_ltb). exact Hout.
Qed.

Lemma compute_Ok_range (all_rows out : list row) :
  compute all_rows = Ok out -> float_range all_rows.
Proof. intros Hc. apply (compute_Ok_parts _ _ Hc). Qed.

Lemma compute_Ok_iff (all_rows : list row) :
  (exists out, compute all_rows = Ok out)
  <-> one_kind all_rows /\ float_range all_rows.
Proof.
  split.
  - intros [out Hout]. split;
      [apply (compute_Ok_inv _ _ Hout) | apply (compute_Ok_range _ _ Hout)].
  - intros [Hone Hrange]. eexists. apply compute_one_kind; assumption.
Qed.

(** The range of the floats is a matter of the input cells, in the
    scoring order. *)
Lemma in_float_range_filter (p : row -> bool) (all_rows : list row) :
  drops_later_rows_only p (sort_title_time all_rows) ->
  float_range all_rows -> float_range (List.filter p all_rows).
Proof.
  intros Hdrop Hrange. unfold in_float_range, sort_title_time.
  rewrite <- (filter_sort_pure key_ltb title_time
                key_ltb_irrefl key_ltb_trans key_ltb_ntrans).
  apply R4_returns_filter; assumption.
Qed.

(** *** Sorting by (title, time) after sorting by time *)

Lemma sorted_by_map_core {K} (ltb : K -> K -> bool) (key : row -> K) l1 l2 :
  (forall r, key (core r) = key r) ->
  map core l1 = map core l2 -> sorted_by ltb key l1 -> sorted_by ltb key l2.
Proof.
  intros Hkey. unfold sorted_by.
  revert l2. induction l1 as [|x l1 IH]; intros [|y l2] Hmap Hsorted;
    try discriminate; [constructor|].
  apply map_core_cons in Hmap. destruct Hmap as [Hxy Hrest].
  apply StronglySorted_inv in Hsorted. destruct Hsorted as [Hl1 Hx].
  constructor; [apply IH; assumption|].
  apply Forall_forall. intros z Hz. apply list_elem_of_In in Hz.
  destruct (in_map_core z l2 l1 (eq_sym Hrest) Hz) as (z' & Hz' & Hcz).
  rewrite Forall_forall in Hx. specialize (Hx z' (proj2 (list_elem_of_In _ _) Hz')).
  unfold not_after in *.
  rewrite <- (Hkey z), <- (Hkey y), <- Hcz, <- Hxy, !Hkey. exact Hx.
Qed.

Lemma time_before_other_rank (x y : row) :
  dt_ltb (time_of y) (time_of x) = true ->
  key_ltb (title_time y) (title_time x) = true
  \/ key_ltb (title_time x) (title_time y) = true.
Proof.
  intros Hlt. unfold key_ltb. simpl.
  destruct (String.eqb_spec (title y) (title x)) as [Heq|Hne].
  - left. exact Hlt.
  - destruct (String.ltb (title y) (title x)) eqn:Hyx; [left; reflexivity|].
    right. rewrite (proj2 (String.eqb_neq (title x) (title y)))
      by congruence.
    destruct (String.ltb (title x) (title y)) eqn:Hxy; [reflexivity|].
    exfalso. apply Hne. apply str_ltb_total; assumption.
Qed.

(** Rows in (title, time) order are found again, in that order, after
    they have been sorted by time. *)
Lemma sort_title_time_sort_time (l : list row) :
  sorted_title_time l -> sort_title_time (sort_time l) = l.
Proof.
  unfold sorted_title_time, sorted_by.
  induction 1 as [|x l Hl IH Hx]; [reflexivity|].
  unfold sort_time, sort_title_time in *. simpl.
  destruct (insert_pure_split dt_ltb time_of x (sort_pure dt_ltb time_of l))
    as (l1 & l2 & Hsplit & -> & Hl1).
  rewrite (sort_pure_move key_ltb title_time
             key_ltb_irrefl key_ltb_trans l1 x l2).
  - rewrite <- Hsplit, IH. apply insert_pure_front. exact Hx.
  - eapply Forall_impl; [exact Hl1|]. intros y Hy.
    apply time_before_other_rank. exact Hy.
Qed.

Lemma score_pass_sorted (l : list row) :
  sorted_title_time l -> sorted_title_time (score_pass l).
Proof.
  apply sorted_by_map_core; [exact title_time_core|].
  symmetry. apply map_core_score_pass.
Qed.
End EngineFacts.

(** ** Every returned row is a row scored against its history *)

Lemma score_pass_snoc (rows : list row) (r : row) :
  score_pass (rows ++ [r]) =
  score_pass rows ++ [score_row (history_of (title r) (score_pass rows)) r].
Proof. rewrite score_pass_at. reflexivity. Qed.

Lemma score_pass_In (rows : list row) (r' : row) :
  In r' (score_pass rows) ->
  exists l1 r l2,
    rows = l1 ++ r :: l2
    /\ r' = score_row (history_of (title r) (score_pass l1)) r.
Proof.
  induction rows as [|r rows IH] using rev_ind; [intros []|].
  rewrite score_pass_snoc. intros Hin. apply in_app_or in Hin.
  destruct Hin as [Hin | [<- | []]].
  - destruct (IH Hin) as (l1 & r0 & l2 & -> & ->).
    exists l1, r0, (l2 ++ [r]). rewrite <- app_assoc. auto.
  - exists rows, r, []. auto.
Qed.

Lemma length_history_of_score_pass (t : string) (rows : list row) :
  length (history_of t (score_pass rows)) = length (history_of t rows).
Proof.
  rewrite <- (length_map core (history_of t (score_pass rows))).
  rewrite (map_core_history t (score_pass rows) rows (map_core_score_pass rows)).
  apply length_map.
Qed.

Lemma compute_rows (fromisoformat : string -> option datetime)
    (all_rows out : list row) (r' : row) :
  compute_trend_and_flaky fromisoformat all_rows = Ok out ->
  In r' out ->
  exists l1 r l2,
    sort_title_time fromisoformat all_rows = l1 ++ r :: l2
    /\ r' = score_row (history_of (title r) (score_pass l1)) r.
Proof.
  intros Hout Hin. apply compute_Ok_inv in Hout. destruct Hout as [_ ->].
  apply (Permutation_in _ (sort_time_perm fromisoformat _)) in Hin.
  apply score_pass_In. exact Hin.
Qed.

(** ** Verdict (C1) *)

Lemma score_of_spec (history : list row) (r : row) :
  score_of history r =
    40 * b2z (rule_R1 (trend_syms history r)) + 20 * b2z (rule_R3 r)
    + 20 * b2z (rule_R4 (durations history r)).
Proof. unfold score_of. rewrite rules_spec. reflexivity. Qed.

Lemma durations_first (r : row) : (length (durations [] r) < 3)%nat.
Proof. unfold durations. simpl. destruct (duration_ms r); simpl; lia. Qed.

Lemma compute_single (fromisoformat : string -> option datetime) (r : row) :
  compute_trend_and_flaky fromisoformat [r] = Ok [score_row [] r].
Proof.
  rewrite compute_one_kind; [reflexivity| |].
  - intros x y [<-|[]] [<-|[]]. reflexivity.
  - intros l1 x l2 Hsplit. exists false.
    destruct l1 as [|y l1]; [|destruct l1; discriminate].
    injection Hsplit as <- _. apply R4_test_short. apply durations_first.
Qed.

(** C1. Every row the engine scores gets [is_flaky = "yes"] when its score
    is at least 40 or rule R1 fired, and ["no"] otherwise: this holds for
    the scoring of a row against any history, and every row the engine
    returns is such a row, scored against the rows of its title that
    precede it in (title, time) order.  When R3 and R4 fire and R1 does
    not, the score is 40 and the verdict ["yes"], as on the third row of
    the scenario with durations 100, 100, 600 and two retries; a single
    passed row with two retries scores 20 and gets ["no"]. *)
Theorem is_flaky_yes_iff_score_40_or_R1 :
  (forall history r,
     is_flaky (score_row history r) =
       if Z.leb 40 (score_of history r) || rule_R1 (trend_syms history r)
       then "yes" else "no")
  /\ (forall fromisoformat all_rows out r',
        compute_trend_and_flaky fromisoformat all_rows = Ok out ->
        In r' out ->
        exists l1 r l2,
          sort_title_time fromisoformat all_rows = l1 ++ r :: l2
          /\ r' = score_row (history_of (title r) (score_pass l1)) r
          /\ is_flaky r' =
               if Z.leb 40 (score_of (history_of (title r) (score_pass l1)) r)
                  || rule_R1 (trend_syms (history_of (title r) (score_pass l1)) r)
               then "yes" else "no")
  /\ (forall history r,
        rule_R1 (trend_syms history r) = false ->
        rule_R3 r = true ->
        rule_R4 (durations history r) = true ->
        score_of history r = 40 /\ is_flaky (score_row history r) = "yes")
  /\ (forall fromisoformat r,
        status r = "passed" -> retries r = 2 ->
        score_of [] r = 20
        /\ rule_R1 (trend_syms [] r) = false
        /\ compute_trend_and_flaky fromisoformat [r] = Ok [score_row [] r]
        /\ is_flaky (score_row [] r) = "no")
  /\ (exists r1 r2 r3,
        compute_trend_and_flaky iso_seconds scenario_R3_R4 = Ok [r1; r2; r3]
        /\ rule_R1 (trend_syms [r1; r2] r3) = false
        /\ rule_R3 r3 = true
        /\ rule_R4 (durations [r1; r2] r3) = true
        /\ score_of [r1; r2] r3 = 40
        /\ is_flaky r3 = "yes").
Proof.
  split; [exact is_flaky_verdict|]. split; [|split; [|split]].
  - intros fi all_rows out r' Hout Hin.
    destruct (compute_rows fi all_rows out r' Hout Hin) as (l1 & r & l2 & Hs & ->).
    exists l1, r, l2. split; [exact Hs|]. split; [reflexivity|].
    apply is_flaky_verdict.
  - intros history r H1 H3 H4.
    assert (Hscore : score_of history r = 40)
      by (rewrite score_of_spec, H1, H3, H4; reflexivity).
    split; [exact Hscore|]. rewrite is_flaky_verdict, Hscore. reflexivity.
  - intros fi r Hst Hre.
    assert (H1 : rule_R1 (trend_syms [] r) = false).
    { unfold trend_syms. rewrite Hst. reflexivity. }
    assert (H3 : rule_R3 r = true) by (unfold rule_R3; rewrite Hst, Hre; reflexivity).
    assert (H4 : rule_R4 (durations [] r) = false).
    { apply R4_test_rule, R4_test_short, durations_first. }
    assert (Hscore : score_of [] r = 20)
      by (rewrite score_of_spec, H1, H3, H4; reflexivity).
    split; [exact Hscore|]. split; [exact H1|]. split.
    + apply compute_single.
    + rewrite is_flaky_verdict, Hscore, H1. reflexivity.
  - do 3 eexists. split; [vm_compute; reflexivity|].
    repeat split; vm_compute; reflexivity.
Qed.

Lemma is_flaky_yes_iff_score_40_or_R1_witness :
  (exists l1 r l2,
     sort_title_time iso_seconds scenario_R3_R4 = l1 ++ r :: l2
     /\ score_row [] (new_row "2024-03-01T10:00:00Z" "T" "passed" 0 (Some 100))
        = score_row (history_of (title r) (score_pass l1)) r
     /\ is_flaky (score_row [] (new_row "2024-03-01T10:00:00Z" "T" "passed" 0 (Some 100)))
        = if Z.leb 40 (score_of (history_of (title r) (score_pass l1)) r)
             || rule_R1 (trend_syms (history_of (title r) (score_pass l1)) r)
          then "yes" else "no")
  /\ (let r := new_row "2024-03-01T10:00:00Z" "T" "passed" 2 None in
      score_of [] r = 20
      /\ rule_R1 (trend_syms [] r) = false
      /\ compute_trend_and_flaky iso_seconds [r] = Ok [score_row [] r]
      /\ is_flaky (score_row [] r) = "no").
Proof.
  split.
  - apply (proj1 (proj2 is_flaky_yes_iff_score_40_or_R1)
             iso_seconds scenario_R3_R4
             (sort_time iso_seconds (score_pass (sort_title_time iso_seconds scenario_R3_R4)))).
    + vm_compute. reflexivity.
    + vm_compute. left. reflexivity.
  - apply (proj1 (proj2 (proj2 (proj2 is_flaky_yes_iff_score_40_or_R1)))
             iso_seconds);
      reflexivity.
Defined.

(** ** Trend and verdict domain (C9) *)

Lemma py_len_trend (history : list row) (r : row) :
  py_len (trend_last5 (score_row history r)) = Nat.min 5 (length history + 1).
Proof.
  destruct (score_row_fields history r) as (-> & _).
  rewrite py_len_join_glyphs by apply trend_syms_glyphs.
  apply length_trend_syms.
Qed.

Lemma is_flaky_domain (history : list row) (r : row) :
  is_flaky (score_row history r) = "yes" \/ is_flaky (score_row history r) = "no".
Proof.
  rewrite is_flaky_verdict.
  destruct (Z.leb 40 (score_of history r) || rule_R1 (trend_syms history r)); auto.
Qed.

(** C9. For every row the engine returns, [trend_last5] has exactly
    [min 5 n] glyphs, [n] being the number of rows of its title up to and
    including it in the (title, time) order; so it is never empty and has
    no padding, and [is_flaky] is ["yes"] or ["no"]. *)
Theorem trend_has_min_5_n_glyphs
    (fromisoformat : string -> option datetime) (all_rows out : list row) (r' : row) :
  compute_trend_and_flaky fromisoformat all_rows = Ok out ->
  In r' out ->
  exists l1 r l2,
    sort_title_time fromisoformat all_rows = l1 ++ r :: l2
    /\ core r' = core r
    /\ py_len (trend_last5 r') = Nat.min 5 (length (history_of (title r) l1) + 1)
    /\ (1 <= py_len (trend_last5 r') <= 5)%nat
    /\ (is_flaky r' = "yes" \/ is_flaky r' = "no").
Proof.
  intros Hout Hin.
  destruct (compute_rows fromisoformat all_rows out r' Hout Hin)
    as (l1 & r & l2 & Hs & ->).
  exists l1, r, l2. split; [exact Hs|]. split; [apply core_score_row|].
  rewrite py_len_trend, length_history_of_score_pass.
  split; [reflexivity|]. split; [lia|]. apply is_flaky_domain.
Qed.

Lemma trend_has_min_5_n_glyphs_witness :
  exists l1 r l2,
    sort_title_time iso_seconds scenario_two_titles = l1 ++ r :: l2
    /\ core (score_row [] scenario_row_A)
       = core r
    /\ py_len (trend_last5 (score_row [] scenario_row_A))
       = Nat.min 5 (length (history_of (title r) l1) + 1)
    /\ (1 <= py_len (trend_last5 (score_row [] scenario_row_A)) <= 5)%nat
    /\ (is_flaky (score_row [] scenario_row_A) = "yes"
        \/ is_flaky (score_row [] scenario_row_A) = "no").
Proof.
  apply (trend_has_min_5_n_glyphs iso_seconds scenario_two_titles
           (sort_time iso_seconds (score_pass (sort_title_time iso_seconds scenario_two_titles)))).
  - vm_compute. reflexivity.
  - vm_compute. right. left. reflexivity.
Defined.

(** ** Rule R1 and its reason (C5) *)

Lemma reasons_text (history : list row) (r : row) :
  reasons (score_row history r) = join "; " (reasons_of history r).
Proof. apply score_row_fields. Qed.

(** C5, as the code has it.  Rule R1 fires when the trend holds at least
    two fail glyphs; it then adds 40 to the score and the reason
    [">1 fail in last5"] to the reasons, and the verdict is ["yes"]; when
    it does not fire neither is added.  For the statuses failed, failed,
    passed, passed, passed of one title the fifth row has the trend of
    all five, the reason [">1 fail in last5"] and the verdict ["yes"]. *)
Theorem R1_adds_40_and_reason_gt1_fail_in_last5 :
  (forall history r,
     rule_R1 (trend_syms history r) = true
     <-> (2 <= count_eq FAIL_GLYPH (trend_syms history r))%nat)
  /\ (forall history r,
        rule_R1 (trend_syms history r) = true ->
        score_of history r
          = 40 + 20 * b2z (rule_R3 r) + 20 * b2z (rule_R4 (durations history r))
        /\ In REASON_R1 (reasons_of history r)
        /\ contains REASON_R1 (reasons (score_row history r)) = true
        /\ is_flaky (score_row history r) = "yes")
  /\ (forall history r,
        rule_R1 (trend_syms history r) = false ->
        score_of history r
          = 20 * b2z (rule_R3 r) + 20 * b2z (rule_R4 (durations history r))
        /\ ~ In REASON_R1 (reasons_of history r))
  /\ (exists r1 r2 r3 r4 r5,
        compute_trend_and_flaky iso_seconds scenario_R1 = Ok [r1; r2; r3; r4; r5]
        /\ trend_last5 r5 = FAIL_GLYPH +:+ FAIL_GLYPH +:+ PASS_GLYPH +:+ PASS_GLYPH +:+ PASS_GLYPH
        /\ contains REASON_R1 (reasons r5) = true
        /\ is_flaky r5 = "yes").
Proof.
  split; [|split; [|split]].
  - intros history r. unfold rule_R1. apply Nat.leb_le.
  - intros history r H1. rewrite score_of_spec, H1.
    split; [reflexivity|].
    assert (Hmem : mem_str REASON_R1 (reasons_of history r) = true)
      by (rewrite mem_R1_reasons; exact H1).
    split.
    + unfold mem_str in Hmem. apply existsb_exists in Hmem.
      destruct Hmem as (x & Hx & Heq). apply String.eqb_eq in Heq. subst x.
      exact Hx.
    + split.
      * rewrite reasons_text. unfold reasons_of. rewrite rules_spec, H1. simpl fst.
        destruct (rule_R3 r), (rule_R4 (durations history r)); reflexivity.
      * rewrite is_flaky_verdict, H1, orb_true_r. reflexivity.
  - intros history r H1. rewrite score_of_spec, H1. split; [reflexivity|].
    unfold reasons_of. rewrite rules_spec, H1. simpl fst.
    destruct (rule_R3 r), (rule_R4 (durations history r)); simpl; intuition discriminate.
  - eexists _, _, _, _, _. split; [vm_compute; reflexivity|].
    vm_compute. auto.
Qed.

Lemma R1_adds_40_and_reason_gt1_fail_in_last5_witness :
  let history := [new_row "2024-03-01T10:00:00Z" "T" "failed" 0 None] in
  let r := new_row "2024-03-02T10:00:00Z" "T" "failed" 0 None in
  score_of history r
    = 40 + 20 * b2z (rule_R3 r) + 20 * b2z (rule_R4 (durations history r))
  /\ In REASON_R1 (reasons_of history r)
  /\ contains REASON_R1 (reasons (score_row history r)) = true
  /\ is_flaky (score_row history r) = "yes".
Proof.
  apply (proj1 (proj2 R1_adds_40_and_reason_gt1_fail_in_last5)).
  reflexivity.
Defined.

(** The fifth row of the R1 scenario: rule R1 fires on it, and the text
    ["≥2 fails in last 5"] is not among its reasons. *)
Lemma R1_reason_is_not_the_spec_wording :
  exists r1 r2 r3 r4 r5,
    compute_trend_and_flaky iso_seconds scenario_R1 = Ok [r1; r2; r3; r4; r5]
    /\ rule_R1 (trend_syms [r1; r2; r3; r4] r5) = true
    /\ reasons r5 = join "; " (reasons_of [r1; r2; r3; r4] r5)
    /\ ~ In SPEC_REASON_R1 (reasons_of [r1; r2; r3; r4] r5)
    /\ contains SPEC_REASON_R1 (reasons r5) = false.
Proof.
  eexists _, _, _, _, _. split; [vm_compute; reflexivity|].
  split; [vm_compute; reflexivity|].
  split; [vm_compute; reflexivity|].
  split; [|vm_compute; reflexivity].
  vm_compute. intros [H | []]. discriminate.
Qed.

(** ** The duration window (C10) *)

Lemma rule_R4_short (dur_list : list Z) :
  (length dur_list < 3)%nat -> rule_R4 dur_list = false.
Proof.
  intros Hlen. apply R4_test_rule, R4_test_short. exact Hlen.
Qed.

Lemma In_REASON_R4 (history : list row) (r : row) :
  In REASON_R4 (reasons_of history r) <-> rule_R4 (durations history r) = true.
Proof.
  unfold reasons_of. rewrite rules_spec. simpl fst.
  destruct (rule_R1 _), (rule_R3 r), (rule_R4 _); simpl;
    split; intros H; try reflexivity; try discriminate; auto;
    repeat (destruct H as [H | H]; try discriminate); try contradiction.
Qed.

(** C10. The duration list is the known durations among the last four
    history rows, whatever they are, followed by the duration of the
    current row when it is known; a history row more than four back is
    not read; with fewer than three known values in that window R4 does
    not fire, as for the row that follows three unknown durations, where
    filtering first would have found four values and fired. *)
Theorem durations_window_then_filter :
  (forall history r,
     durations history r
     = known_durations (last_n 4 history)
       ++ match duration_ms r with Some d => [d] | None => [] end)
  /\ (forall older window r,
        length window = 4%nat -> durations (older ++ window) r = durations window r)
  /\ (forall history r,
        (length (durations history r) < 3)%nat ->
        rule_R4 (durations history r) = false
        /\ ~ In REASON_R4 (reasons_of history r))
  /\ (known_durations scenario_window_history = [100; 100; 100]
      /\ durations scenario_window_history scenario_window_row = [100; 600]
      /\ rule_R4 (durations scenario_window_history scenario_window_row) = false
      /\ durations_filter_then_window scenario_window_history scenario_window_row
         = [100; 100; 100; 600]
      /\ rule_R4 (durations_filter_then_window scenario_window_history
                    scenario_window_row) = true
      /\ exists out r7,
           compute_trend_and_flaky iso_seconds
             (scenario_window_history ++ [scenario_window_row]) = Ok out
           /\ nth_error out 6 = Some r7
           /\ reasons r7 = "").
Proof.
  split; [|split; [|split]].
  - intros history r. unfold durations.
    destruct (duration_ms r); [reflexivity | rewrite app_nil_r; reflexivity].
  - intros older window r Hlen. unfold durations.
    rewrite last_n_app by lia. reflexivity.
  - intros history r Hlen.
    pose proof (rule_R4_short _ Hlen) as H4. split; [exact H4|].
    rewrite In_REASON_R4, H4. discriminate.
  - do 5 (split; [vm_compute; reflexivity|]).
    do 2 eexists. split; [vm_compute; reflexivity|].
    split; vm_compute; reflexivity.
Qed.

Lemma durations_window_then_filter_witness :
  durations (scenario_R1 ++ scenario_window_history ++ last_n 4 scenario_window_history)
    scenario_window_row
  = durations (last_n 4 scenario_window_history) scenario_window_row
  /\ rule_R4 (durations scenario_window_history scenario_window_row) = false
  /\ ~ In REASON_R4 (reasons_of scenario_window_history scenario_window_row).
Proof.
  split.
  - rewrite app_assoc.
    apply (proj1 (proj2 durations_window_then_filter)). reflexivity.
  - apply (proj1 (proj2 (proj2 durations_window_then_filter))).
    vm_compute. lia.
Defined.

(** ** No lookahead (C2) *)






(** ** Running the engine again (C3) *)

Section SortMap.
Context {A K : Type}.
Variable lt : K -> K -> result bool.
Variable key : A -> K.
Variable f : A -> A.
Hypothesis key_f : forall x, key (f x) = key x.

Lemma sort_insert_map x l :
  sort_insert lt key (f x) (map f l) = map f <$> sort_insert lt key x l.
Proof.
  induction l as [|y l IH]; simpl; [reflexivity|].
  rewrite !key_f. destruct (lt (key y) (key x)) as [[|]|e]; simpl; try reflexivity.
  rewrite IH. destruct (sort_insert lt key x l); reflexivity.
Qed.

Lemma list_sort_map l :
  list_sort lt key (map f l) = map f <$> list_sort lt key l.
Proof.
  induction l as [|x l IH]; simpl; [reflexivity|].
  rewrite IH. destruct (list_sort lt key l) as [s|e]; simpl; [|reflexivity].
  apply sort_insert_map.
Qed.
End SortMap.

(** The derived cells of the input rows are not read. *)
Lemma compute_reads_core (fromisoformat : string -> option datetime)
    (all_rows : list row) :
  compute_trend_and_flaky fromisoformat (map core all_rows)
  = compute_trend_and_flaky fromisoformat all_rows.
Proof.
  unfold compute_trend_and_flaky.
  rewrite (list_sort_map key_lt (title_time fromisoformat) core)
    by reflexivity.
  destruct (list_sort key_lt (title_time fromisoformat) all_rows) as [s|e];
    result_simpl; [|reflexivity].
  rewrite (score_loop_py_core (map core s) s); [reflexivity|].
  rewrite map_map. apply map_ext. intros r. apply core_core.
Qed.

(** C3. The engine run on its own output returns that output: every row
    keeps its trend, verdict and reasons.  The result is a function of
    the input cells alone: two inputs that differ in derived cells only
    (what an earlier run left there) give the same result. *)
Theorem engine_idempotent
    (fromisoformat : string -> option datetime) (all_rows out : list row) :
  compute_trend_and_flaky fromisoformat all_rows = Ok out ->
  compute_trend_and_flaky fromisoformat out = Ok out
  /\ (forall other_rows,
        map core other_rows = map core all_rows ->
        compute_trend_and_flaky fromisoformat other_rows = Ok out).
Proof.
  intros Hout. split.
  - pose proof (compute_Ok_range _ _ _ Hout) as Hrange.
    apply compute_Ok_inv in Hout. destruct Hout as [Hone ->].
    set (scored := score_pass (sort_title_time fromisoformat all_rows)).
    assert (Hsorted : sort_title_time fromisoformat
                        (sort_time fromisoformat scored) = scored)
      by (apply sort_title_time_sort_time, score_pass_sorted,
            sort_title_time_sorted).
    assert (Hrange' : in_float_range fromisoformat
                        (sort_time fromisoformat scored)).
    { unfold in_float_range. rewrite Hsorted.
      apply (R4_returns_core (sort_title_time fromisoformat all_rows));
        [symmetry; apply map_core_score_pass | exact Hrange]. }
    assert (Hone' : one_kind fromisoformat (sort_time fromisoformat scored)).
    { apply (one_kind_perm fromisoformat scored);
        [symmetry; apply sort_time_perm|].
      apply (one_kind_core fromisoformat (sort_title_time fromisoformat all_rows));
        [symmetry; apply map_core_score_pass|].
      apply (one_kind_perm fromisoformat all_rows);
        [symmetry; apply sort_title_time_perm | exact Hone]. }
    rewrite (compute_one_kind fromisoformat _ Hone' Hrange'), Hsorted.
    unfold scored. rewrite score_pass_idem. reflexivity.
  - intros other_rows Hcore.
    rewrite <- compute_reads_core, Hcore, compute_reads_core. exact Hout.
Qed.

Lemma engine_idempotent_witness :
  let out := sort_time iso_seconds
               (score_pass (sort_title_time iso_seconds scenario_two_titles)) in
  compute_trend_and_flaky iso_seconds out = Ok out
  /\ (forall other_rows,
        map core other_rows = map core scenario_two_titles ->
        compute_trend_and_flaky iso_seconds other_rows = Ok out).
Proof.
  apply (engine_idempotent iso_seconds scenario_two_titles).
  vm_compute. reflexivity.
Defined.

(** ** The returned list (C4) *)

Lemma StronglySorted_all {A} (R : A -> A -> Prop) (l : list A) :
  (forall x y, In x l -> In y l -> R x y) -> StronglySorted R l.
Proof.
  induction l as [|x l IH]; intros H; constructor.
  - apply IH. intros y z Hy Hz. apply H; right; assumption.
  - apply Forall_forall. intros y Hy. apply list_elem_of_In in Hy.
    apply H; [left; reflexivity | right; exact Hy].
Qed.

Lemma dt_eqb_eq (a b : datetime) : dt_eqb a b = true -> a = b.
Proof.
  destruct a, b; simpl; try discriminate; intros H; apply Z.eqb_eq in H;
    congruence.
Qed.

(** What the engine returns when the run times are all of one kind: the
    rows of the input, as many, with their input cells, in ascending
    order of run time (an unparsable run time being [datetime.min]), rows
    with the same run time in the order of the scoring pass. *)
Lemma compute_contract
    (fromisoformat : string -> option datetime) (all_rows : list row) :
  one_kind fromisoformat all_rows ->
  in_float_range fromisoformat all_rows ->
  exists out,
    compute_trend_and_flaky fromisoformat all_rows = Ok out
    /\ length out = length all_rows
    /\ Permutation (map core out) (map core all_rows)
    /\ sorted_time fromisoformat out
    /\ (forall d,
          List.filter (at_time fromisoformat d) out
          = List.filter (at_time fromisoformat d)
              (score_pass (sort_title_time fromisoformat all_rows))).
Proof.
  intros Hone Hrange. eexists. split; [apply compute_one_kind; assumption|].
  assert (Hperm : Permutation
            (map core (sort_time fromisoformat
                         (score_pass (sort_title_time fromisoformat all_rows))))
            (map core all_rows)).
  { rewrite (Permutation_map core (sort_time_perm fromisoformat _)).
    rewrite map_core_score_pass.
    apply Permutation_map, sort_title_time_perm. }
  split; [|split; [exact Hperm | split]].
  - apply Permutation_length in Hperm. rewrite !length_map in Hperm. exact Hperm.
  - apply sort_time_sorted.
  - intros d. unfold sort_time.
    rewrite (filter_sort_pure dt_ltb (time_of fromisoformat)
               dt_ltb_irrefl dt_ltb_trans dt_ltb_ntrans).
    apply (sort_pure_id dt_ltb (time_of fromisoformat)).
    apply StronglySorted_all. intros x y Hx Hy.
    apply filter_In in Hx, Hy. destruct Hx as [_ Hx], Hy as [_ Hy].
    unfold at_time in Hx, Hy. apply dt_eqb_eq in Hx, Hy.
    unfold not_after. rewrite Hx, Hy. apply dt_ltb_irrefl.
Qed.

(** C4, where the code departs from it.  The input holds a run time with
    an offset, which [parse_dt] reads as an aware timestamp, and an
    unparsable one, which [parse_dt] reads as [datetime.min], a naive
    timestamp: the first sort compares the two and raises [TypeError], so
    that no list is returned. *)
Theorem unparsable_run_at_with_aware_run_at_raises :
  parse_dt iso_seconds "" = datetime_min
  /\ is_aware (parse_dt iso_seconds "2024-03-01T10:00:00Z") = true
  /\ is_aware datetime_min = false
  /\ compute_trend_and_flaky iso_seconds scenario_mixed = Raise TypeError
  /\ ~ one_kind iso_seconds scenario_mixed.
Proof.
  do 4 (split; [vm_compute; reflexivity|]).
  unfold one_kind, scenario_mixed. intros Hone.
  pose proof (Hone _ _ (or_introl eq_refl) (or_intror (or_introl eq_refl)))
    as H.
  vm_compute in H. discriminate H.
Qed.
(** ** Rule R4 (C7) *)

(** *** [sorted] and [max] *)










(** *** The median *)



(** *** The variance *)

Local Open Scope Q_scope.






Local Close Scope Q_scope.







(** ** The normalizer and the script (C6, C8) *)

Lemma text_or_falsy_or (a b : json) :
  text_or_falsy a -> text_or_falsy b -> text_or_falsy (py_or a b).
Proof.
  intros Ha Hb. unfold py_or. destruct (truthy a) eqn:Hta; [|exact Hb].
  destruct Ha as [Ha | Ha]; [congruence | right; exact Ha].
Qed.

Lemma text_or_falsy_text (v : json) :
  text_or_falsy v -> exists s, py_or v (JStr "") = JStr s.
Proof.
  intros [Hv | [s ->]]; unfold py_or.
  - rewrite Hv. eauto.
  - destruct (truthy (JStr s)); eauto.
Qed.

Section ScriptFacts.
Variable decode_utf8 : string -> option string.
Variable json_loads : string -> json + string.
Variable int_of_text : string -> option Z.
Variable csv_read : string -> result (list row).
Variable csv_write : list row -> string.
Variable writerow_error : row -> option exn.
Variable can_write : string -> bool.
Variable DOC : string.

Local Abbreviation load_json := (load_json decode_utf8 json_loads).
Local Abbreviation merged_rows :=
  (merged_rows decode_utf8 json_loads int_of_text csv_read).
Local Abbreviation main_with :=
  (main_with decode_utf8 json_loads int_of_text csv_read csv_write
     writerow_error can_write DOC).
Local Abbreviation fatal_input := (fatal_input decode_utf8 json_loads int_of_text).

Lemma bind_Ok {A B} (m : result A) (f : A -> result B) (b : B) :
  (x ← m; f x) = Ok b -> exists a, m = Ok a /\ f a = Ok b.
Proof. destruct m as [a|e]; simpl; [eauto | discriminate]. Qed.

Lemma new_rows_of_spec (items : list json) (rows : list row) :
  new_rows_of int_of_text items = Ok rows ->
  Forall2 (fun it r => to_row int_of_text it = Ok r)
    (List.filter has_attributes items) rows.
Proof.
  revert rows. induction items as [|it items IH]; intros rows; simpl.
  - intros [= <-]. constructor.
  - intros H. apply bind_Ok in H. destruct H as (attributes & Hget & H).
    destruct it as [| | | | | |entries]; try discriminate.
    simpl in Hget. injection Hget as <-. simpl.
    destruct (truthy (dict_get "attributes" entries)); [|apply IH; exact H].
    apply bind_Ok in H. destruct H as (r & Hr & H).
    apply bind_Ok in H. destruct H as (rows' & Hrows & [= <-]).
    constructor; [exact Hr | apply IH; exact Hrows].
Qed.

Lemma to_row_title (item : json) (r : row) :
  to_row int_of_text item = Ok r ->
  exists s,
    py_or (dict_get "title" (attributes_of item)) (JStr "") = JStr s
    /\ title r = strip s.
Proof.
  unfold to_row. intros H.
  apply bind_Ok in H. destruct H as (attr0 & Hattr0 & H).
  apply bind_Ok in H. destruct H as (attr & Hattr & H).
  apply bind_Ok in H. destruct H as (t & Ht & H).
  apply bind_Ok in H. destruct H as (at_ & _ & H).
  apply bind_Ok in H. destruct H as (id_ & _ & H).
  apply bind_Ok in H. destruct H as (st & _ & [= <-]).
  assert (Hof : attributes_of item = attr).
  { destruct item as [| | | | | |entries]; try discriminate.
    unfold py_get_default in Hattr0. simpl in Hattr0. simpl.
    destruct (lookup_entry "attributes" entries) as [v|].
    - injection Hattr0 as <-.
      destruct v; try discriminate. injection Hattr as <-. reflexivity.
    - injection Hattr0 as <-. injection Hattr as <-. reflexivity. }
  rewrite Hof. simpl.
  destruct (py_or (dict_get "title" attr) (JStr "")) as [| | | |s| |];
    try discriminate.
  injection Ht as <-. exists s. auto.
Qed.

Lemma merged_rows_Ok engine (w : world) (in_json out_csv : string)
    (merged : list row) :
  merged_rows engine w in_json out_csv = Ok merged ->
  exists doc items new_rows existing,
    load_json w in_json = Ok doc
    /\ parse_items doc = Ok items
    /\ new_rows_of int_of_text items = Ok new_rows
    /\ new_rows <> []
    /\ read_existing_csv csv_read w out_csv = Ok existing
    /\ engine (existing ++ new_rows) = Ok merged.
Proof.
  unfold merged_rows. intros H.
  apply bind_Ok in H. destruct H as (doc & Hdoc & H).
  apply bind_Ok in H. destruct H as (items & Hitems & H).
  apply bind_Ok in H. destruct H as (new_rows & Hnew & H).
  destruct new_rows as [|r new_rows]; [discriminate|].
  apply bind_Ok in H. destruct H as (existing & Hex & H).
  exists doc, items, (r :: new_rows), existing. repeat split; try assumption.
  discriminate.
Qed.

(** C8. When the input file cannot be read, is not UTF-8 or not JSON,
    holds no item collection, or gives no new row, the script ends with
    an error, the same whatever the engine is, that is without running
    it, and the files are as they were: nothing is written. *)
Theorem fatal_input_aborts_before_engine_and_output
    (w : world) (prog in_json out_csv : string) :
  fatal_input w in_json ->
  exists e,
    (forall engine,
       main_with engine [prog; in_json; out_csv] w = (w, Raise e))
    /\ (forall fromisoformat,
          main decode_utf8 json_loads int_of_text csv_read csv_write
            writerow_error can_write DOC fromisoformat
            [prog; in_json; out_csv] w = (w, Raise e)).
Proof.
  intros Hfatal.
  assert (Hmerged : exists e, forall engine,
             merged_rows engine w in_json out_csv = Raise e).
  { unfold merged_rows.
    destruct Hfatal as [Hfile | data Hfile Hdec | data text e Hfile Hdec Hjson
                        | doc e Hdoc Hitems | doc items Hdoc Hitems Hrows].
    - exists OSError. intros engine. unfold load_json. rewrite Hfile. reflexivity.
    - eexists. intros engine. unfold load_json. rewrite Hfile, Hdec. reflexivity.
    - eexists. intros engine. unfold load_json. rewrite Hfile, Hdec, Hjson.
      reflexivity.
    - exists e. intros engine. rewrite Hdoc. simpl. rewrite Hitems. reflexivity.
    - eexists. intros engine. rewrite Hdoc. simpl. rewrite Hitems. simpl.
      rewrite Hrows. reflexivity. }
  destruct Hmerged as [e He]. exists e. split.
  - intros engine. unfold main_with. rewrite He. reflexivity.
  - intros fromisoformat. unfold main, main_with. rewrite He. reflexivity.
Qed.

(** [to_row] returns a row when the attributes are a dict whose text
    cells are text, or falsy. *)
Lemma to_row_returns (entries attr : list (string * json)) :
  lookup_entry "attributes" entries = Some (JDict attr) ->
  (forall k, In k TEXT_KEYS -> text_or_falsy (dict_get k attr)) ->
  exists r, to_row int_of_text (JDict entries) = Ok r.
Proof.
  intros Hattr Hk.
  destruct (text_or_falsy_text _
              (text_or_falsy_or _ _
                 (text_or_falsy_or _ _ (Hk "created-at" ltac:(simpl; tauto))
                    (Hk "created_at" ltac:(simpl; tauto)))
                 (Hk "run_at" ltac:(simpl; tauto)))) as [at_ Hat].
  destruct (text_or_falsy_text _
              (text_or_falsy_or _ _ (Hk "run-id" ltac:(simpl; tauto))
                 (Hk "run_id" ltac:(simpl; tauto)))) as [id_ Hid].
  destruct (text_or_falsy_text _ (Hk "title" ltac:(simpl; tauto))) as [ti Hti].
  destruct (text_or_falsy_text _ (Hk "status" ltac:(simpl; tauto))) as [st Hst].
  unfold to_row, py_get_default. simpl. rewrite Hattr. simpl.
  rewrite Hti, Hat, Hid, Hst. simpl.
  assert (Hor : py_or (JStr id_) (JStr at_)
                = JStr (if String.eqb id_ "" then at_ else id_)).
  { unfold py_or. simpl. destruct (String.eqb id_ ""); reflexivity. }
  rewrite Hor. simpl. eexists. reflexivity.
Qed.

Lemma rows_written_Ok (rows written : list row) :
  rows_written writerow_error rows = (written, Ok tt) ->
  written = rows /\ forall r, In r rows -> writerow_error r = None.
Proof.
  revert written. induction rows as [|r rows IH]; intros written; simpl.
  - intros [= <-]. split; [reflexivity | intros r []].
  - destruct (writerow_error r) as [e|] eqn:Hr; [discriminate|].
    destruct (rows_written writerow_error rows) as [done res] eqn:Hrest.
    intros [= <- ->]. destruct (IH done eq_refl) as [-> Hall].
    split; [reflexivity|]. intros x [<-|Hx]; [exact Hr | apply Hall; exact Hx].
Qed.

Lemma rows_written_all (rows : list row) :
  (forall r, In r rows -> writerow_error r = None) ->
  rows_written writerow_error rows = (rows, Ok tt).
Proof.
  induction rows as [|r rows IH]; intros Hall; simpl; [reflexivity|].
  rewrite (Hall r) by (left; reflexivity).
  rewrite IH by (intros x Hx; apply Hall; right; exact Hx). reflexivity.
Qed.

(** What is written when a row fails: the rows before it. *)
Lemma rows_written_Raise (rows written : list row) (e : exn) :
  rows_written writerow_error rows = (written, Raise e) ->
  exists r rest,
    rows = written ++ r :: rest
    /\ writerow_error r = Some e
    /\ forall x, In x written -> writerow_error x = None.
Proof.
  revert written. induction rows as [|r rows IH]; intros written; simpl;
    [discriminate|].
  destruct (writerow_error r) as [e'|] eqn:Hr.
  - intros [= <- <-]. exists r, rows. split; [reflexivity|].
    split; [exact Hr | intros x []].
  - destruct (rows_written writerow_error rows) as [done res] eqn:Hrest.
    intros [= <- ->].
    destruct (IH done eq_refl) as (x & rest & -> & Hx & Hdone).
    exists x, rest. split; [reflexivity|]. split; [exact Hx|].
    intros y [<-|Hy]; [exact Hr | apply Hdone; exact Hy].
Qed.

(** A run without error: the steps of [main] that were taken. *)
Lemma main_with_Ok engine (argv : list string) (w w' : world) :
  main_with engine argv w = (w', Ok tt) ->
  exists prog in_json out_csv merged,
    argv = [prog; in_json; out_csv]
    /\ merged_rows engine w in_json out_csv = Ok merged
    /\ can_write out_csv = true
    /\ (forall r, In r merged -> writerow_error r = None)
    /\ w' = print {| files := <[out_csv := csv_write merged]> (files w);
                     stdout := stdout w |}
               ("[OK] Updated CSV: " +:+ out_csv +:+ "  (rows="
                +:+ pretty (length merged) +:+ ")").
Proof.
  unfold main_with.
  destruct argv as [|prog [|in_json [|out_csv [|extra argv]]]];
    try discriminate.
  destruct (merged_rows engine w in_json out_csv) as [merged|e] eqn:Hmerged;
    [|discriminate].
  unfold write_full_csv.
  destruct (can_write out_csv) eqn:Hcan; [|discriminate].
  destruct (rows_written writerow_error merged) as [written [[]|e]] eqn:Hw;
    [|discriminate].
  apply rows_written_Ok in Hw. destruct Hw as [-> Hall].
  intros [= <-]. exists prog, in_json, out_csv, merged. auto.
Qed.

(** C6, as the code has it.  Items are left out for their [attributes]
    alone: an item whose [attributes] value is missing or falsy gives no
    row, and an item that is not a dict ends the run.  Every other item
    goes through [to_row], whatever its title: [to_row] raises when the
    attributes are not a dict or the title is neither text nor falsy, and
    the run ends; it returns a row when the attributes are a dict whose
    text cells are text or falsy, and the title of the row is the title
    attribute with the surrounding whitespace stripped, the empty text
    when the attribute is missing or falsy.  The title is not looked at
    again: in a run without error the rows of the kept items are handed
    to the engine with the rows of the ledger, and the ledger that is
    written holds the rows the engine returns, as many, with the same
    input cells. *)
Theorem items_are_kept_by_attributes_not_by_title :
  (forall it rest,
     (forall entries, it <> JDict entries) ->
     new_rows_of int_of_text (it :: rest) = Raise AttributeError)
  /\ (forall entries rest,
        truthy (dict_get "attributes" entries) = false ->
        new_rows_of int_of_text (JDict entries :: rest)
        = new_rows_of int_of_text rest)
  /\ (forall entries rest,
        truthy (dict_get "attributes" entries) = true ->
        new_rows_of int_of_text (JDict entries :: rest)
        = (r ← to_row int_of_text (JDict entries);
           rows ← new_rows_of int_of_text rest;
           Ok (r :: rows)))
  /\ (forall entries v,
        lookup_entry "attributes" entries = Some v ->
        (forall attr, v <> JDict attr) ->
        to_row int_of_text (JDict entries) = Raise AttributeError)
  /\ (forall entries attr,
        lookup_entry "attributes" entries = Some (JDict attr) ->
        truthy (dict_get "title" attr) = true ->
        (forall s, dict_get "title" attr <> JStr s) ->
        to_row int_of_text (JDict entries) = Raise AttributeError)
  /\ (forall entries attr,
        lookup_entry "attributes" entries = Some (JDict attr) ->
        (forall k, In k TEXT_KEYS -> text_or_falsy (dict_get k attr)) ->
        exists r s,
          to_row int_of_text (JDict entries) = Ok r
          /\ py_or (dict_get "title" attr) (JStr "") = JStr s
          /\ title r = strip s
          /\ (truthy (dict_get "title" attr) = false -> title r = ""))
  /\ (forall fromisoformat argv w w',
        main decode_utf8 json_loads int_of_text csv_read csv_write
          writerow_error can_write DOC fromisoformat argv w = (w', Ok tt) ->
        exists prog in_json out_csv doc items new_rows existing merged,
          argv = [prog; in_json; out_csv]
          /\ load_json w in_json = Ok doc
          /\ parse_items doc = Ok items
          /\ Forall2 (fun it r => to_row int_of_text it = Ok r)
               (List.filter has_attributes items) new_rows
          /\ read_existing_csv csv_read w out_csv = Ok existing
          /\ compute_trend_and_flaky fromisoformat (existing ++ new_rows)
             = Ok merged
          /\ length merged = length (existing ++ new_rows)
          /\ Permutation (map core merged) (map core (existing ++ new_rows))
          /\ files w' !! out_csv = Some (csv_write merged)).
Proof.
  split; [|split; [|split; [|split; [|split; [|split]]]]].
  - intros it rest Hit. simpl.
    destruct it as [| | | | | |entries]; try reflexivity.
    exfalso. apply (Hit entries). reflexivity.
  - intros entries rest Hattr. simpl. rewrite Hattr. reflexivity.
  - intros entries rest Hattr. simpl. rewrite Hattr. reflexivity.
  - intros entries v Hv Hnot. unfold to_row, py_get_default. simpl.
    rewrite Hv. simpl.
    destruct v as [| | | | | |attr]; try reflexivity.
    exfalso. apply (Hnot attr). reflexivity.
  - intros entries attr Hattr Htruthy Hnot.
    assert (Hor : py_or (dict_get "title" attr) (JStr "")
                  = dict_get "title" attr)
      by (unfold py_or; rewrite Htruthy; reflexivity).
    unfold to_row, py_get_default. cbn [as_dict]. result_simpl.
    rewrite Hattr. cbn [as_dict]. result_simpl. rewrite Hor.
    destruct (dict_get "title" attr) as [| | | |s| |] eqn:Ht; try reflexivity.
    exfalso. apply (Hnot s). reflexivity.
  - intros entries attr Hattr Htext.
    destruct (to_row_returns entries attr Hattr Htext) as [r Hr].
    destruct (to_row_title _ r Hr) as (s & Hs & Htitle).
    simpl in Hs. rewrite Hattr in Hs.
    exists r, s. split; [exact Hr|]. split; [exact Hs|].
    split; [exact Htitle|].
    intros Hfalsy. rewrite Htitle. unfold py_or in Hs. rewrite Hfalsy in Hs.
    injection Hs as <-. reflexivity.
  - intros fromisoformat argv w w' Hrun. unfold main in Hrun.
    destruct (main_with_Ok _ argv w w' Hrun)
      as (prog & in_json & out_csv & merged & -> & Hmerged & _ & _ & ->).
    destruct (merged_rows_Ok _ w in_json out_csv merged Hmerged)
      as (doc & items & new_rows & existing & Hdoc & Hitems & Hnew & _
          & Hex & Heng).
    exists prog, in_json, out_csv, doc, items, new_rows, existing, merged.
    split; [reflexivity|]. split; [exact Hdoc|]. split; [exact Hitems|].
    split; [apply new_rows_of_spec; exact Hnew|].
    split; [exact Hex|]. split; [exact Heng|].
    pose proof (compute_Ok_inv fromisoformat _ _ Heng) as [Hone _].
    destruct (compute_contract fromisoformat _ Hone
                (compute_Ok_range _ _ _ Heng))
      as (out' & Hout' & Hlen & Hperm & _).
    assert (out' = merged) by congruence. subst out'.
    split; [exact Hlen|]. split; [exact Hperm|].
    simpl. apply lookup_insert_eq.
Qed.
End ScriptFacts.

Lemma fatal_input_aborts_before_engine_and_output_witness :
  exists e,
    (forall engine,
       main_with Some (sample_loads scenario_empty_doc) int_of_decimal
         sample_csv_read sample_csv_write writes_all (fun _ => true) ""
         engine ["prog"; "run.json"; "out/ledger.csv"] scenario_world
       = (scenario_world, Raise e))
    /\ (forall fromisoformat,
          main Some (sample_loads scenario_empty_doc) int_of_decimal
            sample_csv_read sample_csv_write writes_all (fun _ => true) ""
            fromisoformat ["prog"; "run.json"; "out/ledger.csv"] scenario_world
          = (scenario_world, Raise e)).
Proof.
  apply (fatal_input_aborts_before_engine_and_output
           Some (sample_loads scenario_empty_doc) int_of_decimal
           sample_csv_read sample_csv_write writes_all (fun _ => true) ""
           scenario_world "prog" "run.json" "out/ledger.csv").
  apply (No_new_rows _ _ _ _ _ scenario_empty_doc []); reflexivity.
Defined.

Lemma items_are_kept_by_attributes_not_by_title_witness :
  let argv := ["prog"; "run.json"; "out/ledger.csv"] in
  let w' :=
    fst (main Some (sample_loads scenario_untitled_doc) int_of_decimal
           sample_csv_read sample_csv_write writes_all (fun _ => true) ""
           iso_seconds argv scenario_world) in
  exists prog in_json out_csv doc items new_rows existing merged,
    argv = [prog; in_json; out_csv]
    /\ load_json Some (sample_loads scenario_untitled_doc) scenario_world in_json
       = Ok doc
    /\ parse_items doc = Ok items
    /\ Forall2 (fun it r => to_row int_of_decimal it = Ok r)
         (List.filter has_attributes items) new_rows
    /\ read_existing_csv sample_csv_read scenario_world out_csv = Ok existing
    /\ compute_trend_and_flaky iso_seconds (existing ++ new_rows) = Ok merged
    /\ length merged = length (existing ++ new_rows)
    /\ Permutation (map core merged) (map core (existing ++ new_rows))
    /\ files w' !! out_csv = Some (sample_csv_write merged).
Proof.
  apply (proj2 (proj2 (proj2 (proj2 (proj2 (proj2
           (items_are_kept_by_attributes_not_by_title
              Some (sample_loads scenario_untitled_doc) int_of_decimal
              sample_csv_read sample_csv_write writes_all (fun _ => true) ""))))))
           iso_seconds).
  vm_compute. reflexivity.
Defined.

(** An item with attributes and no title: its row has the empty title,
    is scored, and is written to the ledger. *)
Lemma untitled_item_is_scored_and_written :
  exists r0 r w',
    (items ← parse_items scenario_untitled_doc; new_rows_of int_of_decimal items)
    = Ok [r0]
    /\ title r0 = ""
    /\ compute_trend_and_flaky iso_seconds [r0] = Ok [r]
    /\ title r = ""
    /\ trend_last5 r = PASS_GLYPH
    /\ main Some (sample_loads scenario_untitled_doc) int_of_decimal
         sample_csv_read sample_csv_write writes_all (fun _ => true) ""
         iso_seconds ["prog"; "run.json"; "out/ledger.csv"] scenario_world
       = (w', Ok tt)
    /\ files w' !! "out/ledger.csv" = Some (sample_csv_write [r]).
Proof.
  do 3 eexists.
  split; [vm_compute; reflexivity|].
  split; [reflexivity|].
  split; [vm_compute; reflexivity|].
  split; [reflexivity|].
  split; [reflexivity|].
  split; [unfold main, main_with; vm_compute; reflexivity|].
  vm_compute. reflexivity.
Qed.

(** * Further properties of the engine *)

(** ** Score, verdict and reasons *)

Lemma reasons_of_spec (history : list row) (r : row) :
  reasons_of history r =
    (if rule_R1 (trend_syms history r) then [REASON_R1] else [])
    ++ (if rule_R3 r then [REASON_R3] else [])
    ++ (if rule_R4 (durations history r) then [REASON_R4] else []).
Proof. unfold reasons_of. rewrite rules_spec. reflexivity. Qed.

(** X1. The verdict is a threshold on the score alone: R1 is worth 40, so
    that the second disjunct of line 144 never decides.  The score is one
    of 0, 20, 40, 60, 80, it is the sum of the points of the reasons, and
    the reasons text is empty exactly for the score 0. *)
Theorem verdict_is_threshold_on_score (history : list row) (r : row) :
  (is_flaky (score_row history r) = "yes" <-> 40 <= score_of history r)
  /\ (is_flaky (score_row history r) = "no" <-> score_of history r <= 20)
  /\ In (score_of history r) [0; 20; 40; 60; 80]
  /\ score_of history r = fold_right Z.add 0 (map points (reasons_of history r))
  /\ (reasons (score_row history r) = "" <-> score_of history r = 0).
Proof.
  rewrite is_flaky_verdict, reasons_text, score_of_spec, reasons_of_spec.
  destruct (rule_R1 (trend_syms history r)), (rule_R3 r),
    (rule_R4 (durations history r)); vm_compute;
    repeat split; intros; try discriminate; try congruence; auto 10.
Qed.

(** ** The trend as a sliding window *)

Lemma last_n_last_n {A} (n m : nat) (l : list A) :
  last_n n (last_n m l) = last_n (Nat.min n m) l.
Proof.
  unfold last_n. rewrite length_drop, drop_drop. f_equal. lia.
Qed.

Lemma last_n_snoc {A} (n : nat) (l : list A) (x : A) :
  last_n (S n) (l ++ [x]) = last_n n l ++ [x].
Proof.
  unfold last_n. rewrite length_app. simpl.
  replace (length l + 1 - S n)%nat with (length l - n)%nat by lia.
  rewrite drop_app_le by lia. reflexivity.
Qed.

(** X2. The trend of a row is the trend of the row before it in its title,
    with the glyph of the row added and the oldest glyph dropped when
    there are more than five. *)
Theorem trend_slides_by_one (history : list row) (r next : row) :
  trend_syms (history ++ [r]) next
  = last_n 5 (trend_syms history r ++ [status_symbol (status next)]).
Proof.
  unfold trend_syms. rewrite map_app. simpl map.
  set (A := map (fun h : row => status_symbol (status h)) history).
  set (x := status_symbol (status r)).
  set (y := status_symbol (status next)).
  rewrite (last_n_snoc 4 (last_n 4 (A ++ [x])) y), last_n_last_n.
  rewrite (last_n_snoc 4 (last_n 5 (last_n 4 A ++ [x])) y), last_n_last_n.
  simpl Nat.min.
  rewrite (last_n_snoc 3 A x), (last_n_snoc 3 (last_n 4 A) x), last_n_last_n.
  reflexivity.
Qed.

(** ** The first run of a title *)

Lemma history_of_none (t : string) (rows : list row) :
  (forall x, In x rows -> title x <> t) -> history_of t rows = [].
Proof.
  induction rows as [|x rows IH]; intros Hnone; [reflexivity|].
  unfold history_of. simpl.
  destruct (String.eqb_spec (title x) t) as [Heq | _].
  - exfalso. apply (Hnone x); [left; reflexivity | exact Heq].
  - apply IH. intros y Hy. apply Hnone. right. exact Hy.
Qed.

Lemma title_in_score_pass (rows : list row) (x : row) :
  In x (score_pass rows) -> exists y, In y rows /\ title y = title x.
Proof.
  intros Hx.
  destruct (in_map_core x (score_pass rows) rows (map_core_score_pass rows) Hx)
    as (y & Hy & Hcore).
  exists y. split; [exact Hy|]. apply same_core_fields in Hcore. tauto.
Qed.

(** X4. A row that is the first of its title in the (title, time) order gets
    a trend of one glyph and the verdict ["no"]: R1 and R4 cannot fire on
    it, and R3 alone is worth 20. *)
Theorem first_run_of_a_title_is_not_flaky
    (fromisoformat : string -> option datetime)
    (all_rows out l1 : list row) (r : row) (l2 : list row) :
  compute_trend_and_flaky fromisoformat all_rows = Ok out ->
  sort_title_time fromisoformat all_rows = l1 ++ r :: l2 ->
  (forall x, In x l1 -> title x <> title r) ->
  In (score_row [] r) out
  /\ trend_last5 (score_row [] r) = status_symbol (status r)
  /\ is_flaky (score_row [] r) = "no"
  /\ (reasons (score_row [] r) = "" \/ reasons (score_row [] r) = REASON_R3).
Proof.
  intros Hout Hsplit Hfirst.
  apply compute_Ok_inv in Hout. destruct Hout as [_ ->].
  assert (Hhist : history_of (title r) (score_pass l1) = []).
  { apply history_of_none. intros x Hx.
    destruct (title_in_score_pass l1 x Hx) as (y & Hy & <-).
    apply Hfirst. exact Hy. }
  assert (H1 : rule_R1 (trend_syms [] r) = false).
  { unfold trend_syms, rule_R1. simpl.
    destruct (status_symbol_cases (status r)) as [-> | [-> | ->]]; reflexivity. }
  assert (H4 : rule_R4 (durations [] r) = false).
  { unfold durations. simpl. destruct (duration_ms r); reflexivity. }
  split; [|split; [|split]].
  - apply (Permutation_in _ (Permutation_sym (sort_time_perm fromisoformat _))).
    rewrite Hsplit, score_pass_at, Hhist.
    apply in_or_app. right. left. reflexivity.
  - destruct (score_row_fields [] r) as (-> & _). unfold trend_syms. simpl.
    unfold last_n. reflexivity.
  - rewrite is_flaky_verdict, score_of_spec, H1, H4.
    destruct (rule_R3 r); reflexivity.
  - rewrite reasons_text, reasons_of_spec, H1, H4.
    destruct (rule_R3 r); auto.
Qed.

Lemma first_run_of_a_title_is_not_flaky_witness :
  In (score_row [] scenario_row_A)
    (sort_time iso_seconds (score_pass (sort_title_time iso_seconds scenario_two_titles)))
  /\ trend_last5 (score_row [] scenario_row_A) = status_symbol (status scenario_row_A)
  /\ is_flaky (score_row [] scenario_row_A) = "no"
  /\ (reasons (score_row [] scenario_row_A) = ""
      \/ reasons (score_row [] scenario_row_A) = REASON_R3).
Proof.
  apply (first_run_of_a_title_is_not_flaky iso_seconds scenario_two_titles _ []
           scenario_row_A
           [new_row "2024-03-01T10:00:00Z" "T" "failed" 0 (Some 100);
            new_row "2024-03-03T10:00:00Z" "T" "failed" 0 (Some 120);
            new_row "2024-03-04T10:00:00Z" "T" "passed" 2 None]).
  - vm_compute. reflexivity.
  - vm_compute. reflexivity.
  - intros x [].
Defined.

(** ** Titles are scored on their own *)

Lemma compute_filter (fromisoformat : string -> option datetime)
    (p : row -> bool) (all_rows out : list row) :
  reads_input_only p ->
  drops_later_rows_only p (sort_title_time fromisoformat all_rows) ->
  compute_trend_and_flaky fromisoformat all_rows = Ok out ->
  compute_trend_and_flaky fromisoformat (List.filter p all_rows)
  = Ok (List.filter p out).
Proof.
  intros Hp Hlater Hout.
  pose proof (compute_Ok_range _ _ _ Hout) as Hrange.
  apply compute_Ok_inv in Hout. destruct Hout as [Hone ->].
  rewrite compute_one_kind
    by (first [apply one_kind_filter; exact Hone
              | apply in_float_range_filter; assumption]).
  f_equal. unfold sort_time, sort_title_time in *.
  rewrite <- (filter_sort_pure key_ltb (title_time fromisoformat)
                key_ltb_irrefl key_ltb_trans key_ltb_ntrans).
  rewrite (score_pass_filter p _ Hp Hlater).
  symmetry.
  apply (filter_sort_pure dt_ltb (time_of fromisoformat)
           dt_ltb_irrefl dt_ltb_trans dt_ltb_ntrans).
Qed.

(** X5. The rows of a title get the derived cells they would get if the
    input held that title alone: the engine run on the rows of one title
    returns the rows of that title of the full run, in the same order. *)
Theorem titles_are_scored_independently
    (fromisoformat : string -> option datetime)
    (t : string) (all_rows out : list row) :
  compute_trend_and_flaky fromisoformat all_rows = Ok out ->
  compute_trend_and_flaky fromisoformat (List.filter (has_title t) all_rows)
  = Ok (List.filter (has_title t) out).
Proof.
  apply compute_filter.
  - intros r. reflexivity.
  - intros l1 x l2 y _ _ Hxy. unfold has_title. rewrite Hxy. auto.
Qed.

Lemma titles_are_scored_independently_witness :
  compute_trend_and_flaky iso_seconds (List.filter (has_title "T") scenario_two_titles)
  = Ok (List.filter (has_title "T")
          (sort_time iso_seconds
             (score_pass (sort_title_time iso_seconds scenario_two_titles)))).
Proof.
  apply (titles_are_scored_independently iso_seconds "T" scenario_two_titles).
  vm_compute. reflexivity.
Defined.

(** ** What the engine raises *)

Section SortRaises.
Context {A K : Type}.
Variable lt : K -> K -> result bool.
Variable key : A -> K.
Variable the_exn : exn.
Hypothesis lt_raises : forall a b e, lt a b = Raise e -> e = the_exn.

Lemma sort_insert_raises x l e :
  sort_insert lt key x l = Raise e -> e = the_exn.
Proof.
  induction l as [|y l IH]; simpl; [discriminate|].
  destruct (lt (key y) (key x)) as [[|]|e'] eqn:Hlt; simpl.
  - destruct (sort_insert lt key x l) as [s|e'']; simpl; [discriminate|].
    intros [= <-]. apply IH. reflexivity.
  - discriminate.
  - intros [= <-]. apply (lt_raises _ _ _ Hlt).
Qed.

Lemma list_sort_raises l e :
  list_sort lt key l = Raise e -> e = the_exn.
Proof.
  induction l as [|x l IH]; simpl; [discriminate|].
  destruct (list_sort lt key l) as [s|e'] eqn:Hs; simpl.
  - apply sort_insert_raises.
  - intros [= <-]. apply IH. reflexivity.
Qed.
End SortRaises.

Lemma dt_lt_raises (a b : datetime) (e : exn) : dt_lt a b = Raise e -> e = TypeError.
Proof. destruct a, b; simpl; congruence. Qed.

Lemma key_lt_raises (a b : string * datetime) (e : exn) :
  key_lt a b = Raise e -> e = TypeError.
Proof.
  unfold key_lt. destruct (String.eqb (fst a) (fst b)); [|discriminate].
  destruct (dt_eqb (snd a) (snd b)); [discriminate | apply dt_lt_raises].
Qed.

Lemma compute_raises (fromisoformat : string -> option datetime)
    (all_rows : list row) (e : exn) :
  compute_trend_and_flaky fromisoformat all_rows = Raise e ->
  e = TypeError \/ e = OverflowError.
Proof.
  unfold compute_trend_and_flaky.
  destruct (list_sort key_lt (title_time fromisoformat) all_rows) as [s|e'] eqn:Hs;
    result_simpl.
  - destruct (score_loop_py ∅ s) as [scored|e'] eqn:Hscored; result_simpl.
    + intros H. left.
      apply (list_sort_raises dt_lt _ TypeError dt_lt_raises _ _ H).
    + intros [= <-]. right. apply (score_loop_py_raises _ _ _ Hscored).
  - intros [= <-]. left.
    apply (list_sort_raises key_lt _ TypeError key_lt_raises _ _ Hs).
Qed.

(** X7. On rows whose cells are as [row] has them (text, and retries and
    durations that [int] reads), the engine raises nothing but
    [TypeError] and [OverflowError].  It returns a list exactly when the
    run times of its input are of one kind, all naive (the unparsable
    ones among them) or all aware, and the test of rule R4 stays in the
    range of the floats on every row.  When only the second fails it
    raises [OverflowError], when only the first fails, [TypeError]. *)
Theorem engine_raises_TypeError_or_OverflowError_only
    (fromisoformat : string -> option datetime) (all_rows : list row) :
  ((exists out, compute_trend_and_flaky fromisoformat all_rows = Ok out)
   <-> one_kind fromisoformat all_rows
       /\ in_float_range fromisoformat all_rows)
  /\ (forall e, compute_trend_and_flaky fromisoformat all_rows = Raise e ->
                e = TypeError \/ e = OverflowError)
  /\ (one_kind fromisoformat all_rows ->
      ~ in_float_range fromisoformat all_rows ->
      compute_trend_and_flaky fromisoformat all_rows = Raise OverflowError)
  /\ (in_float_range fromisoformat all_rows ->
      ~ one_kind fromisoformat all_rows ->
      compute_trend_and_flaky fromisoformat all_rows = Raise TypeError).
Proof.
  split; [apply compute_Ok_iff|]. split; [apply compute_raises|]. split.
  - intros Hone Hrange. unfold compute_trend_and_flaky.
    rewrite (list_sort_pure key_lt key_ltb (title_time fromisoformat)).
    2:{ intros x y Hx Hy. apply key_lt_same_kind. apply Hone; assumption. }
    result_simpl.
    destruct (score_loop_py ∅ _) as [scored|e] eqn:Hscored; result_simpl.
    + exfalso. apply Hrange. apply (score_pass_py_inv _ _ Hscored).
    + rewrite (score_loop_py_raises _ _ _ Hscored). reflexivity.
  - intros Hrange Hmixed. unfold compute_trend_and_flaky.
    destruct (list_sort key_lt (title_time fromisoformat) all_rows)
      as [s|e] eqn:Hs; result_simpl.
    + pose proof (list_sort_Ok key_lt key_ltb (title_time fromisoformat)
                    key_lt_ltb _ _ Hs) as ->.
      change (sort_pure key_ltb (title_time fromisoformat) all_rows)
        with (sort_title_time fromisoformat all_rows) in *.
      rewrite (score_pass_py _ Hrange). result_simpl.
      destruct (list_sort dt_lt _ _) as [out|e] eqn:Hout.
      * exfalso. apply Hmixed.
        apply (compute_Ok_inv fromisoformat all_rows out).
        unfold compute_trend_and_flaky. rewrite Hs. result_simpl.
        rewrite (score_pass_py _ Hrange). result_simpl. exact Hout.
      * rewrite (list_sort_raises dt_lt _ TypeError dt_lt_raises _ _ Hout).
        reflexivity.
    + rewrite (list_sort_raises key_lt _ TypeError key_lt_raises _ _ Hs).
      reflexivity.
Qed.

Lemma engine_raises_TypeError_or_OverflowError_only_witness :
  compute_trend_and_flaky iso_seconds scenario_overflow = Raise OverflowError.
Proof.
  apply (proj1 (proj2 (proj2 (engine_raises_TypeError_or_OverflowError_only
                                iso_seconds scenario_overflow)))).
  - assert (H : forall z, In z scenario_overflow ->
                          is_aware (time_of iso_seconds z) = true).
    { intros z Hz. unfold scenario_overflow in Hz. cbn [In] in Hz.
      destruct Hz as [<-|[<-|[<-|[]]]]; vm_compute; reflexivity. }
    intros x y Hx Hy. rewrite (H x Hx), (H y Hy). reflexivity.
  - intros Hrange.
    destruct (Hrange (firstn 2 scenario_overflow)
                (new_row "2024-03-03T10:00:00Z" "T" "passed" 0 (Some (10 ^ 400)))
                [] ltac:(vm_compute; reflexivity)) as [fired Hfired].
    vm_compute in Hfired. discriminate Hfired.
Defined.

(** ** The rows the engine returns *)

Lemma filter_filter_and {A} (p q : A -> bool) (l : list A) :
  List.filter q (List.filter p l) = List.filter (fun x => p x && q x) l.
Proof.
  induction l as [|x l IH]; simpl; [reflexivity|].
  destruct (p x); simpl; [destruct (q x)|]; rewrite IH; reflexivity.
Qed.

Lemma map_core_filter (p : row -> bool) (Hp : reads_input_only p) (l : list row) :
  map core (List.filter p l) = List.filter p (map core l).
Proof.
  induction l as [|x l IH]; simpl; [reflexivity|].
  rewrite <- (Hp x). destruct (p x); simpl; rewrite IH; reflexivity.
Qed.

(** X8. When the engine returns, it returns the rows of its input, as many,
    with their input cells, in ascending order of run time, an unparsable
    run time counting as [datetime.min]; rows with the same run time are
    in the order of the scoring pass, that is by title, and within a
    title in the order of the input. *)
Theorem engine_returns_the_rows_sorted_by_time
    (fromisoformat : string -> option datetime) (all_rows out : list row) :
  compute_trend_and_flaky fromisoformat all_rows = Ok out ->
  length out = length all_rows
  /\ Permutation (map core out) (map core all_rows)
  /\ sorted_time fromisoformat out
  /\ (forall d,
        List.filter (at_time fromisoformat d) out
        = List.filter (at_time fromisoformat d)
            (score_pass (sort_title_time fromisoformat all_rows)))
  /\ sorted_title_time fromisoformat
       (score_pass (sort_title_time fromisoformat all_rows))
  /\ (forall t d,
        map core
          (List.filter (has_title t) (List.filter (at_time fromisoformat d) out))
        = map core
            (List.filter (has_title t)
               (List.filter (at_time fromisoformat d) all_rows))).
Proof.
  intros Hout.
  pose proof (compute_Ok_inv fromisoformat all_rows out Hout) as [Hone _].
  destruct (compute_contract fromisoformat all_rows Hone
              (compute_Ok_range _ _ _ Hout))
    as (out' & Hout' & Hlen & Hperm & Hsorted & Hties).
  assert (out' = out) by congruence. subst out'.
  split; [exact Hlen|]. split; [exact Hperm|]. split; [exact Hsorted|].
  split; [exact Hties|]. split.
  - apply score_pass_sorted, sort_title_time_sorted.
  - intros t d. rewrite Hties.
    rewrite !filter_filter_and.
    set (p := fun r => at_time fromisoformat d r && has_title t r).
    assert (Hp : reads_input_only p) by (intros r; reflexivity).
    rewrite !(map_core_filter p Hp), map_core_score_pass.
    rewrite <- !(map_core_filter p Hp). f_equal.
    unfold sort_title_time.
    rewrite (filter_sort_pure key_ltb (title_time fromisoformat)
               key_ltb_irrefl key_ltb_trans key_ltb_ntrans).
    apply (sort_pure_id key_ltb (title_time fromisoformat)).
    apply StronglySorted_all. intros x y Hx Hy.
    apply filter_In in Hx, Hy. destruct Hx as [_ Hx], Hy as [_ Hy].
    unfold p in Hx, Hy. apply andb_prop in Hx, Hy.
    destruct Hx as [Hxd Hxt], Hy as [Hyd Hyt].
    unfold at_time in Hxd, Hyd. apply dt_eqb_eq in Hxd, Hyd.
    unfold has_title in Hxt, Hyt. apply String.eqb_eq in Hxt, Hyt.
    unfold not_after, title_time.
    change (parse_dt fromisoformat (run_at y)) with (time_of fromisoformat y).
    change (parse_dt fromisoformat (run_at x)) with (time_of fromisoformat x).
    rewrite Hxd, Hyd, Hxt, Hyt. apply key_ltb_irrefl.
Qed.

Lemma engine_returns_the_rows_sorted_by_time_witness :
  let out := sort_time iso_seconds
               (score_pass (sort_title_time iso_seconds scenario_two_titles)) in
  length out = length scenario_two_titles
  /\ Permutation (map core out) (map core scenario_two_titles)
  /\ sorted_time iso_seconds out
  /\ (forall d,
        List.filter (at_time iso_seconds d) out
        = List.filter (at_time iso_seconds d)
            (score_pass (sort_title_time iso_seconds scenario_two_titles)))
  /\ sorted_title_time iso_seconds
       (score_pass (sort_title_time iso_seconds scenario_two_titles))
  /\ (forall t d,
        map core
          (List.filter (has_title t) (List.filter (at_time iso_seconds d) out))
        = map core
            (List.filter (has_title t)
               (List.filter (at_time iso_seconds d) scenario_two_titles))).
Proof.
  apply (engine_returns_the_rows_sorted_by_time iso_seconds scenario_two_titles).
  vm_compute. reflexivity.
Defined.

(** ** The order of the input *)

Section SortPermutation.
Context {A K : Type}.
Variable ltb : K -> K -> bool.
Variable key : A -> K.
Hypothesis ltb_irrefl : forall a, ltb a a = false.
Hypothesis ltb_trans :
  forall a b c, ltb a b = true -> ltb b c = true -> ltb a c = true.
Hypothesis ltb_total : forall a b, ltb a b = false -> ltb b a = false -> a = b.

Lemma sort_pure_Permutation (l1 l2 : list A) :
  Permutation l1 l2 -> List.NoDup (map key l1) ->
  sort_pure ltb key l1 = sort_pure ltb key l2.
Proof.
  induction 1 as [|x l1 l2 Hperm IH|x y l|l1 l2 l3 H12 IH12 H23 IH23];
    intros Hnodup.
  - reflexivity.
  - simpl. rewrite IH; [reflexivity|]. simpl in Hnodup.
    apply List.NoDup_cons_iff in Hnodup. tauto.
  - simpl. simpl in Hnodup.
    assert (Hne : key y <> key x).
    { apply List.NoDup_cons_iff in Hnodup. destruct Hnodup as [Hnotin _].
      intros Heq. apply Hnotin. left. symmetry. exact Heq. }
    destruct (ltb (key x) (key y)) eqn:Hxy.
    + apply (insert_pure_comm ltb key ltb_irrefl ltb_trans). exact Hxy.
    + destruct (ltb (key y) (key x)) eqn:Hyx.
      * symmetry. apply (insert_pure_comm ltb key ltb_irrefl ltb_trans). exact Hyx.
      * exfalso. apply Hne. apply ltb_total; assumption.
  - rewrite IH12 by exact Hnodup. apply IH23.
    apply (Permutation_NoDup (Permutation_map key H12)). exact Hnodup.
Qed.
End SortPermutation.

Lemma dt_ltb_total (a b : datetime) :
  dt_ltb a b = false -> dt_ltb b a = false -> a = b.
Proof. destruct a, b; simpl; try discriminate; intros; f_equal; lia. Qed.

Lemma key_ltb_total (a b : string * datetime) :
  key_ltb a b = false -> key_ltb b a = false -> a = b.
Proof.
  destruct a as [ta da], b as [tb db]. unfold key_ltb. simpl.
  rewrite (String.eqb_sym tb ta).
  destruct (String.eqb_spec ta tb) as [->|Hne].
  - intros H1 H2. f_equal. apply dt_ltb_total; assumption.
  - intros H1 H2. exfalso. apply Hne. apply str_ltb_total; assumption.
Qed.

Lemma key_lt_title_kind (a b : string * datetime) :
  (fst a = fst b -> is_aware (snd a) = is_aware (snd b)) ->
  key_lt a b = Ok (key_ltb a b).
Proof.
  intros Hk. unfold key_lt, key_ltb.
  destruct (String.eqb_spec (fst a) (fst b)) as [Heq|Hne]; [|reflexivity].
  destruct (dt_eqb (snd a) (snd b)) eqn:Hd.
  - rewrite (dt_eqb_ltb _ _ Hd). reflexivity.
  - apply dt_lt_same_kind. apply Hk. exact Heq.
Qed.

Lemma key_lt_Ok_title (a b : string * datetime) (c : bool) :
  key_lt a b = Ok c -> fst a = fst b -> is_aware (snd a) = is_aware (snd b).
Proof.
  unfold key_lt. intros H Heq.
  rewrite (proj2 (String.eqb_eq _ _) Heq) in H.
  destruct (dt_eqb (snd a) (snd b)) eqn:Hd.
  - apply dt_eqb_eq in Hd. rewrite Hd. reflexivity.
  - apply (dt_lt_Ok_kind _ _ _ H).
Qed.

Section FirstSort.
Variable fromisoformat : string -> option datetime.

Local Abbreviation the_time := (time_of fromisoformat).
Local Abbreviation the_key := (title_time fromisoformat).
Local Abbreviation kinds := (title_kind fromisoformat).

Lemma title_kind_perm (l1 l2 : list row) :
  Permutation l1 l2 -> kinds l1 -> kinds l2.
Proof.
  intros Hperm Hk x y Hx Hy. apply Hk;
    apply (Permutation_in _ (Permutation_sym Hperm)); assumption.
Qed.

(** The first sort returns when the rows of each title are of one kind. *)
Lemma first_sort_Ok (rows : list row) :
  kinds rows ->
  list_sort key_lt the_key rows = Ok (sort_title_time fromisoformat rows).
Proof.
  intros Hk. apply list_sort_pure. intros x y Hx Hy.
  apply key_lt_title_kind. apply Hk; assumption.
Qed.

(** A row that comes in is compared with the first row of its title. *)
Lemma sort_insert_title_kind (z : row) (sorted s : list row) :
  sorted_title_time fromisoformat sorted ->
  kinds sorted ->
  sort_insert key_lt the_key z sorted = Ok s ->
  forall x, In x sorted -> title x = title z ->
    is_aware (the_time x) = is_aware (the_time z).
Proof.
  unfold sorted_title_time, sorted_by.
  revert s. induction sorted as [|y rest IH]; intros s Hsorted Hk Hins x Hx Htx;
    [destruct Hx|].
  apply StronglySorted_inv in Hsorted. destruct Hsorted as [Hrest Hy].
  destruct (sort_insert_head key_lt the_key z y rest s Hins) as [b Hb].
  destruct (String.eqb_spec (title y) (title z)) as [Heq|Hne].
  - rewrite (Hk x y Hx (or_introl eq_refl)) by congruence.
    apply (key_lt_Ok_title _ _ _ Hb). exact Heq.
  - assert (Hlt : b = String.ltb (title y) (title z)).
    { unfold key_lt in Hb. simpl in Hb.
      rewrite (proj2 (String.eqb_neq _ _) Hne) in Hb. congruence. }
    destruct Hx as [<-|Hx]; [congruence|].
    simpl in Hins. rewrite Hb in Hins. result_simpl in Hins.
    destruct b.
    + destruct (sort_insert key_lt the_key z rest) as [rest'|e] eqn:Hrest';
        [|discriminate].
      apply (IH rest' Hrest); [|reflexivity|exact Hx|exact Htx].
      intros u v Hu Hv. apply Hk; right; assumption.
    + exfalso. apply Hne.
      rewrite Forall_forall in Hy.
      specialize (Hy x (proj2 (list_elem_of_In _ _) Hx)).
      unfold not_after, key_ltb in Hy. simpl in Hy.
      rewrite Htx in Hy.
      rewrite (proj2 (String.eqb_neq (title z) (title y)))
        in Hy by congruence.
      apply str_ltb_total; [symmetry; exact Hlt | exact Hy].
Qed.

Lemma first_sort_inv (rows s : list row) :
  list_sort key_lt the_key rows = Ok s -> kinds rows.
Proof.
  revert s. induction rows as [|z rows IH]; intros s; [intros _ x y []|].
  simpl. destruct (list_sort key_lt the_key rows) as [s'|e] eqn:Hs';
    result_simpl; [|discriminate].
  intros Hins.
  pose proof (list_sort_Ok key_lt key_ltb the_key key_lt_ltb _ _ Hs') as ->.
  assert (Hz : forall x, In x rows -> title x = title z ->
                         is_aware (the_time x) = is_aware (the_time z)).
  { intros x Hx.
    apply (sort_insert_title_kind z (sort_title_time fromisoformat rows) s).
    - apply sort_title_time_sorted.
    - apply (title_kind_perm rows);
        [symmetry; apply sort_title_time_perm | apply (IH _ eq_refl)].
    - exact Hins.
    - apply (Permutation_in _ (Permutation_sym (sort_title_time_perm _ rows))).
      exact Hx. }
  intros x y [<-|Hx] [<-|Hy] Ht.
  - reflexivity.
  - symmetry. apply Hz; [exact Hy | congruence].
  - apply Hz; assumption.
  - apply (IH _ eq_refl); assumption.
Qed.
End FirstSort.

(** X6. When no two rows of the input have both the same title and the same
    run time, the result does not depend on the order of the input: two
    inputs with the same rows give the same list, or both raise. *)
Theorem input_order_is_irrelevant_for_distinct_runs
    (fromisoformat : string -> option datetime) (rows1 rows2 : list row) :
  Permutation rows1 rows2 ->
  List.NoDup (map (title_time fromisoformat) rows1) ->
  compute_trend_and_flaky fromisoformat rows1
  = compute_trend_and_flaky fromisoformat rows2.
Proof.
  intros Hperm Hnodup.
  assert (Hsort : sort_title_time fromisoformat rows1
                  = sort_title_time fromisoformat rows2).
  { apply (sort_pure_Permutation key_ltb (title_time fromisoformat)
             key_ltb_irrefl key_ltb_trans key_ltb_total); assumption. }
  unfold compute_trend_and_flaky.
  destruct (list_sort key_lt (title_time fromisoformat) rows1)
    as [s1|e1] eqn:H1.
  - pose proof (first_sort_inv _ _ _ H1) as Hk.
    pose proof (list_sort_Ok key_lt key_ltb _ key_lt_ltb _ _ H1) as ->.
    rewrite (first_sort_Ok fromisoformat rows2
               (title_kind_perm _ _ _ Hperm Hk)).
    fold (sort_title_time fromisoformat rows1). rewrite Hsort. reflexivity.
  - rewrite (list_sort_raises key_lt _ TypeError key_lt_raises _ _ H1).
    destruct (list_sort key_lt (title_time fromisoformat) rows2)
      as [s2|e2] eqn:H2.
    + pose proof (first_sort_inv _ _ _ H2) as Hk.
      rewrite (first_sort_Ok fromisoformat rows1
                 (title_kind_perm _ _ _ (Permutation_sym Hperm) Hk)) in H1.
      discriminate.
    + rewrite (list_sort_raises key_lt _ TypeError key_lt_raises _ _ H2).
      reflexivity.
Qed.

Lemma input_order_is_irrelevant_for_distinct_runs_witness :
  compute_trend_and_flaky iso_seconds scenario_two_titles
  = compute_trend_and_flaky iso_seconds (rev scenario_two_titles).
Proof.
  apply (input_order_is_irrelevant_for_distinct_runs iso_seconds).
  - apply Permutation_rev.
  - vm_compute. repeat constructor; simpl; intuition discriminate.
Defined.

(** ** The window of the last five runs *)

Lemma status_symbol_fail (s : string) :
  status_symbol s = FAIL_GLYPH <-> String.eqb (lower s) "failed" = true.
Proof.
  unfold status_symbol.
  destruct (String.eqb (lower s) "passed") eqn:Hp;
    destruct (String.eqb (lower s) "failed") eqn:Hf;
    split; intros H; try reflexivity; try discriminate.
  apply String.eqb_eq in Hp, Hf. rewrite Hp in Hf. discriminate.
Qed.

Lemma count_eq_map_status (rows : list row) :
  count_eq FAIL_GLYPH (map (fun h => status_symbol (status h)) rows)
  = length (List.filter is_failed rows).
Proof.
  unfold count_eq. induction rows as [|x rows IH]; [reflexivity|].
  simpl map. rewrite filter_cons. simpl List.filter.
  pose proof (status_symbol_fail (status x)) as Hfail.
  unfold is_failed at 1.
  destruct (decide (status_symbol (status x) = FAIL_GLYPH)) as [Heq | Hne].
  - rewrite (proj1 Hfail Heq). simpl. rewrite IH. reflexivity.
  - destruct (String.eqb (lower (status x)) "failed").
    + exfalso. apply Hne. apply Hfail. reflexivity.
    + exact IH.
Qed.

Lemma last_five (history : list row) (r : row) :
  last_n 5 (history ++ [r]) = last_n 4 history ++ [r].
Proof. apply (last_n_snoc 4). Qed.

(** X3. Both rules with a window look at the same runs, the row and the four
    runs of its title before it: the trend holds their glyphs, R1 fires
    when at least two of them failed (whatever the case of the status
    text), and the duration list holds their known durations. *)
Theorem windows_are_the_last_five_runs (history : list row) (r : row) :
  trend_syms history r
  = map (fun h => status_symbol (status h)) (last_n 5 (history ++ [r]))
  /\ (rule_R1 (trend_syms history r) = true
      <-> (2 <= length (List.filter is_failed (last_n 5 (history ++ [r]))))%nat)
  /\ durations history r = known_durations (last_n 5 (history ++ [r])).
Proof.
  assert (Hsyms : trend_syms history r
                  = map (fun h => status_symbol (status h))
                      (last_n 5 (history ++ [r]))).
  { unfold trend_syms. rewrite last_five, map_app, last_n_map. simpl map.
    apply last_n_all. rewrite length_app, length_map, length_last_n.
    cbn [length]. lia. }
  split; [exact Hsyms|]. split.
  - rewrite Hsyms. unfold rule_R1. rewrite count_eq_map_status. apply Nat.leb_le.
  - rewrite last_five. unfold durations, known_durations.
    rewrite omap_app. simpl. destruct (duration_ms r); [reflexivity|].
    rewrite app_nil_r. reflexivity.
Qed.

(** * Further properties of the normalizer and the scripts *)

(** ** Malformed numbers *)

(** X10. [to_row] does not fail on the retries or the duration of an item:
    whatever these two values are, an item whose other cells are text (or
    falsy) gives a row; the row has blank derived cells, retries 0 when
    [int] fails on the value, and the run time as its run id when the
    item has none. *)
Theorem to_row_never_fails_on_retries_or_duration
    (int_of_text : string -> option Z)
    (entries attr : list (string * json)) :
  lookup_entry "attributes" entries = Some (JDict attr) ->
  (forall k, In k TEXT_KEYS -> text_or_falsy (dict_get k attr)) ->
  exists r,
    to_row int_of_text (JDict entries) = Ok r
    /\ core r = r
    /\ retries r
       = match py_int int_of_text (py_or (dict_get "retries" attr) (JInt 0)) with
         | Some n => n
         | None => 0
         end
    /\ (truthy (dict_get "run-id" attr) = false ->
        truthy (dict_get "run_id" attr) = false ->
        run_id r = run_at r).
Proof.
  intros Hattr Htext.
  assert (Hk : forall k, In k TEXT_KEYS -> text_or_falsy (dict_get k attr)) by exact Htext.
  destruct (text_or_falsy_text _
              (text_or_falsy_or _ _
                 (text_or_falsy_or _ _ (Hk "created-at" ltac:(simpl; tauto))
                    (Hk "created_at" ltac:(simpl; tauto)))
                 (Hk "run_at" ltac:(simpl; tauto)))) as [at_ Hat].
  destruct (text_or_falsy_text _
              (text_or_falsy_or _ _ (Hk "run-id" ltac:(simpl; tauto))
                 (Hk "run_id" ltac:(simpl; tauto)))) as [id_ Hid].
  destruct (text_or_falsy_text _ (Hk "title" ltac:(simpl; tauto))) as [ti Hti].
  destruct (text_or_falsy_text _ (Hk "status" ltac:(simpl; tauto))) as [st Hst].
  unfold to_row, py_get_default. simpl. rewrite Hattr. simpl.
  rewrite Hti, Hat, Hid, Hst. simpl.
  assert (Hnone : truthy (dict_get "run-id" attr) = false ->
                  truthy (dict_get "run_id" attr) = false -> id_ = "").
  { intros H1 H2. unfold py_or in Hid. rewrite H1, H2 in Hid. simpl in Hid.
    injection Hid as <-. reflexivity. }
  assert (Hor : py_or (JStr id_) (JStr at_)
                = JStr (if String.eqb id_ "" then at_ else id_)).
  { unfold py_or. simpl. destruct (String.eqb id_ ""); reflexivity. }
  rewrite Hor. simpl.
  destruct (String.eqb_spec id_ "") as [Hempty | Hfull].
  - eexists. split; [reflexivity|]. split; [reflexivity|]. split; reflexivity.
  - eexists. split; [reflexivity|]. split; [reflexivity|]. split; [reflexivity|].
    intros H1 H2. exfalso. apply Hfull. apply Hnone; assumption.
Qed.

Lemma to_row_never_fails_on_retries_or_duration_witness :
  exists r,
    to_row int_of_decimal
      (JDict [("attributes",
               JDict [("title", JStr "login"); ("retries", JStr "many");
                      ("duration", JList [JNull])])]) = Ok r
    /\ core r = r
    /\ retries r
       = match py_int int_of_decimal
                 (py_or (dict_get "retries"
                           [("title", JStr "login"); ("retries", JStr "many");
                            ("duration", JList [JNull])]) (JInt 0)) with
         | Some n => n
         | None => 0
         end
    /\ (truthy (dict_get "run-id"
                  [("title", JStr "login"); ("retries", JStr "many");
                   ("duration", JList [JNull])]) = false ->
        truthy (dict_get "run_id"
                  [("title", JStr "login"); ("retries", JStr "many");
                   ("duration", JList [JNull])]) = false ->
        run_id r = run_at r).
Proof.
  apply (to_row_never_fails_on_retries_or_duration int_of_decimal).
  - reflexivity.
  - intros k Hk. simpl in Hk.
    repeat (destruct Hk as [<- | Hk]; [vm_compute; eauto|]). destruct Hk.
Defined.

(** ** What the script writes *)

Section MainFacts.
Variable decode_utf8 : string -> option string.
Variable json_loads : string -> json + string.
Variable int_of_text : string -> option Z.
Variable csv_read : string -> result (list row).
Variable csv_write : list row -> string.
Variable writerow_error : row -> option exn.
Variable can_write : string -> bool.
Variable DOC : string.

Local Abbreviation merged_rows :=
  (merged_rows decode_utf8 json_loads int_of_text csv_read).
Local Abbreviation main_with :=
  (main_with decode_utf8 json_loads int_of_text csv_read csv_write
     writerow_error can_write DOC).

(** The ways a call with two arguments ends. *)
Lemma main_with_cases engine (prog in_json out_csv : string) (w w' : world)
    (res : result unit) :
  main_with engine [prog; in_json; out_csv] w = (w', res) ->
  (exists e, merged_rows engine w in_json out_csv = Raise e
             /\ res = Raise e /\ w' = w)
  \/ (exists merged,
        merged_rows engine w in_json out_csv = Ok merged
        /\ can_write out_csv = false /\ res = Raise OSError /\ w' = w)
  \/ (exists merged written e r rest,
        merged_rows engine w in_json out_csv = Ok merged
        /\ can_write out_csv = true
        /\ merged = written ++ r :: rest
        /\ writerow_error r = Some e
        /\ (forall x, In x written -> writerow_error x = None)
        /\ res = Raise e
        /\ files w' = <[out_csv := csv_write written]> (files w)
        /\ stdout w' = stdout w)
  \/ (exists merged,
        merged_rows engine w in_json out_csv = Ok merged
        /\ can_write out_csv = true
        /\ (forall x, In x merged -> writerow_error x = None)
        /\ res = Ok tt
        /\ files w' = <[out_csv := csv_write merged]> (files w)
        /\ stdout w' = stdout w ++ [updated_line out_csv merged]).
Proof.
  unfold main_with, write_full_csv.
  destruct (merged_rows engine w in_json out_csv) as [merged|e] eqn:Hm.
  - destruct (can_write out_csv) eqn:Hcan.
    + destruct (rows_written writerow_error merged) as [written [[]|e]] eqn:Hw.
      * apply rows_written_Ok in Hw. destruct Hw as [-> Hall].
        intros [= <- <-]. right. right. right. exists merged. simpl. auto 10.
      * apply rows_written_Raise in Hw.
        destruct Hw as (r & rest & Hsplit & Hr & Hdone).
        intros [= <- <-]. right. right. left.
        exists merged, written, e, r, rest. simpl. auto 10.
    + intros [= <- <-]. right. left. exists merged. auto.
  - intros [= <- <-]. left. eauto.
Qed.

Lemma main_with_succeeds engine (prog in_json out_csv : string) (w : world)
    doc items new_rows existing merged :
  load_json decode_utf8 json_loads w in_json = Ok doc ->
  parse_items doc = Ok items ->
  new_rows_of int_of_text items = Ok new_rows ->
  new_rows <> [] ->
  read_existing_csv csv_read w out_csv = Ok existing ->
  engine (existing ++ new_rows) = Ok merged ->
  can_write out_csv = true ->
  (forall r, In r merged -> writerow_error r = None) ->
  main_with engine [prog; in_json; out_csv] w
  = ({| files := <[out_csv := csv_write merged]> (files w);
        stdout := stdout w ++ [updated_line out_csv merged] |}, Ok tt).
Proof.
  intros Hdoc Hitems Hnew Hne Hex Heng Hcan Hall.
  unfold main_with, merged_rows. rewrite Hdoc. simpl. rewrite Hitems. simpl.
  rewrite Hnew. simpl. destruct new_rows as [|r new_rows]; [contradiction|].
  rewrite Hex. simpl. rewrite Heng. unfold write_full_csv. rewrite Hcan.
  rewrite (rows_written_all writerow_error merged Hall). reflexivity.
Qed.

(** X12. The script writes no file but the ledger, and it prints the
    docstring and leaves with status 1 when it is not called with two
    arguments.  A run that fails before the ledger is opened (the input,
    the items, the engine, the directory or the file cannot be had)
    leaves every file as it was.  Once the ledger is opened its old text
    is gone: after a run without error it holds the rows the engine
    returned, and one line was printed; when [writerow] raises on a row
    it holds the rows before that one, and the run ends with that
    error. *)
Theorem main_writes_the_ledger_only engine (argv : list string)
    (w w' : world) (res : result unit) :
  main_with engine argv w = (w', res) ->
  (forall path,
     (forall prog in_json, argv <> [prog; in_json; path]) ->
     files w' !! path = files w !! path)
  /\ (length argv <> 3%nat ->
      res = Raise (SystemExit "1") /\ w' = print w DOC)
  /\ (forall prog in_json out_csv,
        argv = [prog; in_json; out_csv] ->
        (forall e,
           merged_rows engine w in_json out_csv = Raise e ->
           res = Raise e /\ w' = w)
        /\ (forall merged,
              merged_rows engine w in_json out_csv = Ok merged ->
              (can_write out_csv = false -> res = Raise OSError /\ w' = w)
              /\ (can_write out_csv = true ->
                  exists written,
                    files w' !! out_csv = Some (csv_write written)
                    /\ ((res = Ok tt /\ written = merged
                         /\ stdout w' = stdout w ++ [updated_line out_csv merged])
                        \/ (exists e r rest,
                              res = Raise e
                              /\ merged = written ++ r :: rest
                              /\ writerow_error r = Some e
                              /\ stdout w' = stdout w))))).
Proof.
  intros Hmain.
  destruct (Nat.eq_dec (length argv) 3%nat) as [Hlen | Hlen].
  - destruct argv as [|prog [|in_json [|out_csv [|d rest]]]]; try discriminate.
    clear Hlen.
    pose proof (main_with_cases engine prog in_json out_csv w w' res Hmain)
      as Hcases.
    split; [|split; [intros Hlen; simpl in Hlen; lia|]].
    + intros path Hpath.
      assert (Hne : out_csv <> path)
        by (intros ->; apply (Hpath prog in_json); reflexivity).
      destruct Hcases
        as [(e & _ & _ & ->)
           |[(merged & _ & _ & _ & ->)
            |[(merged & written & e & r & rest & _ & _ & _ & _ & _ & _ & Hf & _)
             |(merged & _ & _ & _ & _ & Hf & _)]]];
        try reflexivity; rewrite Hf; apply lookup_insert_ne; exact Hne.
    + intros prog' in_json' out_csv' [= <- <- <-]. split.
      * intros e He.
        destruct Hcases
          as [(e' & He' & -> & ->)
             |[(merged & Hm & _)
              |[(merged & written & e' & r & rest & Hm & _)
               |(merged & Hm & _)]]]; try congruence.
        split; congruence.
      * intros merged Hmerged. split.
        -- intros Hcan.
           destruct Hcases
             as [(e' & He' & _)
                |[(merged' & Hm & _ & -> & ->)
                 |[(merged' & written & e' & r & rest & _ & Hcan' & _)
                  |(merged' & _ & Hcan' & _)]]]; try congruence.
           split; reflexivity.
        -- intros Hcan.
           destruct Hcases
             as [(e' & He' & _)
                |[(merged' & _ & Hcan' & _)
                 |[(merged' & written & e' & r & rest & Hm & _ & Hsplit & Hr
                    & _ & -> & Hf & Hout)
                  |(merged' & Hm & _ & _ & -> & Hf & Hout)]]]; try congruence.
           ++ assert (merged' = merged) by congruence. subst merged'.
              exists written. split; [rewrite Hf; apply lookup_insert_eq|].
              right. exists e', r, rest. auto.
           ++ assert (merged' = merged) by congruence. subst merged'.
              exists merged. split; [rewrite Hf; apply lookup_insert_eq|].
              left. auto.
  - assert (Hother : w' = print w DOC /\ res = Raise (SystemExit "1")).
    { destruct argv as [|a [|b [|c [|d rest]]]]; simpl in Hlen; try lia;
        unfold main_with in Hmain; injection Hmain as <- <-; auto. }
    destruct Hother as [-> ->].
    split; [reflexivity|]. split; [auto|].
    intros prog in_json out_csv ->. simpl in Hlen. lia.
Qed.
End MainFacts.

Lemma main_writes_the_ledger_only_witness :
  let engine := compute_trend_and_flaky iso_seconds in
  let argv := ["prog"; "run.json"; "out/ledger.csv"] in
  let run :=
    main_with Some (sample_loads scenario_surrogate_doc) int_of_decimal
      sample_csv_read sample_csv_write rejects_surrogate (fun _ => true)
      "usage" engine argv scenario_world in
  let w' := fst run in
  let res := snd run in
  res = Raise UnicodeEncodeError
  /\ files scenario_world !! "out/ledger.csv" = Some "ledger"
  /\ files w' !! "out/ledger.csv" = Some "login"
  /\ (forall path,
        (forall prog in_json, argv <> [prog; in_json; path]) ->
        files w' !! path = files scenario_world !! path)
  /\ (length argv <> 3%nat ->
      res = Raise (SystemExit "1") /\ w' = print scenario_world "usage")
  /\ (forall prog in_json out_csv,
        argv = [prog; in_json; out_csv] ->
        (forall e,
           merged_rows Some (sample_loads scenario_surrogate_doc) int_of_decimal
             sample_csv_read engine scenario_world in_json out_csv = Raise e ->
           res = Raise e /\ w' = scenario_world)
        /\ (forall merged,
              merged_rows Some (sample_loads scenario_surrogate_doc)
                int_of_decimal sample_csv_read engine scenario_world
                in_json out_csv = Ok merged ->
              ((fun _ : string => true) out_csv = false ->
               res = Raise OSError /\ w' = scenario_world)
              /\ ((fun _ : string => true) out_csv = true ->
                  exists written,
                    files w' !! out_csv = Some (sample_csv_write written)
                    /\ ((res = Ok tt /\ written = merged
                         /\ stdout w' = stdout scenario_world
                                        ++ [updated_line out_csv merged])
                        \/ (exists e r rest,
                              res = Raise e
                              /\ merged = written ++ r :: rest
                              /\ rejects_surrogate r = Some e
                              /\ stdout w' = stdout scenario_world))))).
Proof.
  split; [vm_compute; reflexivity|].
  split; [vm_compute; reflexivity|].
  split; [vm_compute; reflexivity|].
  apply (main_writes_the_ledger_only Some (sample_loads scenario_surrogate_doc)
           int_of_decimal sample_csv_read sample_csv_write rejects_surrogate
           (fun _ => true) "usage").
  apply surjective_pairing.
Defined.

Section LedgerFacts.
Variable decode_utf8 : string -> option string.
Variable json_loads : string -> json + string.
Variable int_of_text : string -> option Z.
Variable csv_read : string -> result (list row).
Variable csv_write : list row -> string.
Variable writerow_error : row -> option exn.
Variable can_write : string -> bool.
Variable DOC : string.
Variable fromisoformat : string -> option datetime.

Local Abbreviation engine := (compute_trend_and_flaky fromisoformat).
Local Abbreviation run :=
  (main decode_utf8 json_loads int_of_text csv_read csv_write writerow_error
     can_write DOC fromisoformat).

Lemma main_Ok (prog in_json out_csv : string) (w w' : world) :
  run [prog; in_json; out_csv] w = (w', Ok tt) ->
  exists doc items new_rows existing merged,
    load_json decode_utf8 json_loads w in_json = Ok doc
    /\ parse_items doc = Ok items
    /\ new_rows_of int_of_text items = Ok new_rows
    /\ new_rows <> []
    /\ read_existing_csv csv_read w out_csv = Ok existing
    /\ engine (existing ++ new_rows) = Ok merged
    /\ files w' = <[out_csv := csv_write merged]> (files w).
Proof.
  intros Hmain. unfold main in Hmain.
  destruct (main_with_Ok decode_utf8 json_loads int_of_text csv_read csv_write
              writerow_error can_write DOC engine _ w w' Hmain)
    as (prog' & in_json' & out_csv' & merged & Hargv & Hm & _ & _ & ->).
  injection Hargv as <- <- <-.
  destruct (merged_rows_Ok decode_utf8 json_loads int_of_text csv_read engine
              w in_json out_csv merged Hm)
    as (doc & items & new_rows & existing & H1 & H2 & H3 & H4 & H5 & H6).
  exists doc, items, new_rows, existing, merged. auto 10.
Qed.

(** X13. A run without error loses no row and invents none.  With the
    items that [parse_items] finds in the export, the new rows that
    [to_row] builds from those with attributes, and the rows read from
    the old ledger (none when there is no ledger), the ledger that is
    written holds as many rows as the old and the new rows together,
    with the same input cells, and at least one more row than the old
    ledger. *)
Theorem ledger_keeps_every_row (prog in_json out_csv : string) (w w' : world) :
  run [prog; in_json; out_csv] w = (w', Ok tt) ->
  exists doc items new_rows existing merged,
    load_json decode_utf8 json_loads w in_json = Ok doc
    /\ parse_items doc = Ok items
    /\ Forall2 (fun it r => to_row int_of_text it = Ok r)
         (List.filter has_attributes items) new_rows
    /\ read_existing_csv csv_read w out_csv = Ok existing
    /\ (files w !! out_csv = None -> existing = [])
    /\ files w' !! out_csv = Some (csv_write merged)
    /\ length merged = (length existing + length new_rows)%nat
    /\ (length existing < length merged)%nat
    /\ Permutation (map core merged) (map core (existing ++ new_rows)).
Proof.
  intros Hmain.
  destruct (main_Ok prog in_json out_csv w w' Hmain)
    as (doc & items & new_rows & existing & merged
        & Hdoc & Hitems & Hnew & Hne & Hex & Heng & Hfiles).
  exists doc, items, new_rows, existing, merged.
  pose proof (compute_Ok_inv fromisoformat _ _ Heng) as [Hone _].
  destruct (compute_contract fromisoformat _ Hone (compute_Ok_range _ _ _ Heng))
    as (out' & Hout' & Hlen & Hperm & _).
  assert (out' = merged) by congruence. subst out'.
  rewrite length_app in Hlen.
  split; [exact Hdoc|]. split; [exact Hitems|].
  split; [apply (new_rows_of_spec int_of_text); exact Hnew|].
  split; [exact Hex|]. split.
  - intros Hnone. unfold read_existing_csv in Hex. rewrite Hnone in Hex.
    congruence.
  - split; [rewrite Hfiles; apply lookup_insert_eq|].
    split; [exact Hlen|]. split; [|exact Hperm].
    destruct new_rows; [contradiction|]. simpl in Hlen. lia.
Qed.

(** X14. The script does not recognise rows it has already stored.  When
    the ledger reads back as it was written and two runs on the same
    export end without error, one after the other, the second ledger
    holds the rows of the first and, once more, the rows built from the
    items of the export. *)
Theorem second_run_adds_the_rows_again
    (prog in_json out_csv : string) (w w1 w2 : world) :
  in_json <> out_csv ->
  (forall rows, csv_read (csv_write rows) = Ok rows) ->
  run [prog; in_json; out_csv] w = (w1, Ok tt) ->
  run [prog; in_json; out_csv] w1 = (w2, Ok tt) ->
  exists doc items new_rows merged1 merged2,
    load_json decode_utf8 json_loads w in_json = Ok doc
    /\ load_json decode_utf8 json_loads w1 in_json = Ok doc
    /\ parse_items doc = Ok items
    /\ Forall2 (fun it r => to_row int_of_text it = Ok r)
         (List.filter has_attributes items) new_rows
    /\ new_rows <> []
    /\ files w1 !! out_csv = Some (csv_write merged1)
    /\ read_existing_csv csv_read w1 out_csv = Ok merged1
    /\ files w2 !! out_csv = Some (csv_write merged2)
    /\ length merged2 = (length merged1 + length new_rows)%nat
    /\ Permutation (map core merged2) (map core (merged1 ++ new_rows)).
Proof.
  intros Hpaths Hround Hrun1 Hrun2.
  destruct (main_Ok prog in_json out_csv w w1 Hrun1)
    as (doc & items & new_rows & existing & merged1
        & Hdoc & Hitems & Hnew & Hne & Hex & Heng & Hfiles).
  destruct (main_Ok prog in_json out_csv w1 w2 Hrun2)
    as (doc2 & items2 & new_rows2 & existing2 & merged2
        & Hdoc2 & Hitems2 & Hnew2 & _ & Hex2 & Heng2 & Hfiles2).
  assert (Hdoc1 : load_json decode_utf8 json_loads w1 in_json = Ok doc).
  { unfold load_json in *. rewrite Hfiles, lookup_insert_ne by congruence.
    exact Hdoc. }
  assert (Hex1 : read_existing_csv csv_read w1 out_csv = Ok merged1).
  { unfold read_existing_csv. rewrite Hfiles, lookup_insert_eq. apply Hround. }
  assert (doc2 = doc) by congruence. subst doc2.
  assert (items2 = items) by congruence. subst items2.
  assert (new_rows2 = new_rows) by congruence. subst new_rows2.
  assert (existing2 = merged1) by congruence. subst existing2.
  pose proof (compute_Ok_inv fromisoformat _ _ Heng2) as [Hone2 _].
  destruct (compute_contract fromisoformat _ Hone2
              (compute_Ok_range _ _ _ Heng2))
    as (out' & Hout' & Hlen2 & Hperm2 & _).
  assert (out' = merged2) by congruence. subst out'.
  rewrite length_app in Hlen2.
  exists doc, items, new_rows, merged1, merged2.
  split; [exact Hdoc|]. split; [exact Hdoc1|]. split; [exact Hitems|].
  split; [apply (new_rows_of_spec int_of_text); exact Hnew|].
  split; [exact Hne|].
  split; [rewrite Hfiles; apply lookup_insert_eq|].
  split; [exact Hex1|].
  split; [rewrite Hfiles2; apply lookup_insert_eq|].
  split; [exact Hlen2 | exact Hperm2].
Qed.
End LedgerFacts.

Lemma codec_round_trip (rows : list row) : codec_read (codec_write rows) = Ok rows.
Proof.
  unfold codec_read, codec_write.
  assert (H : forall p, pos_of_bits (bits_of_pos p) = p).
  { induction p; simpl; congruence. }
  rewrite H, decode_encode. reflexivity.
Qed.

Lemma scenario_first_run :
  main Some (sample_loads scenario_untitled_doc) int_of_decimal
    codec_read codec_write writes_all (fun _ => true) "" iso_seconds
    ["prog"; "run.json"; "out/ledger.csv"] scenario_fresh_world
  = (scenario_after_first_run, Ok tt).
Proof.
  apply (main_with_succeeds Some (sample_loads scenario_untitled_doc)
           int_of_decimal codec_read codec_write writes_all (fun _ => true) ""
           (compute_trend_and_flaky iso_seconds)
           "prog" "run.json" "out/ledger.csv" scenario_fresh_world
           scenario_untitled_doc
           [JDict [("attributes",
                    JDict [("status", JStr "passed");
                           ("created-at", JStr "2024-03-01T10:00:00Z")])]]
           [scenario_untitled_row] [] [scenario_untitled_scored]);
    try reflexivity.
  discriminate.
Qed.

Lemma scenario_second_run :
  main Some (sample_loads scenario_untitled_doc) int_of_decimal
    codec_read codec_write writes_all (fun _ => true) "" iso_seconds
    ["prog"; "run.json"; "out/ledger.csv"] scenario_after_first_run
  = (scenario_after_second_run, Ok tt).
Proof.
  apply (main_with_succeeds Some (sample_loads scenario_untitled_doc)
           int_of_decimal codec_read codec_write writes_all (fun _ => true) ""
           (compute_trend_and_flaky iso_seconds)
           "prog" "run.json" "out/ledger.csv" scenario_after_first_run
           scenario_untitled_doc
           [JDict [("attributes",
                    JDict [("status", JStr "passed");
                           ("created-at", JStr "2024-03-01T10:00:00Z")])]]
           [scenario_untitled_row] [scenario_untitled_scored]
           scenario_twice_scored);
    try reflexivity.
  discriminate.
Qed.

Lemma ledger_keeps_every_row_witness :
  exists doc items new_rows existing merged,
    load_json Some (sample_loads scenario_untitled_doc) scenario_fresh_world
      "run.json" = Ok doc
    /\ parse_items doc = Ok items
    /\ Forall2 (fun it r => to_row int_of_decimal it = Ok r)
         (List.filter has_attributes items) new_rows
    /\ read_existing_csv codec_read scenario_fresh_world "out/ledger.csv"
       = Ok existing
    /\ (files scenario_fresh_world !! "out/ledger.csv" = None -> existing = [])
    /\ files scenario_after_first_run !! "out/ledger.csv"
       = Some (codec_write merged)
    /\ length merged = (length existing + length new_rows)%nat
    /\ (length existing < length merged)%nat
    /\ Permutation (map core merged) (map core (existing ++ new_rows)).
Proof.
  apply (ledger_keeps_every_row Some (sample_loads scenario_untitled_doc)
           int_of_decimal codec_read codec_write writes_all (fun _ => true) ""
           iso_seconds "prog" "run.json" "out/ledger.csv" scenario_fresh_world).
  exact scenario_first_run.
Defined.

Lemma second_run_adds_the_rows_again_witness :
  exists doc items new_rows merged1 merged2,
    load_json Some (sample_loads scenario_untitled_doc) scenario_fresh_world
      "run.json" = Ok doc
    /\ load_json Some (sample_loads scenario_untitled_doc)
         scenario_after_first_run "run.json" = Ok doc
    /\ parse_items doc = Ok items
    /\ Forall2 (fun it r => to_row int_of_decimal it = Ok r)
         (List.filter has_attributes items) new_rows
    /\ new_rows <> []
    /\ files scenario_after_first_run !! "out/ledger.csv"
       = Some (codec_write merged1)
    /\ read_existing_csv codec_read scenario_after_first_run "out/ledger.csv"
       = Ok merged1
    /\ files scenario_after_second_run !! "out/ledger.csv"
       = Some (codec_write merged2)
    /\ length merged2 = (length merged1 + length new_rows)%nat
    /\ Permutation (map core merged2) (map core (merged1 ++ new_rows)).
Proof.
  apply (second_run_adds_the_rows_again Some (sample_loads scenario_untitled_doc)
           int_of_decimal codec_read codec_write writes_all (fun _ => true) ""
           iso_seconds "prog" "run.json" "out/ledger.csv" scenario_fresh_world).
  - discriminate.
  - exact codec_round_trip.
  - exact scenario_first_run.
  - exact scenario_second_run.
Defined.

(** ** Merging pages, and reading the merged document *)

Lemma merge_loop_from (data : list json) (pages : list json) :
  merge_loop data pages = app data <$> merge_loop [] pages.
Proof.
  revert data. induction pages as [|j pages IH]; intros data; simpl.
  - rewrite app_nil_r. reflexivity.
  - destruct (page_items j) as [v|e]; simpl; [|reflexivity].
    destruct (py_iter v) as [items|e]; simpl; [|reflexivity].
    rewrite (IH (data ++ items)), (IH items).
    destruct (merge_loop [] pages) as [out|e]; simpl; [|reflexivity].
    rewrite app_assoc. reflexivity.
Qed.

Lemma merge_loop_cons (j : json) (pages : list json) (items : list json) :
  page_items j = Ok (JList items) ->
  merge_loop [] (j :: pages) = app items <$> merge_loop [] pages.
Proof.
  intros Hj. simpl. rewrite Hj. simpl. apply merge_loop_from.
Qed.

Lemma data_page_items (j : json) (items : list json) :
  data_page j items -> page_items j = Ok (JList items).
Proof.
  intros (entries & -> & Hdata). unfold page_items. simpl. rewrite Hdata.
  reflexivity.
Qed.

Lemma tests_page_items (j : json) (tests : list json) :
  tests_page j tests -> page_items j = Ok (JList tests).
Proof.
  intros (entries & -> & Hdata & Htests). unfold page_items. simpl.
  rewrite Hdata, Htests. reflexivity.
Qed.

Lemma merge_pages_lists (pages : list json) (itemss : list (list json)) :
  Forall2 (fun j items => page_items j = Ok (JList items)) pages itemss ->
  merge_pages pages = Ok (JDict [("data", JList (concat itemss))]).
Proof.
  unfold merge_pages. induction 1 as [|j items pages itemss Hj _ IH]; [reflexivity|].
  rewrite (merge_loop_cons j pages items Hj).
  destruct (merge_loop [] pages) as [out|e]; simpl in *; [|discriminate].
  injection IH as ->. reflexivity.
Qed.

(** X15. Pages that hold their items as a list under [data] merge into one
    document with the items of all the pages, page after page; the
    ledger script finds in it the items it finds in the pages. *)
Theorem merged_data_pages_hold_all_items
    (pages : list json) (itemss : list (list json)) :
  Forall2 data_page pages itemss ->
  merge_pages pages = Ok (JDict [("data", JList (concat itemss))])
  /\ parse_items (JDict [("data", JList (concat itemss))]) = Ok (concat itemss)
  /\ Forall2 (fun j items => parse_items j = Ok items) pages itemss.
Proof.
  intros Hpages. split; [|split; [reflexivity|]].
  - apply merge_pages_lists.
    eapply Forall2_impl; [exact Hpages|]. intros j items. apply data_page_items.
  - eapply Forall2_impl; [exact Hpages|].
    intros j items (entries & -> & Hdata). unfold parse_items, dict_get.
    rewrite Hdata. reflexivity.
Qed.

Lemma merged_data_pages_hold_all_items_witness :
  merge_pages [scenario_untitled_doc; scenario_empty_doc; scenario_untitled_doc]
  = Ok (JDict [("data",
                JList (concat
                         [ [JDict [("attributes",
                                    JDict [("status", JStr "passed");
                                           ("created-at", JStr "2024-03-01T10:00:00Z")])]];
                           [];
                           [JDict [("attributes",
                                    JDict [("status", JStr "passed");
                                           ("created-at", JStr "2024-03-01T10:00:00Z")])]] ]))])
  /\ parse_items
       (JDict [("data",
                JList (concat
                         [ [JDict [("attributes",
                                    JDict [("status", JStr "passed");
                                           ("created-at", JStr "2024-03-01T10:00:00Z")])]];
                           [];
                           [JDict [("attributes",
                                    JDict [("status", JStr "passed");
                                           ("created-at", JStr "2024-03-01T10:00:00Z")])]] ]))])
     = Ok (concat
             [ [JDict [("attributes",
                        JDict [("status", JStr "passed");
                               ("created-at", JStr "2024-03-01T10:00:00Z")])]];
               [];
               [JDict [("attributes",
                        JDict [("status", JStr "passed");
                               ("created-at", JStr "2024-03-01T10:00:00Z")])]] ])
  /\ Forall2 (fun j items => parse_items j = Ok items)
       [scenario_untitled_doc; scenario_empty_doc; scenario_untitled_doc]
       [ [JDict [("attributes",
                  JDict [("status", JStr "passed");
                         ("created-at", JStr "2024-03-01T10:00:00Z")])]];
         [];
         [JDict [("attributes",
                  JDict [("status", JStr "passed");
                         ("created-at", JStr "2024-03-01T10:00:00Z")])]] ].
Proof.
  apply merged_data_pages_hold_all_items.
  repeat constructor; eexists; (split; [reflexivity | reflexivity]).
Defined.

Lemma merge_loop_raises (data pages : list json) (e : exn) :
  merge_loop data pages = Raise e -> e = AttributeError \/ e = TypeError.
Proof.
  revert data. induction pages as [|j pages IH]; intros data; simpl;
    [discriminate|].
  destruct (page_items j) as [v|e'] eqn:Hv; simpl.
  - destruct (py_iter v) as [items|e''] eqn:Hit; simpl; [apply IH|].
    intros [= <-]. right. destruct v; simpl in Hit; congruence.
  - intros [= <-]. left. unfold page_items in Hv.
    destruct j; simpl in Hv; congruence.
Qed.

(** X16. The ledger script reads an export whose root is a list, one
    item per element; the merge does not: a page whose root is a list
    makes it raise, whatever the other pages are, and what it raises is
    [AttributeError] when the pages before that one hold their items
    under [data].  The merge raises nothing but [AttributeError] and
    [TypeError]. *)
Theorem root_list_page_breaks_the_merge
    (pages : list json) (elements : list json) :
  In (JList elements) pages ->
  parse_items (JList elements) = Ok (map wrap_attributes elements)
  /\ (exists e,
        merge_pages pages = Raise e /\ (e = AttributeError \/ e = TypeError))
  /\ (forall before after itemss,
        pages = before ++ JList elements :: after ->
        Forall2 data_page before itemss ->
        merge_pages pages = Raise AttributeError).
Proof.
  intros Hin. split; [reflexivity|]. split.
  - assert (H : forall data, exists e, merge_loop data pages = Raise e).
    { induction pages as [|j pages IH]; [destruct Hin|].
      intros data. simpl. destruct Hin as [-> | Hin]; [simpl; eauto|].
      destruct (page_items j) as [v|e]; simpl; [|eauto].
      destruct (py_iter v) as [its|e]; simpl; [|eauto]. apply IH. exact Hin. }
    destruct (H []) as [e He]. exists e. unfold merge_pages. rewrite He.
    split; [reflexivity|]. apply (merge_loop_raises _ _ _ He).
  - intros before after itemss -> Hbefore. unfold merge_pages.
    clear Hin. induction Hbefore as [|j items before itemss Hj _ IH];
      [reflexivity|].
    change ((j :: before) ++ JList elements :: after)
      with (j :: before ++ JList elements :: after).
    rewrite (merge_loop_cons j _ items (data_page_items j items Hj)).
    destruct (merge_loop [] (before ++ JList elements :: after)) as [out|e];
      simpl in *; [discriminate | exact IH].
Qed.

Lemma root_list_page_breaks_the_merge_witness :
  let test := JDict [("title", JStr "login"); ("status", JStr "passed")] in
  let pages :=
    [JDict [("data", JList [wrap_attributes test; wrap_attributes test])];
     JList [test]] in
  parse_items (JList [test]) = Ok (map wrap_attributes [test])
  /\ (exists e,
        merge_pages pages = Raise e /\ (e = AttributeError \/ e = TypeError))
  /\ (forall before after itemss,
        pages = before ++ JList [test] :: after ->
        Forall2 data_page before itemss ->
        merge_pages pages = Raise AttributeError).
Proof.
  apply root_list_page_breaks_the_merge.
  simpl. right. left. reflexivity.
Defined.

Lemma new_rows_of_bare_tests (int_of_text : string -> option Z) (tests : list json) :
  Forall bare_test tests -> new_rows_of int_of_text tests = Ok [].
Proof.
  induction 1 as [|t tests (entries & -> & Hnone) _ IH]; [reflexivity|].
  simpl. unfold dict_get. rewrite Hnone. simpl. exact IH.
Qed.

(** X17. Pages that hold their tests under [tests] are read by the ledger
    script one test per item, each wrapped as the attributes of an item;
    the merge copies the tests into [data] without that wrapping, so that
    the ledger script finds no attributes in the merged document, builds
    no row from it and leaves with "No test items found". *)
Theorem merged_tests_pages_yield_no_rows
    (decode_utf8 : string -> option string)
    (json_loads : string -> json + string)
    (int_of_text : string -> option Z)
    (csv_read : string -> result (list row))
    (engine : list row -> result (list row))
    (pages : list json) (testss : list (list json)) :
  Forall2 tests_page pages testss ->
  Forall (Forall bare_test) testss ->
  Forall2 (fun j tests => parse_items j = Ok (map wrap_attributes tests))
    pages testss
  /\ (forall t, has_attributes (wrap_attributes t) = truthy t)
  /\ exists doc,
       merge_pages pages = Ok doc
       /\ parse_items doc = Ok (concat testss)
       /\ new_rows_of int_of_text (concat testss) = Ok []
       /\ forall w in_json out_csv,
            load_json decode_utf8 json_loads w in_json = Ok doc ->
            merged_rows decode_utf8 json_loads int_of_text csv_read engine
              w in_json out_csv
            = Raise (SystemExit NO_TEST_ITEMS).
Proof.
  intros Hpages Hbare. split; [|split; [reflexivity|]].
  - eapply Forall2_impl; [exact Hpages|].
    intros j tests (entries & -> & Hdata & Htests).
    unfold parse_items, dict_get. rewrite Hdata, Htests. reflexivity.
  - exists (JDict [("data", JList (concat testss))]).
    assert (Hnone : new_rows_of int_of_text (concat testss) = Ok []).
    { apply new_rows_of_bare_tests. apply Forall_concat. exact Hbare. }
    split; [|split; [reflexivity | split; [exact Hnone|]]].
    + apply merge_pages_lists.
      eapply Forall2_impl; [exact Hpages|]. intros j tests. apply tests_page_items.
    + intros w in_json out_csv Hdoc. unfold merged_rows.
      rewrite Hdoc. simpl. rewrite Hnone. reflexivity.
Qed.

Lemma merged_tests_pages_yield_no_rows_witness :
  let page := JDict [("tests",
                      JList [JDict [("title", JStr "login");
                                    ("status", JStr "passed")]])] in
  let testss := [[JDict [("title", JStr "login"); ("status", JStr "passed")]]] in
  Forall2 (fun j tests => parse_items j = Ok (map wrap_attributes tests))
    [page] testss
  /\ (forall t, has_attributes (wrap_attributes t) = truthy t)
  /\ exists doc,
       merge_pages [page] = Ok doc
       /\ parse_items doc = Ok (concat testss)
       /\ new_rows_of int_of_decimal (concat testss) = Ok []
       /\ forall w in_json out_csv,
            load_json Some (sample_loads scenario_empty_doc) w in_json = Ok doc ->
            merged_rows Some (sample_loads scenario_empty_doc) int_of_decimal
              sample_csv_read (compute_trend_and_flaky iso_seconds)
              w in_json out_csv
            = Raise (SystemExit NO_TEST_ITEMS).
Proof.
  apply (merged_tests_pages_yield_no_rows Some (sample_loads scenario_empty_doc)
           int_of_decimal sample_csv_read (compute_trend_and_flaky iso_seconds)).
  - repeat constructor. eexists. repeat split; reflexivity.
  - repeat constructor. eexists. split; reflexivity.
Defined.

(** ** Titles are stripped *)

Lemma append_cons (c : ascii) (a b : string) :
  String c a +:+ b = String c (a +:+ b).
Proof. reflexivity. Qed.

Lemma append_nil_l (b : string) : "" +:+ b = b.
Proof. reflexivity. Qed.

Lemma append_nil_r (a : string) : a +:+ "" = a.
Proof. induction a as [|c a IH]; [reflexivity|]. rewrite append_cons, IH. reflexivity. Qed.

Lemma append_assoc (a b c : string) : (a +:+ b) +:+ c = a +:+ (b +:+ c).
Proof.
  induction a as [|x a IH]; [reflexivity|]. rewrite !append_cons, IH. reflexivity.
Qed.

Lemma length_append (a b : string) :
  String.length (a +:+ b) = (String.length a + String.length b)%nat.
Proof.
  induction a as [|x a IH]; [reflexivity|]. rewrite append_cons. simpl.
  rewrite IH. reflexivity.
Qed.

Lemma drop_prefix_Some (p s s' : string) :
  drop_prefix p s = Some s' <-> s = p +:+ s'.
Proof.
  revert s. induction p as [|a p IH]; intros s; simpl.
  - rewrite append_nil_l. split; congruence.
  - rewrite append_cons. destruct s as [|b s]; [split; discriminate|].
    destruct (Ascii.eqb_spec a b) as [->|Hne].
    + rewrite IH. split; congruence.
    + split; [discriminate | congruence].
Qed.

Lemma drop_prefix_append (p s s' b : string) :
  drop_prefix p s = Some s' -> drop_prefix p (s +:+ b) = Some (s' +:+ b).
Proof.
  rewrite !drop_prefix_Some. intros ->. apply append_assoc.
Qed.

Lemma drop_first_of_Some (pats : list string) (s s' : string) :
  drop_first_of pats s = Some s' -> exists p, In p pats /\ s = p +:+ s'.
Proof.
  induction pats as [|p pats IH]; simpl; [discriminate|].
  destruct (drop_prefix p s) as [t|] eqn:Hp.
  - intros [= <-]. exists p. split; [left; reflexivity|].
    apply drop_prefix_Some. exact Hp.
  - intros H. destruct (IH H) as (q & Hq & Hs). exists q. split; [right|]; assumption.
Qed.

Lemma drop_first_of_None (pats : list string) (s : string) :
  drop_first_of pats s = None <-> forall p, In p pats -> drop_prefix p s = None.
Proof.
  induction pats as [|p pats IH]; simpl.
  - split; [intros _ q [] | reflexivity].
  - destruct (drop_prefix p s) as [t|] eqn:Hp.
    + split; [discriminate|]. intros H. rewrite (H p) in Hp by (left; reflexivity).
      discriminate.
    + rewrite IH. split.
      * intros H q [<- | Hq]; [exact Hp | apply H; exact Hq].
      * intros H q Hq. apply H. right. exact Hq.
Qed.

Lemma lstrip_with_suffix (pats : list string) (fuel : nat) (s : string) :
  exists a, s = a +:+ lstrip_with pats fuel s.
Proof.
  revert s. induction fuel as [|fuel IH]; intros s; simpl.
  - exists "". reflexivity.
  - destruct (drop_first_of pats s) as [s'|] eqn:Hdrop; [|exists ""; reflexivity].
    destruct (drop_first_of_Some _ _ _ Hdrop) as (p & _ & ->).
    destruct (IH s') as [a Ha]. exists (p +:+ a).
    rewrite append_assoc, <- Ha. reflexivity.
Qed.

Lemma lstrip_with_done (pats : list string) (fuel : nat) (s : string) :
  (forall p, In p pats -> p <> "") ->
  (String.length s <= fuel)%nat ->
  drop_first_of pats (lstrip_with pats fuel s) = None.
Proof.
  intros Hpats. revert s. induction fuel as [|fuel IH]; intros s Hlen; simpl.
  - destruct s; [|simpl in Hlen; lia].
    apply drop_first_of_None. intros p Hp.
    destruct p as [|c p]; [exfalso; apply (Hpats ""); auto | reflexivity].
  - destruct (drop_first_of pats s) as [s'|] eqn:Hdrop; [|exact Hdrop].
    apply IH. destruct (drop_first_of_Some _ _ _ Hdrop) as (p & Hp & ->).
    rewrite length_append in Hlen.
    destruct p as [|c p]; [exfalso; apply (Hpats ""); auto|]. simpl in Hlen. lia.
Qed.

Lemma lstrip_with_id (pats : list string) (fuel : nat) (s : string) :
  drop_first_of pats s = None -> lstrip_with pats fuel s = s.
Proof. intros H. destruct fuel; simpl; [|rewrite H]; reflexivity. Qed.

Lemma list_ascii_of_append (a b : string) :
  list_ascii_of_string (a +:+ b) = list_ascii_of_string a ++ list_ascii_of_string b.
Proof.
  induction a as [|x a IH]; [reflexivity|]. rewrite append_cons. simpl.
  rewrite IH. reflexivity.
Qed.

Lemma string_of_list_app (l1 l2 : list ascii) :
  string_of_list_ascii (l1 ++ l2)
  = string_of_list_ascii l1 +:+ string_of_list_ascii l2.
Proof.
  induction l1 as [|x l1 IH]; [reflexivity|]. simpl. rewrite IH. reflexivity.
Qed.

Lemma rev_string_involutive (s : string) : rev_string (rev_string s) = s.
Proof.
  unfold rev_string.
  rewrite list_ascii_of_string_of_list_ascii, rev_involutive.
  apply string_of_list_ascii_of_string.
Qed.

Lemma rev_string_append (a b : string) :
  rev_string (a +:+ b) = rev_string b +:+ rev_string a.
Proof.
  unfold rev_string. rewrite list_ascii_of_append, rev_app_distr.
  apply string_of_list_app.
Qed.

Lemma length_string_of_list (l : list ascii) :
  String.length (string_of_list_ascii l) = length l.
Proof. induction l as [|x l IH]; simpl; [reflexivity | rewrite IH; reflexivity]. Qed.

Lemma length_list_of_string (s : string) :
  length (list_ascii_of_string s) = String.length s.
Proof. induction s as [|x s IH]; simpl; [reflexivity | rewrite IH; reflexivity]. Qed.

Lemma length_rev_string (s : string) :
  String.length (rev_string s) = String.length s.
Proof.
  unfold rev_string.
  rewrite length_string_of_list, length_rev. apply length_list_of_string.
Qed.

Lemma whitespace_not_empty (p : string) : In p WHITESPACE -> p <> "".
Proof.
  intros Hp Hempty. subst p.
  assert (H : forallb (fun q => negb (String.eqb q "")) WHITESPACE = true)
    by (vm_compute; reflexivity).
  rewrite forallb_forall in H. specialize (H "" Hp). discriminate.
Qed.

Lemma rev_whitespace_not_empty (p : string) :
  In p (map rev_string WHITESPACE) -> p <> "".
Proof.
  intros Hp Hempty. subst p.
  assert (H : forallb (fun q => negb (String.eqb q "")) (map rev_string WHITESPACE)
              = true)
    by (vm_compute; reflexivity).
  rewrite forallb_forall in H. specialize (H "" Hp). discriminate.
Qed.

Lemma lstrip_spec (s : string) :
  (exists a, s = a +:+ lstrip s)
  /\ drop_first_of WHITESPACE (lstrip s) = None.
Proof.
  split; [apply lstrip_with_suffix|].
  apply lstrip_with_done; [exact whitespace_not_empty | lia].
Qed.

Lemma rstrip_spec (s : string) :
  (exists b, s = rstrip s +:+ b)
  /\ drop_first_of (map rev_string WHITESPACE) (rev_string (rstrip s)) = None.
Proof.
  unfold rstrip. split.
  - destruct (lstrip_with_suffix (map rev_string WHITESPACE)
                (String.length s) (rev_string s)) as [a Ha].
    exists (rev_string a).
    rewrite <- rev_string_append, <- Ha. symmetry. apply rev_string_involutive.
  - rewrite rev_string_involutive.
    apply lstrip_with_done; [exact rev_whitespace_not_empty|].
    rewrite length_rev_string. lia.
Qed.

Lemma starts_with_false (p s : string) :
  starts_with p s = false <-> drop_prefix p s = None.
Proof.
  unfold starts_with. destruct (drop_prefix p s); split; congruence.
Qed.

(** [strip] removes something at the two ends only; what it returns
    neither starts nor ends with a whitespace character, and is left as
    it is by a second [strip]. *)
Lemma strip_spec (s : string) :
  (exists a b, s = a +:+ strip s +:+ b)
  /\ (forall p, In p WHITESPACE ->
        starts_with p (strip s) = false /\ ends_with p (strip s) = false)
  /\ strip (strip s) = strip s.
Proof.
  destruct (lstrip_spec s) as [[a Ha] Hleft].
  destruct (rstrip_spec (lstrip s)) as [[b Hb] Hright].
  fold (strip s) in Hb, Hright.
  assert (Hstart : drop_first_of WHITESPACE (strip s) = None).
  { apply drop_first_of_None. intros p Hp.
    destruct (drop_prefix p (strip s)) as [t|] eqn:Ht; [|reflexivity].
    apply (drop_prefix_append _ _ _ b) in Ht. rewrite <- Hb in Ht.
    rewrite (proj1 (drop_first_of_None _ _) Hleft p Hp) in Ht. discriminate. }
  split; [|split].
  - exists a, b. rewrite <- Hb. exact Ha.
  - intros p Hp. split.
    + apply starts_with_false. apply (proj1 (drop_first_of_None _ _) Hstart p Hp).
    + unfold ends_with. apply starts_with_false.
      apply (proj1 (drop_first_of_None _ _) Hright). apply in_map. exact Hp.
  - unfold strip at 1. unfold lstrip. rewrite (lstrip_with_id _ _ _ Hstart).
    unfold rstrip. rewrite (lstrip_with_id _ _ _ Hright).
    apply rev_string_involutive.
Qed.

(** X11. The title of a row built by [to_row] is a part of the title of the
    item, without what came before and after it; it neither starts nor
    ends with a whitespace character (those of [str.isspace], the
    non-ASCII ones among them), and stripping it again changes nothing. *)
Theorem title_has_no_space_at_the_ends
    (int_of_text : string -> option Z) (item : json) (r : row) :
  to_row int_of_text item = Ok r ->
  (exists s a b,
     py_or (dict_get "title" (attributes_of item)) (JStr "") = JStr s
     /\ s = a +:+ title r +:+ b)
  /\ (forall p, In p WHITESPACE ->
        starts_with p (title r) = false /\ ends_with p (title r) = false)
  /\ strip (title r) = title r.
Proof.
  intros Hrow. destruct (to_row_title int_of_text item r Hrow) as (s & Hs & ->).
  destruct (strip_spec s) as ((a & b & Hab) & Hends & Hidem).
  split; [|split; [exact Hends | exact Hidem]].
  exists s, a, b. split; [exact Hs | exact Hab].
Qed.

Lemma title_has_no_space_at_the_ends_witness :
  let item := JDict [("attributes", JDict [("title", JStr " login ")])] in
  let r := new_row "" "login" "" 0 None in
  (exists s a b,
     py_or (dict_get "title" (attributes_of item)) (JStr "") = JStr s
     /\ s = a +:+ title r +:+ b)
  /\ (forall p, In p WHITESPACE ->
        starts_with p (title r) = false /\ ends_with p (title r) = false)
  /\ strip (title r) = title r.
Proof.
  apply (title_has_no_space_at_the_ends int_of_decimal).
  reflexivity.
Defined.
